(** * CryptoMeowCasino: the storage layer and the background-music manager

    A shallow embedding of the class [MongoStorage], which keeps users,
    deposits, withdrawals, game history, the jackpot and the farm in MongoDB
    through Mongoose, of the class [BackgroundMusicManager] of the client
    and of the buttons of [BettingPanel], with the pieces of the ECMAScript
    runtime they call: [parseFloat],
    [parseInt], [Number.prototype.toString], [Number.prototype.toFixed],
    [String.prototype.padStart], [String.prototype.slice], [Math.min] and
    [Math.max].

    JavaScript numbers are IEEE 754 binary64 values: they are embedded as
    primitive floats, so [+], [*] and [===] are the machine operations, and
    the conversions between numbers and strings round as ECMAScript says.
    Strings are restricted to 8-bit characters.

    What the code cannot decide is read from the world: whether a store
    operation is rejected, the time, the identifiers the driver generates, the
    salts of bcrypt, and for the music manager what the browser answers. *)

From Stdlib Require Import ZArith NArith QArith Qabs Qround Qpower Qfield.
From Stdlib Require Import List String Ascii Bool Lia.
From Stdlib Require Import Floats DecimalString Eqdep_dec.
From Stdlib Require Import Sorted Permutation.
From Stdlib Require Decimal DecimalFacts DecimalPos DecimalN.
Import ListNotations.

Set Implicit Arguments.
Set Warnings "-inexact-float".
Close Scope Q_scope.

(* ================================================================== *)
(** * The ECMAScript runtime *)
(* ================================================================== *)

Module JS.

Local Open Scope Z_scope.

(** ** Characters and strings *)

Definition chars : Type := list ascii.

Definition str (s : string) : chars := list_ascii_of_string s.
Definition unstr (l : chars) : string := string_of_list_ascii l.

Definition code (c : ascii) : N := N_of_ascii c.

(** StrWhiteSpaceChar, on 8-bit characters. *)
Definition is_space (c : ascii) : bool :=
  match code c with
  | 9%N | 10%N | 11%N | 12%N | 13%N | 32%N | 160%N => true
  | _ => false
  end.

Fixpoint skip_space (l : chars) : chars :=
  match l with
  | c :: r => if is_space c then skip_space r else l
  | [] => []
  end.

(** The value of a character as a digit in a radix up to 36. *)
Definition digit_value (c : ascii) : option N :=
  let n := code c in
  if ((48 <=? n) && (n <=? 57))%N then Some (n - 48)%N
  else if ((97 <=? n) && (n <=? 122))%N then Some (n - 87)%N
  else if ((65 <=? n) && (n <=? 90))%N then Some (n - 55)%N
  else None.

Definition radix_digit (R : N) (c : ascii) : option N :=
  match digit_value c with
  | Some d => if (d <? R)%N then Some d else None
  | None => None
  end.

(** The longest prefix of digits in radix [R], as a number, with the number
    of digits read and the rest of the input. *)
Fixpoint read_digits (R : N) (acc : N) (count : nat) (l : chars)
  : N * nat * chars :=
  match l with
  | c :: r =>
      match radix_digit R c with
      | Some d => read_digits R (acc * R + d)%N (S count) r
      | None => (acc, count, l)
      end
  | [] => (acc, count, [])
  end.

(** String.prototype.padStart, with a one-character filler. *)
Definition padStart (s : string) (maxLength : nat) (fill : ascii) : string :=
  let len := String.length s in
  if (maxLength <=? len)%nat then s
  else unstr (repeat fill (maxLength - len)) ++ s.

(** String.prototype.slice(start), the end left out. A negative start counts
    from the end of the string. *)
Definition slice (s : string) (start : Z) : string :=
  let len := Z.of_nat (String.length s) in
  let from := if start <? 0 then Z.max (len + start) 0 else Z.min start len in
  substring (Z.to_nat from) (Z.to_nat (len - from)) s.

(** ** Numbers *)

Definition number : Type := float.

(** The Number value for a mathematical value: round to nearest, ties to
    even. [of_scaled neg m e10] is the Number for [(-1)^neg * m * 10^e10]. *)
Definition of_scaled (neg : bool) (m : N) (e10 : Z) : number :=
  match m with
  | N0 => if neg then neg_zero else zero
  | Npos p =>
      match e10 with
      | Zneg k =>
          SF2Prim (SFdiv prec emax (S754_finite neg p 0)
                         (S754_finite false (Pos.pow 10 k) 0))
      | _ =>
          let f := binary_normalize prec emax (Z.pos p * 10 ^ e10) 0 false in
          SF2Prim (if neg then SFopp f else f)
      end
  end.

Definition read_sign (l : chars) : bool * chars :=
  match l with
  | "-"%char :: r => (true, r)
  | "+"%char :: r => (false, r)
  | _ => (false, l)
  end.

Fixpoint starts_with (p l : chars) : bool :=
  match p, l with
  | [], _ => true
  | a :: p', b :: l' => Ascii.eqb a b && starts_with p' l'
  | _ :: _, [] => false
  end.

(** The exponent part of a StrDecimalLiteral: [e] or [E], an optional sign and
    at least one digit; 0 when the input does not continue with one. *)
Definition read_exponent (l : chars) : Z :=
  match l with
  | c :: r =>
      if Ascii.eqb c "e" || Ascii.eqb c "E" then
        let '(eneg, r1) := read_sign r in
        let '(ev, ne, _) := read_digits 10 0 0 r1 in
        match ne with
        | O => 0
        | S _ => if eneg then - Z.of_N ev else Z.of_N ev
        end
      else 0
  | [] => 0
  end.

(** parseFloat(string): leading white space is skipped, the longest prefix
    that is a StrDecimalLiteral is read, and NaN is returned when there is
    none. *)
Definition parseFloat (s : string) : number :=
  let '(neg, l1) := read_sign (skip_space (str s)) in
  if starts_with (str "Infinity") l1 then
    if neg then neg_infinity else infinity
  else
    let '(ip, ni, l2) := read_digits 10 0 0 l1 in
    let '(m, nf, l3) :=
      match l2 with
      | "."%char :: r => read_digits 10 ip 0 r
      | _ => (ip, O, l2)
      end in
    match (ni + nf)%nat with
    | O => nan
    | S _ => of_scaled neg m (read_exponent l3 - Z.of_nat nf)
    end.

(** parseInt(string, radix); radix 0 stands for a radix that is left out. *)
Definition parseInt (s : string) (radix : N) : number :=
  let '(neg, l1) := read_sign (skip_space (str s)) in
  if negb (radix =? 0)%N && ((radix <? 2)%N || (36 <? radix)%N) then nan
  else
    let stripPrefix := (radix =? 0)%N || (radix =? 16)%N in
    let R := if (radix =? 0)%N then 10%N else radix in
    let '(R, l2) :=
      if stripPrefix && (starts_with (str "0x") l1 || starts_with (str "0X") l1)
      then (16%N, skipn 2 l1) else (R, l1) in
    let '(v, n, _) := read_digits R 0 0 l2 in
    match n with
    | O => nan
    | S _ => of_scaled neg v 0
    end.

(** The exact value of a finite Number. *)
Definition to_Q (x : number) : option Q :=
  match Prim2SF x with
  | S754_zero _ => Some 0%Q
  | S754_finite sg m e =>
      let v := (inject_Z (Z.pos m) * Qpower 2 e)%Q in
      Some (if sg then Qopp v else v)
  | _ => None
  end.

Definition pow10 (e : Z) : Q := Qpower 10 e.

Definition decimal (n : N) : chars :=
  str (NilZero.string_of_uint (N.to_uint n)).

Definition zeros (n : nat) : chars := repeat "0"%char n.

(** The position of the leading decimal digit of a positive value:
    the [n] with 10^(n-1) <= q < 10^n. *)
Fixpoint magnitude_below (fuel : nat) (q : Q) (n : Z) : Z :=
  match fuel with
  | O => n
  | S fuel' =>
      if Qle_bool 1 q then n else magnitude_below fuel' (q * 10)%Q (n - 1)
  end.

Definition magnitude (q : Q) : Z :=
  if Qle_bool 1 q
  then Z.of_nat (List.length (decimal (Z.to_N (Qfloor q))))
  else magnitude_below 400 (q * 10)%Q 0.

Definition Qabs_diff (a b : Q) : Q := Qabs (a - b).

(** Number::toString, step 5: the shortest digit string [s] (with k digits)
    and the position [n] such that s * 10^(n-k) reads back as [x]; among
    the candidates of that length the one closest to [x], the even one on a
    tie. *)
Fixpoint shortest (fuel : nat) (k : Z) (x : number) (q : Q) (n0 : Z)
  : N * Z :=
  let scale := pow10 (n0 - k) in
  let lo := Z.to_N (Qfloor (q / scale)) in
  let hi := (lo + 1)%N in
  let ok s := PrimFloat.eqb (of_scaled false s (n0 - k)) x in
  let pick s := if (s =? N.pow 10 (Z.to_N k))%N
                then (N.pow 10 (Z.to_N (k - 1)), n0 + 1) else (s, n0) in
  match fuel with
  | O => pick lo
  | S fuel' =>
      match ok lo, ok hi with
      | true, true =>
          let dlo := Qabs_diff q (inject_Z (Z.of_N lo) * scale) in
          let dhi := Qabs_diff q (inject_Z (Z.of_N hi) * scale) in
          match Qcompare dlo dhi with
          | Lt => pick lo
          | Gt => pick hi
          | Eq => if N.even lo then pick lo else pick hi
          end
      | true, false => pick lo
      | false, true => pick hi
      | false, false => shortest fuel' (k + 1) x q n0
      end
  end.

(** Number::toString for a positive finite value, steps 6 to 10. *)
Definition format_digits (s : N) (n : Z) : chars :=
  let ds := decimal s in
  let k := Z.of_nat (List.length ds) in
  if (k <=? n) && (n <=? 21) then
    ds ++ zeros (Z.to_nat (n - k))
  else if (0 <? n) && (n <=? 21) then
    firstn (Z.to_nat n) ds ++ "."%char :: skipn (Z.to_nat n) ds
  else if (-6 <? n) && (n <=? 0) then
    str "0." ++ zeros (Z.to_nat (- n)) ++ ds
  else
    let e := n - 1 in
    let es := (if e <? 0 then "-"%char else "+"%char)
                :: decimal (Z.to_N (Z.abs e)) in
    match ds with
    | [d] => d :: "e"%char :: es
    | d :: rest => d :: "."%char :: rest ++ "e"%char :: es
    | [] => []
    end.

(** Number.prototype.toString(), radix 10. *)
Definition toString (x : number) : string :=
  if is_nan x then "NaN"%string
  else match to_Q x with
       | None => if PrimFloat.ltb x zero then "-Infinity"%string
                 else "Infinity"%string
       | Some q =>
           if Qeq_bool q 0 then "0"%string
           else
             let a := Qabs q in
             let '(s, n) := shortest 17 1 (abs x) a (magnitude a) in
             let body := format_digits s n in
             unstr (if PrimFloat.ltb x zero then "-"%char :: body else body)
       end.

(** Number.prototype.toFixed(fractionDigits). *)
Definition toFixed (x : number) (f : nat) : string :=
  if is_nan x then "NaN"%string
  else match to_Q x with
       | None => toString x
       | Some q =>
           if Qle_bool (pow10 21) (Qabs q) then toString x
           else
             let n := Z.to_N (Qfloor (Qabs q * pow10 (Z.of_nat f) + (1 # 2))) in
             let ds := decimal n in
             let ds := zeros (S f - List.length ds) ++ ds in
             let k := List.length ds in
             let m := match f with
                      | O => ds
                      | S _ => firstn (k - f) ds ++ "."%char :: skipn (k - f) ds
                      end in
             unstr (if PrimFloat.ltb x zero then "-"%char :: m else m)
       end.

(** Math.max and Math.min, on two arguments. *)
Definition is_pos_zero (x : number) : bool := is_zero x && negb (get_sign x).
Definition is_neg_zero (x : number) : bool := is_zero x && get_sign x.

Definition max_step (highest x : number) : number :=
  let highest :=
    if is_pos_zero x && is_neg_zero highest then zero else highest in
  if PrimFloat.ltb highest x then x else highest.

Definition Math_max (a b : number) : number :=
  if is_nan a || is_nan b then nan
  else max_step (max_step neg_infinity a) b.

Definition min_step (lowest x : number) : number :=
  let lowest :=
    if is_neg_zero x && is_pos_zero lowest then neg_zero else lowest in
  if PrimFloat.ltb x lowest then x else lowest.

Definition Math_min (a b : number) : number :=
  if is_nan a || is_nan b then nan
  else min_step (min_step infinity a) b.

End JS.

Local Open Scope string_scope.

(* ================================================================== *)
(** * Document identifiers *)
(* ================================================================== *)

(** A [mongoose.Types.ObjectId]: twelve bytes, written as twenty-four
    lower-case hexadecimal characters. *)
Module ObjectId.

Definition to_lower (c : ascii) : ascii :=
  let n := JS.code c in
  if ((65 <=? n) && (n <=? 90))%N then ascii_of_N (n + 32) else c.

Definition is_lower_hex (c : ascii) : bool :=
  let n := JS.code c in
  ((48 <=? n) && (n <=? 57))%N || ((97 <=? n) && (n <=? 102))%N.

Definition well_formed (s : string) : bool :=
  (String.length s =? 24)%nat && forallb is_lower_hex (JS.str s).

Record t : Type := make { hex : string; wf : well_formed hex = true }.

(** [new ObjectId(s)] on a string: accepted when [s] is twenty-four
    hexadecimal characters of either case, refused otherwise. *)
Definition from_string (s : string) : option t :=
  let h := JS.unstr (map to_lower (JS.str s)) in
  match well_formed h as b return well_formed h = b -> option t with
  | true => fun H => Some (make h H)
  | false => fun _ => None
  end eq_refl.

Definition toString (o : t) : string := hex o.

Definition eqb (a b : t) : bool := String.eqb (hex a) (hex b).

End ObjectId.

(** [Date] values, in milliseconds since the epoch. *)
Definition Date : Type := Z.

(* ================================================================== *)
(** * The collections (mongodb-schemas) *)
(* ================================================================== *)

Module User.
(** Modelled from the spec: the [User] model of [mongodb-schemas], which is
    not among the sources: credentials, two balances, admin and ban flags.
    The fields are the ones the storage class reads and writes. *)
Record t : Type := make {
  _id : ObjectId.t;
  username : string;
  password : string;
  balance : string;
  meowBalance : string;
  isAdmin : bool;
  isBanned : bool;
  createdAt : Date
}.
End User.

Module Deposit.
(** Modelled from the spec: the [Deposit] model of [mongodb-schemas], which
    is not among the sources: amount, status, owner reference. The fields are
    the ones the storage class reads and writes. The status is a string path:
    the enum of the schema is a validator, which [save] runs and
    [findOneAndUpdate] does not. *)
Record t : Type := make {
  _id : ObjectId.t;
  userId : ObjectId.t;
  amount : string;
  receiptUrl : option string;
  status : string;
  createdAt : Date
}.
End Deposit.

Module Withdrawal.
(** Modelled from the spec: the [Withdrawal] model of [mongodb-schemas],
    which is not among the sources: amount, status, owner reference. The
    fields are the ones the storage class reads and writes. The status is a
    string path, as for deposits. *)
Record t : Type := make {
  _id : ObjectId.t;
  userId : ObjectId.t;
  amount : string;
  platform : string;
  accountInfo : string;
  status : string;
  createdAt : Date
}.
End Withdrawal.

Module GameHistory.
(** Modelled from the spec: the [GameHistory] model of [mongodb-schemas],
    which is not among the sources: bet and win amounts of a round. The fields
    are the ones the storage class reads and writes. *)
Record t : Type := make {
  _id : ObjectId.t;
  userId : ObjectId.t;
  gameType : string;
  betAmount : string;
  winAmount : string;
  meowWon : string;
  result : option string;
  createdAt : Date
}.
End GameHistory.

Module Jackpot.
(** Modelled from the spec: the [Jackpot] model of [mongodb-schemas], which
    is not among the sources: the single accrual record. The fields are the
    ones the storage class reads and writes. *)
Record t : Type := make {
  _id : ObjectId.t;
  amount : string;
  lastWinnerId : option ObjectId.t;
  lastWonAt : option Date;
  updatedAt : Date
}.
End Jackpot.

Module FarmCat.
(** Modelled from the spec: the [FarmCat] model of [mongodb-schemas], which
    is not among the sources: a production-generating asset of a user, with a
    level and a last-claimed time. The fields are the ones the storage class
    reads and writes. *)
Record t : Type := make {
  _id : ObjectId.t;
  userId : ObjectId.t;
  catId : string;
  level : JS.number;
  production : JS.number;
  lastClaimed : Date;
  createdAt : Date
}.
End FarmCat.

(* ================================================================== *)
(** * The plain objects the storage returns *)
(* ================================================================== *)

Module UserOut.
Record t : Type := make {
  id : JS.number;
  username : string;
  password : string;
  balance : string;
  meowBalance : string;
  isAdmin : bool;
  isBanned : bool;
  createdAt : Date
}.
End UserOut.

Module DepositOut.
Record t : Type := make {
  id : JS.number;
  userId : JS.number;
  amount : string;
  status : string;
  receiptUrl : option string;
  createdAt : Date
}.
End DepositOut.

Module WithdrawalOut.
Record t : Type := make {
  id : JS.number;
  userId : JS.number;
  amount : string;
  platform : string;
  accountInfo : string;
  status : string;
  createdAt : Date
}.
End WithdrawalOut.

Module GameHistoryOut.
Record t : Type := make {
  id : JS.number;
  userId : JS.number;
  gameType : string;
  betAmount : string;
  winAmount : string;
  meowWon : string;
  result : option string;
  createdAt : Date
}.
End GameHistoryOut.

Module JackpotOut.
Record t : Type := make {
  id : JS.number;
  amount : string;
  lastWinnerId : option JS.number;
  lastWonAt : option Date;
  updatedAt : Date
}.
End JackpotOut.

Module FarmCatOut.
Record t : Type := make {
  id : JS.number;
  userId : JS.number;
  catId : string;
  level : JS.number;
  production : JS.number;
  lastClaimed : Date;
  createdAt : Date
}.
End FarmCatOut.

Module FarmData.
Record t : Type := make {
  cats : list FarmCatOut.t;
  totalProduction : JS.number;
  unclaimedMeow : string
}.
End FarmData.

(** The arguments of the create methods. *)

Module InsertUser.
Record t : Type := make {
  username : string;
  password : string;
  balance : option string;
  meowBalance : option string;
  isAdmin : option bool;
  isBanned : option bool
}.
End InsertUser.

Module InsertDeposit.
Record t : Type := make {
  userId : JS.number;
  amount : string;
  receiptUrl : option string
}.
End InsertDeposit.

Module InsertWithdrawal.
Record t : Type := make {
  userId : JS.number;
  amount : string;
  platform : string;
  accountInfo : string
}.
End InsertWithdrawal.

Module InsertGame.
Record t : Type := make {
  userId : JS.number;
  gameType : string;
  betAmount : string;
  winAmount : option string;
  meowWon : option string;
  result : option string
}.
End InsertGame.

Module InsertFarmCat.
Record t : Type := make {
  userId : JS.number;
  catId : string;
  production : JS.number
}.
End InsertFarmCat.

(* ================================================================== *)
(** * The world: the storage object, the database and the runtime *)
(* ================================================================== *)

Inductive error : Type :=
| NotConnected      (* new Error('MongoDB not connected') *)
| BSONError         (* the ObjectId constructor refused its argument *)
| MongoError        (* a store operation was rejected *)
| DuplicateKey      (* an insert met an existing _id *)
| ValidationError   (* save() refused a document before the insert *)
| CastError.        (* an update could not be cast to the schema *)

Record Database : Type := mkDatabase {
  users : list User.t;
  deposits : list Deposit.t;
  withdrawals : list Withdrawal.t;
  games : list GameHistory.t;
  jackpots : list Jackpot.t;
  farmCats : list FarmCat.t
}.

(** What the runtime decides: whether the next store operations are
    rejected, what the next readings of the clock are, which identifiers
    the driver generates next, and which salts bcrypt draws. Each is a
    stream; reading it drops its head. *)
Record World : Type := mkWorld {
  isConnected : bool;
  db : Database;
  console : list (string * error);
  fault : nat -> bool;
  clock : nat -> Date;
  fresh : nat -> ObjectId.t;
  salt : nat -> string
}.

Definition behead {A : Type} (f : nat -> A) : nat -> A := fun n => f (S n).

Definition with_db (f : Database -> Database) (w : World) : World :=
  mkWorld (isConnected w) (f (db w)) (console w)
          (fault w) (clock w) (fresh w) (salt w).

Definition with_console (l : list (string * error)) (w : World) : World :=
  mkWorld (isConnected w) (db w) l (fault w) (clock w) (fresh w) (salt w).

Definition next_fault (w : World) : World :=
  mkWorld (isConnected w) (db w) (console w)
          (behead (fault w)) (clock w) (fresh w) (salt w).

Definition next_clock (w : World) : World :=
  mkWorld (isConnected w) (db w) (console w)
          (fault w) (behead (clock w)) (fresh w) (salt w).

Definition next_fresh (w : World) : World :=
  mkWorld (isConnected w) (db w) (console w)
          (fault w) (clock w) (behead (fresh w)) (salt w).

Definition next_salt (w : World) : World :=
  mkWorld (isConnected w) (db w) (console w)
          (fault w) (clock w) (fresh w) (behead (salt w)).

(** ** Computations: state, with exceptions that keep the state *)

Inductive outcome (A : Type) : Type :=
| Returns (a : A)
| Throws (e : error).

Arguments Throws {A} e.

Definition M (A : Type) : Type := World -> outcome A * World.

Definition ret {A : Type} (a : A) : M A := fun w => (Returns a, w).

Definition throw {A : Type} (e : error) : M A := fun w => (Throws e, w).

Definition bind {A B : Type} (c : M A) (k : A -> M B) : M B :=
  fun w => match c w with
           | (Returns a, w') => k a w'
           | (Throws e, w') => (Throws e, w')
           end.

Definition try_catch {A : Type} (body : M A) (handler : error -> M A) : M A :=
  fun w => match body w with
           | (Returns a, w') => (Returns a, w')
           | (Throws e, w') => handler e w'
           end.

Declare Scope storage_scope.
Delimit Scope storage_scope with storage.
Notation "x <- c ;; k" := (bind c (fun x => k))
  (at level 61, c at next level, right associativity) : storage_scope.
Notation "c ;;; k" := (bind c (fun _ => k))
  (at level 61, right associativity) : storage_scope.
Local Open Scope storage_scope.

Definition connected : M bool := fun w => (Returns (isConnected w), w).

Definition new_Date : M Date :=
  fun w => (Returns (clock w 0%nat), next_clock w).

Definition console_error (msg : string) (e : error) : M unit :=
  fun w => (Returns tt, with_console (console w ++ [(msg, e)]) w).

(** Every store operation is awaited and may be rejected. *)
Definition store_op : M unit :=
  fun w => if fault w 0%nat then (Throws MongoError, next_fault w)
           else (Returns tt, next_fault w).

Definition new_ObjectId (s : string) : M ObjectId.t :=
  match ObjectId.from_string s with
  | Some o => ret o
  | None => throw BSONError
  end.

(** The identifier a new document gets from the driver. *)
Definition generate_ObjectId : M ObjectId.t :=
  fun w => (Returns (fresh w 0%nat), next_fresh w).

Definition read_db : M Database := fun w => (Returns (db w), w).

Definition modify_db (f : Database -> Database) : M unit :=
  fun w => (Returns tt, with_db f w).

(* ================================================================== *)
(** * The object-document mapper *)
(* ================================================================== *)

Record Collection (D : Type) : Type := mkCollection {
  docs : Database -> list D;
  put_docs : list D -> Database -> Database;
  doc_id : D -> ObjectId.t
}.

Definition Users : Collection User.t :=
  mkCollection users
    (fun l d => mkDatabase l (deposits d) (withdrawals d) (games d)
                           (jackpots d) (farmCats d))
    User._id.

Definition Deposits : Collection Deposit.t :=
  mkCollection deposits
    (fun l d => mkDatabase (users d) l (withdrawals d) (games d)
                           (jackpots d) (farmCats d))
    Deposit._id.

Definition Withdrawals : Collection Withdrawal.t :=
  mkCollection withdrawals
    (fun l d => mkDatabase (users d) (deposits d) l (games d)
                           (jackpots d) (farmCats d))
    Withdrawal._id.

Definition Games : Collection GameHistory.t :=
  mkCollection games
    (fun l d => mkDatabase (users d) (deposits d) (withdrawals d) l
                           (jackpots d) (farmCats d))
    GameHistory._id.

Definition Jackpots : Collection Jackpot.t :=
  mkCollection jackpots
    (fun l d => mkDatabase (users d) (deposits d) (withdrawals d) (games d)
                           l (farmCats d))
    Jackpot._id.

Definition FarmCats : Collection FarmCat.t :=
  mkCollection farmCats
    (fun l d => mkDatabase (users d) (deposits d) (withdrawals d) (games d)
                           (jackpots d) l)
    FarmCat._id.

(** The first document that satisfies [p] is replaced by its update. *)
Fixpoint update_first {D : Type} (p : D -> bool) (upd : D -> D) (l : list D)
  : list D :=
  match l with
  | [] => []
  | d :: r => if p d then upd d :: r else d :: update_first p upd r
  end.

Definition update_all {D : Type} (p : D -> bool) (upd : D -> D) (l : list D)
  : list D :=
  map (fun d => if p d then upd d else d) l.

(** [sort({ createdAt: -1 })]: latest first; documents created at the same
    instant keep their order. *)
Fixpoint insert_desc {D : Type} (key : D -> Date) (x : D) (l : list D)
  : list D :=
  match l with
  | [] => [x]
  | y :: r => if (key y <=? key x)%Z then x :: l
              else y :: insert_desc key x r
  end.

Definition sort_desc {D : Type} (key : D -> Date) (l : list D) : list D :=
  fold_right (insert_desc key) [] l.

Section Model.

Variable D : Type.
Variable C : Collection D.

Definition has_id (o : ObjectId.t) (d : D) : bool :=
  ObjectId.eqb (doc_id C d) o.

(** [Model.find(filter)] *)
Definition find (p : D -> bool) : M (list D) :=
  store_op ;;; d <- read_db ;; ret (filter p (docs C d)).

(** [Model.findOne(filter)] *)
Definition findOne (p : D -> bool) : M (option D) :=
  store_op ;;; d <- read_db ;; ret (List.find p (docs C d)).

(** [new Model({...}).save()]: the insert of a new document. *)
Definition save_new (x : D) : M D :=
  store_op ;;;
  d <- read_db ;;
  if existsb (has_id (doc_id C x)) (docs C d) then throw DuplicateKey
  else modify_db (put_docs C (docs C d ++ [x])) ;;; ret x.

(** [doc.save()] on a document that was read from the collection. *)
Definition save_changes (x : D) : M D :=
  store_op ;;;
  modify_db (fun d =>
    put_docs C (update_first (has_id (doc_id C x)) (fun _ => x) (docs C d)) d)
  ;;; ret x.

(** [Model.findOneAndUpdate(filter, update)]: the result is the document
    as it was before the update, or null. *)
Definition findOneAndUpdate (p : D -> bool) (upd : D -> D) : M (option D) :=
  store_op ;;;
  d <- read_db ;;
  modify_db (put_docs C (update_first p upd (docs C d))) ;;;
  ret (List.find p (docs C d)).

(** [Model.updateMany(filter, update)] *)
Definition updateMany (p : D -> bool) (upd : D -> D) : M unit :=
  store_op ;;;
  modify_db (fun d => put_docs C (update_all p upd (docs C d)) d).

End Model.

(** ** JavaScript's view of values as conditions and defaults *)

(** [x || d] on a string that may be missing. *)
Definition or_else (x : option string) (d : string) : string :=
  match x with
  | Some EmptyString => d
  | Some s => s
  | None => d
  end.

(** [x || null] *)
Definition or_null (x : option string) : option string :=
  match x with
  | Some EmptyString => None
  | _ => x
  end.

(** Whether a number counts as true. *)
Definition truthy (x : JS.number) : bool := negb (is_nan x || is_zero x).

(** [new mongoose.Types.ObjectId(id.toString().padStart(24, '0'))] *)
Definition id_string (id : JS.number) : string :=
  JS.padStart (JS.toString id) 24 "0".

Definition ObjectId_of_number (id : JS.number) : M ObjectId.t :=
  new_ObjectId (id_string id).

(* ================================================================== *)
(** * MongoStorage *)
(* ================================================================== *)

Module MongoStorage.

Import JS.

Section Storage.

(** [bcrypt]: the hash of a password under a salt and a number of rounds. *)
Variable bcrypt : string -> string -> N -> string.

(** [bcrypt.hash(data, rounds)] draws a salt. *)
Definition bcrypt_hash (data : string) (rounds : N) : M string :=
  fun w => (Returns (bcrypt (salt w 0%nat) data rounds), next_salt w).

(** ** Helper methods to convert documents to the expected format *)

Definition numeric_id (o : ObjectId.t) : number :=
  parseInt (slice (ObjectId.toString o) (-6)) 16.

Definition owner_id (o : ObjectId.t) : number :=
  parseInt (ObjectId.toString o) 0.

Definition convertMongoUser (user : User.t) : UserOut.t :=
  UserOut.make (numeric_id (User._id user))
    (User.username user) (User.password user) (User.balance user)
    (User.meowBalance user) (User.isAdmin user) (User.isBanned user)
    (User.createdAt user).

Definition convertMongoDeposit (deposit : Deposit.t) : DepositOut.t :=
  DepositOut.make (numeric_id (Deposit._id deposit))
    (owner_id (Deposit.userId deposit))
    (Deposit.amount deposit) (Deposit.status deposit)
    (Deposit.receiptUrl deposit) (Deposit.createdAt deposit).

Definition convertMongoWithdrawal (withdrawal : Withdrawal.t)
  : WithdrawalOut.t :=
  WithdrawalOut.make (numeric_id (Withdrawal._id withdrawal))
    (owner_id (Withdrawal.userId withdrawal))
    (Withdrawal.amount withdrawal) (Withdrawal.platform withdrawal)
    (Withdrawal.accountInfo withdrawal) (Withdrawal.status withdrawal)
    (Withdrawal.createdAt withdrawal).

Definition convertMongoGameHistory (game : GameHistory.t) : GameHistoryOut.t :=
  GameHistoryOut.make (numeric_id (GameHistory._id game))
    (owner_id (GameHistory.userId game))
    (GameHistory.gameType game) (GameHistory.betAmount game)
    (GameHistory.winAmount game) (GameHistory.meowWon game)
    (GameHistory.result game) (GameHistory.createdAt game).

(** The object literal that getFarmData and getFarmCat build for a cat. *)
Definition convertFarmCat (cat : FarmCat.t) : FarmCatOut.t :=
  FarmCatOut.make (numeric_id (FarmCat._id cat))
    (owner_id (FarmCat.userId cat))
    (FarmCat.catId cat) (FarmCat.level cat) (FarmCat.production cat)
    (FarmCat.lastClaimed cat) (FarmCat.createdAt cat).

(** ** Updates *)

Definition set_balances (balance : string) (meowBalance : option string)
  (u : User.t) : User.t :=
  User.make (User._id u) (User.username u) (User.password u) balance
    (match meowBalance with Some m => m | None => User.meowBalance u end)
    (User.isAdmin u) (User.isBanned u) (User.createdAt u).

Definition set_isBanned (banned : bool) (u : User.t) : User.t :=
  User.make (User._id u) (User.username u) (User.password u)
    (User.balance u) (User.meowBalance u) (User.isAdmin u) banned
    (User.createdAt u).

Definition set_deposit_status (status : string) (d : Deposit.t) : Deposit.t :=
  Deposit.make (Deposit._id d) (Deposit.userId d) (Deposit.amount d)
    (Deposit.receiptUrl d) status (Deposit.createdAt d).

Definition set_withdrawal_status (status : string) (x : Withdrawal.t)
  : Withdrawal.t :=
  Withdrawal.make (Withdrawal._id x) (Withdrawal.userId x)
    (Withdrawal.amount x) (Withdrawal.platform x) (Withdrawal.accountInfo x)
    status (Withdrawal.createdAt x).

Definition set_jackpot_amount (amount : string) (updatedAt : Date)
  (j : Jackpot.t) : Jackpot.t :=
  Jackpot.make (Jackpot._id j) amount (Jackpot.lastWinnerId j)
    (Jackpot.lastWonAt j) updatedAt.

Definition set_jackpot_winner (winner : ObjectId.t) (wonAt : Date)
  (j : Jackpot.t) : Jackpot.t :=
  Jackpot.make (Jackpot._id j) (Jackpot.amount j) (Some winner) (Some wonAt)
    (Jackpot.updatedAt j).

Definition set_level_production (level production : number) (c : FarmCat.t)
  : FarmCat.t :=
  FarmCat.make (FarmCat._id c) (FarmCat.userId c) (FarmCat.catId c)
    level production (FarmCat.lastClaimed c) (FarmCat.createdAt c).

Definition set_lastClaimed (at_ : Date) (c : FarmCat.t) : FarmCat.t :=
  FarmCat.make (FarmCat._id c) (FarmCat.userId c) (FarmCat.catId c)
    (FarmCat.level c) (FarmCat.production c) at_ (FarmCat.createdAt c).

(** ** Users *)

Definition getUser (id : number) : M (option UserOut.t) :=
  c <- connected ;;
  if negb c then ret None else
  try_catch
    (oid <- ObjectId_of_number id ;;
     user <- findOne Users (has_id Users oid) ;;
     ret (option_map convertMongoUser user))
    (fun e => console_error "Error getting user:" e ;;; ret None).

Definition getUserByUsername (username : string) : M (option UserOut.t) :=
  c <- connected ;;
  if negb c then ret None else
  try_catch
    (user <- findOne Users (fun u => String.eqb (User.username u) username) ;;
     ret (option_map convertMongoUser user))
    (fun e => console_error "Error getting user by username:" e ;;; ret None).

Definition createUser (insertUser : InsertUser.t) : M UserOut.t :=
  c <- connected ;;
  if negb c then throw NotConnected else
  try_catch
    (hashedPassword <- bcrypt_hash (InsertUser.password insertUser) 10 ;;
     createdAt <- new_Date ;;
     oid <- generate_ObjectId ;;
     savedUser <- save_new Users
       (User.make oid (InsertUser.username insertUser) hashedPassword
                  "1000.00" "0.00000000" false false createdAt) ;;
     ret (convertMongoUser savedUser))
    (fun e => console_error "Error creating user:" e ;;; throw e).

Definition updateUserBalance (userId : number) (balance : string)
  (meowBalance : option string) : M unit :=
  c <- connected ;;
  if negb c then ret tt else
  try_catch
    (oid <- ObjectId_of_number userId ;;
     findOneAndUpdate Users (has_id Users oid)
                      (set_balances balance meowBalance) ;;;
     ret tt)
    (fun e => console_error "Error updating user balance:" e).

(** ** Deposits *)

Definition createDeposit (deposit : InsertDeposit.t) : M DepositOut.t :=
  c <- connected ;;
  if negb c then throw NotConnected else
  try_catch
    (owner <- ObjectId_of_number (InsertDeposit.userId deposit) ;;
     createdAt <- new_Date ;;
     oid <- generate_ObjectId ;;
     savedDeposit <- save_new Deposits
       (Deposit.make oid owner (InsertDeposit.amount deposit)
                     (or_null (InsertDeposit.receiptUrl deposit))
                     "pending" createdAt) ;;
     ret (convertMongoDeposit savedDeposit))
    (fun e => console_error "Error creating deposit:" e ;;; throw e).

Definition getDeposits : M (list DepositOut.t) :=
  c <- connected ;;
  if negb c then ret [] else
  try_catch
    (deposits <- find Deposits (fun _ => true) ;;
     ret (map convertMongoDeposit (sort_desc Deposit.createdAt deposits)))
    (fun e => console_error "Error getting deposits:" e ;;; ret []).

Definition updateDepositStatus (id : number) (status : string) : M unit :=
  c <- connected ;;
  if negb c then ret tt else
  try_catch
    (oid <- ObjectId_of_number id ;;
     deposit <- findOneAndUpdate Deposits (has_id Deposits oid)
                                 (set_deposit_status status) ;;
     match deposit with
     | Some deposit =>
         if String.eqb status "approved" then
           user <- findOne Users (has_id Users (Deposit.userId deposit)) ;;
           match user with
           | Some user =>
               let newBalance :=
                 toFixed (parseFloat (User.balance user)
                          + parseFloat (Deposit.amount deposit))%float 2 in
               updateUserBalance (owner_id (Deposit.userId deposit))
                                 newBalance None
           | None => ret tt
           end
         else ret tt
     | None => ret tt
     end)
    (fun e => console_error "Error updating deposit status:" e).

(** ** Withdrawals *)

Definition createWithdrawal (withdrawal : InsertWithdrawal.t)
  : M WithdrawalOut.t :=
  c <- connected ;;
  if negb c then throw NotConnected else
  try_catch
    (owner <- ObjectId_of_number (InsertWithdrawal.userId withdrawal) ;;
     createdAt <- new_Date ;;
     oid <- generate_ObjectId ;;
     savedWithdrawal <- save_new Withdrawals
       (Withdrawal.make oid owner (InsertWithdrawal.amount withdrawal)
                        (InsertWithdrawal.platform withdrawal)
                        (InsertWithdrawal.accountInfo withdrawal)
                        "pending" createdAt) ;;
     ret (convertMongoWithdrawal savedWithdrawal))
    (fun e => console_error "Error creating withdrawal:" e ;;; throw e).

Definition getWithdrawal (id : number) : M (option WithdrawalOut.t) :=
  c <- connected ;;
  if negb c then ret None else
  try_catch
    (oid <- ObjectId_of_number id ;;
     withdrawal <- findOne Withdrawals (has_id Withdrawals oid) ;;
     ret (option_map convertMongoWithdrawal withdrawal))
    (fun e => console_error "Error getting withdrawal:" e ;;; ret None).

Definition getWithdrawals : M (list WithdrawalOut.t) :=
  c <- connected ;;
  if negb c then ret [] else
  try_catch
    (withdrawals <- find Withdrawals (fun _ => true) ;;
     ret (map convertMongoWithdrawal
              (sort_desc Withdrawal.createdAt withdrawals)))
    (fun e => console_error "Error getting withdrawals:" e ;;; ret []).

Definition getUserWithdrawals (userId : number) : M (list WithdrawalOut.t) :=
  c <- connected ;;
  if negb c then ret [] else
  try_catch
    (owner <- ObjectId_of_number userId ;;
     withdrawals <- find Withdrawals
       (fun x => ObjectId.eqb (Withdrawal.userId x) owner) ;;
     ret (map convertMongoWithdrawal
              (sort_desc Withdrawal.createdAt withdrawals)))
    (fun e => console_error "Error getting user withdrawals:" e ;;; ret []).

Definition updateWithdrawalStatus (id : number) (status : string) : M unit :=
  c <- connected ;;
  if negb c then ret tt else
  try_catch
    (oid <- ObjectId_of_number id ;;
     findOneAndUpdate Withdrawals (has_id Withdrawals oid)
                      (set_withdrawal_status status) ;;;
     ret tt)
    (fun e => console_error "Error updating withdrawal status:" e).

(** ** Game history and the jackpot *)

Definition createGameHistory (game : InsertGame.t) : M GameHistoryOut.t :=
  c <- connected ;;
  if negb c then throw NotConnected else
  try_catch
    (owner <- ObjectId_of_number (InsertGame.userId game) ;;
     createdAt <- new_Date ;;
     oid <- generate_ObjectId ;;
     savedGame <- save_new Games
       (GameHistory.make oid owner (InsertGame.gameType game)
                         (InsertGame.betAmount game)
                         (or_else (InsertGame.winAmount game) "0.00")
                         (or_else (InsertGame.meowWon game) "0.00000000")
                         (or_null (InsertGame.result game))
                         createdAt) ;;
     (* Update jackpot based on losses *)
     (if (parseFloat (or_else (InsertGame.winAmount game) "0") =? 0)%float then
        jackpot <- findOne Jackpots (fun _ => true) ;;
        match jackpot with
        | Some jackpot =>
            let currentJackpot := parseFloat (Jackpot.amount jackpot) in
            let betAmount := parseFloat (InsertGame.betAmount game) in
            let jackpotIncrease := (betAmount * 0.01)%float in
            let amount := toFixed (currentJackpot + jackpotIncrease)%float 8 in
            updatedAt <- new_Date ;;
            save_changes Jackpots
              (set_jackpot_amount amount updatedAt jackpot) ;;;
            ret tt
        | None => ret tt
        end
      else ret tt) ;;;
     ret (convertMongoGameHistory savedGame))
    (fun e => console_error "Error creating game history:" e ;;; throw e).

Definition getGameHistory (userId : option number)
  : M (list GameHistoryOut.t) :=
  c <- connected ;;
  if negb c then ret [] else
  try_catch
    (query <-
       match userId with
       | Some n =>
           if truthy n then
             owner <- ObjectId_of_number n ;;
             ret (fun g => ObjectId.eqb (GameHistory.userId g) owner)
           else ret (fun _ => true)
       | None => ret (fun _ => true)
       end ;;
     history <- find Games query ;;
     ret (map convertMongoGameHistory
              (sort_desc GameHistory.createdAt history)))
    (fun e => console_error "Error getting game history:" e ;;; ret []).

Definition defaultJackpot : M JackpotOut.t :=
  updatedAt <- new_Date ;;
  ret (JackpotOut.make 1%float "0.10000000" None None updatedAt).

Definition getJackpot : M JackpotOut.t :=
  c <- connected ;;
  if negb c then defaultJackpot else
  try_catch
    (found <- findOne Jackpots (fun _ => true) ;;
     jackpot <-
       match found with
       | Some j => ret j
       | None =>
           updatedAt <- new_Date ;;
           oid <- generate_ObjectId ;;
           save_new Jackpots
             (Jackpot.make oid "0.10000000" None None updatedAt)
       end ;;
     ret (JackpotOut.make 1%float (Jackpot.amount jackpot)
            (option_map owner_id (Jackpot.lastWinnerId jackpot))
            (Jackpot.lastWonAt jackpot) (Jackpot.updatedAt jackpot)))
    (fun e => console_error "Error getting jackpot:" e ;;; defaultJackpot).

(** [findOneAndUpdate({}, update, { upsert: true })] on the jackpot: the
    first document is updated, or one is inserted from the update. *)
Definition upsertJackpot (upd : Jackpot.t -> Jackpot.t) : M unit :=
  store_op ;;;
  d <- read_db ;;
  match jackpots d with
  | [] =>
      oid <- generate_ObjectId ;;
      modify_db (put_docs Jackpots [upd (Jackpot.make oid "" None None 0%Z)])
  | _ :: _ =>
      modify_db (put_docs Jackpots
                   (update_first (fun _ => true) upd (jackpots d)))
  end.

Definition updateJackpot (amount : string) (winnerId : option number)
  : M unit :=
  c <- connected ;;
  if negb c then ret tt else
  try_catch
    (updatedAt <- new_Date ;;
     winner <-
       match winnerId with
       | Some n =>
           if truthy n then
             lastWinnerId <- ObjectId_of_number n ;;
             lastWonAt <- new_Date ;;
             ret (set_jackpot_winner lastWinnerId lastWonAt)
           else ret (fun j => j)
       | None => ret (fun j => j)
       end ;;
     upsertJackpot (fun j => winner (set_jackpot_amount amount updatedAt j)))
    (fun e => console_error "Error updating jackpot:" e).

(** ** Administration *)

Definition getAllUsers : M (list UserOut.t) :=
  c <- connected ;;
  if negb c then ret [] else
  try_catch
    (users <- find Users (fun _ => true) ;;
     ret (map convertMongoUser (sort_desc User.createdAt users)))
    (fun e => console_error "Error getting all users:" e ;;; ret []).

Definition banUser (userId : number) (banned : bool) : M unit :=
  c <- connected ;;
  if negb c then ret tt else
  try_catch
    (oid <- ObjectId_of_number userId ;;
     findOneAndUpdate Users (has_id Users oid) (set_isBanned banned) ;;;
     ret tt)
    (fun e => console_error "Error banning user:" e).

(** ** The farm *)

Definition emptyFarm : FarmData.t := FarmData.make [] 0%float "0.00000000".

Definition owned_by (owner : ObjectId.t) (cat : FarmCat.t) : bool :=
  ObjectId.eqb (FarmCat.userId cat) owner.

Definition getFarmData (userId : number) : M FarmData.t :=
  c <- connected ;;
  if negb c then ret emptyFarm else
  try_catch
    (owner <- ObjectId_of_number userId ;;
     cats <- find FarmCats (owned_by owner) ;;
     let totalProduction :=
       fold_left (fun sum cat => (sum + FarmCat.production cat)%float)
                 cats 0%float in
     ret (FarmData.make (map convertFarmCat cats) totalProduction
                        "0.00000000"))
    (fun e => console_error "Error getting farm data:" e ;;; ret emptyFarm).

(** A Number path of a schema takes every number but NaN: Mongoose's cast
    to Number refuses it. [save()] validates the document before the insert
    and rejects with a ValidationError; the update of a [findOneAndUpdate] is
    cast before the operation is sent and throws a CastError. *)
Definition number_path (x : number) : bool := negb (is_nan x).

Definition createFarmCat (data : InsertFarmCat.t) : M (option FarmCatOut.t) :=
  c <- connected ;;
  if negb c then ret None else
  try_catch
    (owner <- ObjectId_of_number (InsertFarmCat.userId data) ;;
     lastClaimed <- new_Date ;;
     createdAt <- new_Date ;;
     oid <- generate_ObjectId ;;
     saved <-
       (if number_path (InsertFarmCat.production data) then
          save_new FarmCats
            (FarmCat.make oid owner (InsertFarmCat.catId data) 1%float
                          (InsertFarmCat.production data) lastClaimed
                          createdAt)
        else throw ValidationError) ;;
     ret (Some (FarmCatOut.make (numeric_id (FarmCat._id saved))
                  (InsertFarmCat.userId data)
                  (FarmCat.catId saved) (FarmCat.level saved)
                  (FarmCat.production saved) (FarmCat.lastClaimed saved)
                  (FarmCat.createdAt saved))))
    (fun e => console_error "Error creating farm cat:" e ;;; ret None).

Definition getFarmCat (id : number) : M (option FarmCatOut.t) :=
  c <- connected ;;
  if negb c then ret None else
  try_catch
    (oid <- ObjectId_of_number id ;;
     cat <- findOne FarmCats (has_id FarmCats oid) ;;
     ret (option_map convertFarmCat cat))
    (fun e => console_error "Error getting farm cat:" e ;;; ret None).

Definition upgradeFarmCat (id : number) (level production : number)
  : M unit :=
  c <- connected ;;
  if negb c then ret tt else
  try_catch
    (oid <- ObjectId_of_number id ;;
     (if number_path level && number_path production then
        findOneAndUpdate FarmCats (has_id FarmCats oid)
                         (set_level_production level production)
      else throw CastError) ;;;
     ret tt)
    (fun e => console_error "Error upgrading farm cat:" e).

Definition claimFarmRewards (userId : number) : M unit :=
  c <- connected ;;
  if negb c then ret tt else
  try_catch
    (owner <- ObjectId_of_number userId ;;
     lastClaimed <- new_Date ;;
     updateMany FarmCats (owned_by owner) (set_lastClaimed lastClaimed))
    (fun e => console_error "Error claiming farm rewards:" e).

(** ** The data-access interface, as one family of calls *)

Inductive call : Type -> Type :=
| GetUser (id : number) : call (option UserOut.t)
| GetUserByUsername (username : string) : call (option UserOut.t)
| CreateUser (insertUser : InsertUser.t) : call UserOut.t
| UpdateUserBalance (userId : number) (balance : string)
                    (meowBalance : option string) : call unit
| CreateDeposit (deposit : InsertDeposit.t) : call DepositOut.t
| GetDeposits : call (list DepositOut.t)
| UpdateDepositStatus (id : number) (status : string) : call unit
| CreateWithdrawal (withdrawal : InsertWithdrawal.t) : call WithdrawalOut.t
| GetWithdrawal (id : number) : call (option WithdrawalOut.t)
| GetWithdrawals : call (list WithdrawalOut.t)
| GetUserWithdrawals (userId : number) : call (list WithdrawalOut.t)
| UpdateWithdrawalStatus (id : number) (status : string) : call unit
| CreateGameHistory (game : InsertGame.t) : call GameHistoryOut.t
| GetGameHistory (userId : option number) : call (list GameHistoryOut.t)
| GetJackpot : call JackpotOut.t
| UpdateJackpot (amount : string) (winnerId : option number) : call unit
| GetAllUsers : call (list UserOut.t)
| BanUser (userId : number) (banned : bool) : call unit
| GetFarmData (userId : number) : call FarmData.t
| CreateFarmCat (data : InsertFarmCat.t) : call (option FarmCatOut.t)
| GetFarmCat (id : number) : call (option FarmCatOut.t)
| UpgradeFarmCat (id : number) (level production : number) : call unit
| ClaimFarmRewards (userId : number) : call unit.

Definition run {A : Type} (c : call A) : M A :=
  match c in call T return M T with
  | GetUser id => getUser id
  | GetUserByUsername username => getUserByUsername username
  | CreateUser insertUser => createUser insertUser
  | UpdateUserBalance userId balance meowBalance =>
      updateUserBalance userId balance meowBalance
  | CreateDeposit deposit => createDeposit deposit
  | GetDeposits => getDeposits
  | UpdateDepositStatus id status => updateDepositStatus id status
  | CreateWithdrawal withdrawal => createWithdrawal withdrawal
  | GetWithdrawal id => getWithdrawal id
  | GetWithdrawals => getWithdrawals
  | GetUserWithdrawals userId => getUserWithdrawals userId
  | UpdateWithdrawalStatus id status => updateWithdrawalStatus id status
  | CreateGameHistory game => createGameHistory game
  | GetGameHistory userId => getGameHistory userId
  | GetJackpot => getJackpot
  | UpdateJackpot amount winnerId => updateJackpot amount winnerId
  | GetAllUsers => getAllUsers
  | BanUser userId banned => banUser userId banned
  | GetFarmData userId => getFarmData userId
  | CreateFarmCat data => createFarmCat data
  | GetFarmCat id => getFarmCat id
  | UpgradeFarmCat id level production => upgradeFarmCat id level production
  | ClaimFarmRewards userId => claimFarmRewards userId
  end.

(** The methods whose catch block ends in [throw error]. *)
Definition rethrows {A : Type} (c : call A) : bool :=
  match c with
  | CreateUser _ | CreateDeposit _ | CreateWithdrawal _
  | CreateGameHistory _ => true
  | _ => false
  end.

End Storage.

End MongoStorage.

(* ================================================================== *)
(** * BackgroundMusicManager *)
(* ================================================================== *)

Module BackgroundMusicManager.

Import JS.

(** The part of an [HTMLAudioElement] the manager reads and writes. *)
Record Audio : Type := mkAudio {
  src : string;
  audio_volume : number;
  preload : string;
  paused : bool
}.

(** [new Audio()] *)
Definition new_Audio : Audio := mkAudio "" 1%float "" true.

(** Assigning [src] starts the element's load algorithm, which pauses it. *)
Definition set_src (s : string) (a : Audio) : Audio :=
  mkAudio s (audio_volume a) (preload a) true.

Definition set_paused (b : bool) (a : Audio) : Audio :=
  mkAudio (src a) (audio_volume a) (preload a) b.

Definition set_preload (p : string) (a : Audio) : Audio :=
  mkAudio (src a) (audio_volume a) p (paused a).

(** Assigning [volume]: the element refuses a value outside [0, 1]. *)
Definition set_audio_volume (v : number) (a : Audio) : option Audio :=
  if (0 <=? v)%float && (v <=? 1)%float
  then Some (mkAudio (src a) v (preload a) (paused a))
  else None.

(** The manager's fields, and what the browser decides: whether the next
    calls of [audio.play()] are fulfilled, and how a [fetch] of a path ends
    ([None]: rejected; [Some ok]: a response with that [ok]). *)
Record t : Type := mk {
  audio : option Audio;
  enabled : bool;
  volume : number;
  isInitialized : bool;
  currentTrackIndex : nat;
  availableTracks : list string;
  currentTrackName : string;
  playable : nat -> bool;
  fetch : string -> option bool
}.

(** The field initialisers of the class. *)
Definition created (playable : nat -> bool) (fetch : string -> option bool)
  : t :=
  mk None true 0.5%float false 0 [] "" playable fetch.

Definition with_audio (a : option Audio) (m : t) : t :=
  mk a (enabled m) (volume m) (isInitialized m) (currentTrackIndex m)
     (availableTracks m) (currentTrackName m) (playable m) (fetch m).

Definition with_enabled (b : bool) (m : t) : t :=
  mk (audio m) b (volume m) (isInitialized m) (currentTrackIndex m)
     (availableTracks m) (currentTrackName m) (playable m) (fetch m).

Definition with_volume (v : number) (m : t) : t :=
  mk (audio m) (enabled m) v (isInitialized m) (currentTrackIndex m)
     (availableTracks m) (currentTrackName m) (playable m) (fetch m).

Definition with_isInitialized (b : bool) (m : t) : t :=
  mk (audio m) (enabled m) (volume m) b (currentTrackIndex m)
     (availableTracks m) (currentTrackName m) (playable m) (fetch m).

Definition with_currentTrackIndex (i : nat) (m : t) : t :=
  mk (audio m) (enabled m) (volume m) (isInitialized m) i
     (availableTracks m) (currentTrackName m) (playable m) (fetch m).

Definition with_availableTracks (l : list string) (m : t) : t :=
  mk (audio m) (enabled m) (volume m) (isInitialized m) (currentTrackIndex m)
     l (currentTrackName m) (playable m) (fetch m).

Definition with_currentTrackName (s : string) (m : t) : t :=
  mk (audio m) (enabled m) (volume m) (isInitialized m) (currentTrackIndex m)
     (availableTracks m) s (playable m) (fetch m).

Definition next_playable (m : t) : t :=
  mk (audio m) (enabled m) (volume m) (isInitialized m) (currentTrackIndex m)
     (availableTracks m) (currentTrackName m) (behead (playable m)) (fetch m).

(** [detectAvailableTracks]: bgm.mp3, then bgm1.mp3 to bgm10.mp3. *)
Definition found (m : t) (name : string) : list string :=
  match fetch m ("/sounds/" ++ name) with
  | Some true => [name]
  | _ => []
  end.

Definition numbered (i : nat) : string :=
  "bgm" ++ unstr (decimal (N.of_nat i)) ++ ".mp3".

Definition detectAvailableTracks (m : t) : list string :=
  found m "bgm.mp3" ++ flat_map (fun i => found m (numbered i)) (seq 1 10).

Definition loadCurrentTrack (m : t) : t :=
  match audio m, availableTracks m with
  | None, _ => m
  | _, [] => m
  | Some a, _ :: _ =>
      let trackName :=
        nth (currentTrackIndex m) (availableTracks m) "undefined" in
      with_currentTrackName trackName
        (with_audio (Some (set_src ("/sounds/" ++ trackName) a)) m)
  end.

(** The index moves to the next track and wraps around. *)
Definition advance (m : t) : t :=
  loadCurrentTrack
    (with_currentTrackIndex
       ((currentTrackIndex m + 1) mod List.length (availableTracks m)) m).

(** [play] and [playNextTrack] call each other: a failed [audio.play()]
    moves on to the next track and plays again. [fuel] bounds the number of
    tracks tried in a row. *)
Fixpoint play (fuel : nat) (m : t) : t :=
  match audio m with
  | None => m
  | Some a =>
      if negb (enabled m) then m
      else if negb (paused a) then m
      else if playable m 0%nat
      then with_audio (Some (set_paused false a)) (next_playable m)
      else
        let m := next_playable m in
        match fuel with
        | O => m
        | S fuel' =>
            match availableTracks m with
            | [] => m
            | _ :: _ =>
                let m := advance m in
                if enabled m then play fuel' m else m
            end
        end
  end.

Definition playNextTrack (fuel : nat) (m : t) : t :=
  match availableTracks m with
  | [] => m
  | _ :: _ =>
      let m := advance m in
      if enabled m then play fuel m else m
  end.

Definition pause (m : t) : t :=
  match audio m with
  | Some a => if negb (paused a) then with_audio (Some (set_paused true a)) m
              else m
  | None => m
  end.

Inductive completion : Type := Normal | Abrupt.

Definition setVolume (v : number) (m : t) : completion * t :=
  let m := with_volume (Math_min 1 (Math_max 0 v))%float m in
  match audio m with
  | Some a =>
      match set_audio_volume (volume m) a with
      | Some a' => (Normal, with_audio (Some a') m)
      | None => (Abrupt, m)
      end
  | None => (Normal, m)
  end.

Definition getVolume (m : t) : number := volume m.

Definition setEnabled (fuel : nat) (b : bool) (m : t) : t :=
  let m := with_enabled b m in
  if b then play fuel m else pause m.

Definition isEnabled (m : t) : bool := enabled m.

Definition isPlaying (m : t) : bool :=
  match audio m with
  | Some a => negb (paused a)
  | None => false
  end.

Definition getCurrentTrackName (m : t) : string := currentTrackName m.

Definition getAvailableTracksCount (m : t) : nat :=
  List.length (availableTracks m).

Definition initializeAudio (m : t) : t :=
  if isInitialized m then m
  else
    let m := with_availableTracks (detectAvailableTracks m) m in
    match availableTracks m with
    | [] => m
    | _ :: _ =>
        let m := loadCurrentTrack (with_audio (Some new_Audio) m) in
        match audio m with
        | Some a =>
            match set_audio_volume (volume m) a with
            | Some a' =>
                with_isInitialized true
                  (with_audio (Some (set_preload "auto" a')) m)
            | None => m
            end
        | None => m
        end
    end.

(** What can happen to the manager: a call of one of its methods, or one of
    the two events it listens to on the audio element. *)
Inductive operation : Type :=
| InitializeAudio
| Play
| Pause
| SetVolume (v : number)
| SetEnabled (b : bool)
| Ended
| Error.

Definition step (fuel : nat) (m : t) (o : operation) : t :=
  match o with
  | InitializeAudio => initializeAudio m
  | Play => play fuel m
  | Pause => pause m
  | SetVolume v => snd (setVolume v m)
  | SetEnabled b => setEnabled fuel b m
  | Ended => playNextTrack fuel m
  | Error => playNextTrack fuel m
  end.

Definition is_setVolume (o : operation) : bool :=
  match o with
  | SetVolume _ => true
  | _ => false
  end.

(** A volume argument is a real number when it is not NaN. *)
Definition real_argument (o : operation) : bool :=
  match o with
  | SetVolume v => negb (is_nan v)
  | _ => true
  end.

Definition in_unit_interval (v : number) : bool :=
  (0 <=? v)%float && (v <=? 1)%float.

End BackgroundMusicManager.

(* ================================================================== *)
(** * What the specification speaks of *)
(* ================================================================== *)

Module Spec.

Import JS MongoStorage.

(** The store answers every operation. *)
Definition healthy (w : World) : Prop := forall n, fault w n = false.

(** The amount of the jackpot: that of the document [Jackpot.findOne()]
    answers with, when there is one. *)
Definition jackpotAmount (d : Database) : option string :=
  option_map Jackpot.amount (hd_error (jackpots d)).

(** The last [n] characters of a string. *)
Definition last_chars (n : nat) (s : string) : string :=
  unstr (skipn (String.length s - n) (str s)).

(** The value of a hexadecimal digit. *)
Definition hex_digit (c : ascii) : N :=
  match c with
  | "0"%char => 0 | "1"%char => 1 | "2"%char => 2 | "3"%char => 3
  | "4"%char => 4 | "5"%char => 5 | "6"%char => 6 | "7"%char => 7
  | "8"%char => 8 | "9"%char => 9 | "a"%char => 10 | "b"%char => 11
  | "c"%char => 12 | "d"%char => 13 | "e"%char => 14 | "f"%char => 15
  | _ => 0
  end%N.

(** The integer a string of hexadecimal digits denotes in base 16. *)
Definition base16 (s : string) : N :=
  fold_left (fun v c => (16 * v + hex_digit c)%N) (str s) 0%N.

(** The Number with an integer value. *)
Definition Number_of (n : N) : number := of_scaled false n 0.

(** A Number whose value is exactly an integer. *)
Definition has_integer_value (x : number) (n : N) : Prop :=
  exists q, to_Q x = Some q /\ Qeq q (inject_Z (Z.of_N n)).

(** The sum of a list of numbers, from the left, starting at 0. *)
Definition sum (l : list number) : number :=
  fold_left PrimFloat.add l 0%float.

(** The three values of the status enum. *)
Definition in_status_enum (s : string) : bool :=
  String.eqb s "pending" || String.eqb s "approved" || String.eqb s "rejected".

Definition statuses_in_enum (d : Database) : Prop :=
  Forall (fun x => in_status_enum (Deposit.status x) = true) (deposits d) /\
  Forall (fun x => in_status_enum (Withdrawal.status x) = true)
         (withdrawals d).

(** An owner reference that reads back: parsed as a decimal number and
    written out again on twenty-four characters, it is the same identifier.
    This is the case of a reference written from a numeric id. *)
Definition decimal_reference (o : ObjectId.t) : Prop :=
  ObjectId.from_string (id_string (owner_id o)) = Some o.

(** The numeric id the specification gives a document: the base-16 value of
    the last six characters of its identifier. *)
Definition id_of_identifier (o : ObjectId.t) : number :=
  Number_of (base16 (last_chars 6 (ObjectId.toString o))).

(** What a method answers with when it gives up: nothing, an empty list, the
    initial jackpot, an empty farm. The create methods have no such answer. *)
Definition empty_result {A : Type} (c : call A) : A -> Prop :=
  match c in call T return T -> Prop with
  | GetUser _ | GetUserByUsername _ => fun r => r = None
  | GetWithdrawal _ => fun r => r = None
  | CreateFarmCat _ | GetFarmCat _ => fun r => r = None
  | GetDeposits => fun r => r = []
  | GetWithdrawals | GetUserWithdrawals _ => fun r => r = []
  | GetGameHistory _ => fun r => r = []
  | GetAllUsers => fun r => r = []
  | GetJackpot =>
      fun r => JackpotOut.id r = 1%float /\
               JackpotOut.amount r = "0.10000000" /\
               JackpotOut.lastWinnerId r = None /\
               JackpotOut.lastWonAt r = None
  | GetFarmData _ => fun r => r = emptyFarm
  | UpdateUserBalance _ _ _ | UpdateDepositStatus _ _
  | UpdateWithdrawalStatus _ _ | UpdateJackpot _ _ | BanUser _ _
  | UpgradeFarmCat _ _ _ | ClaimFarmRewards _ => fun _ => True
  | CreateUser _ | CreateDeposit _ | CreateWithdrawal _
  | CreateGameHistory _ => fun _ => False
  end.

(** The calls whose status argument, if they have one, is in the enum. *)
Definition status_argument_in_enum {A : Type} (c : call A) : bool :=
  match c with
  | UpdateDepositStatus _ status => in_status_enum status
  | UpdateWithdrawalStatus _ status => in_status_enum status
  | _ => true
  end.

(** ** Three statements about the storage, as they are written *)

(** "No method propagates the failure to its caller." *)
Definition never_propagates : Prop :=
  forall bcrypt A (c : call A) w,
    exists a w', run bcrypt c w = (Returns a, w').

(** "The status of every Deposit and Withdrawal record is always one of
    pending, approved, rejected", for every status argument. *)
Definition status_enum_is_invariant : Prop :=
  forall bcrypt A (c : call A) w,
    statuses_in_enum (db w) -> statuses_in_enum (db (snd (run bcrypt c w))).

(** "For every deposit, approval increases the owning user's balance by the
    deposit's amount; any other status leaves every balance unchanged." *)
Definition approval_credits_owner : Prop :=
  forall w id status oid d owner,
    isConnected w = true -> healthy w ->
    ObjectId.from_string (id_string id) = Some oid ->
    List.find (has_id Deposits oid) (deposits (db w)) = Some d ->
    List.find (has_id Users (Deposit.userId d)) (users (db w)) = Some owner ->
    let w' := snd (updateDepositStatus id status w) in
    (status = "approved" ->
     option_map User.balance
       (List.find (has_id Users (Deposit.userId d)) (users (db w'))) =
     Some (toFixed (parseFloat (User.balance owner)
                    + parseFloat (Deposit.amount d))%float 2)) /\
    (status <> "approved" ->
     map User.balance (users (db w')) = map User.balance (users (db w))).

End Spec.

(* ================================================================== *)
(** * Sample data *)
(* ================================================================== *)

Module Sample.

Import JS MongoStorage.
Local Open Scope Z_scope.

Definition oid_0 : ObjectId.t :=
  ObjectId.make "000000000000000000000000" eq_refl.
Definition oid_1 : ObjectId.t :=
  ObjectId.make "000000000000000000000001" eq_refl.
Definition oid_2 : ObjectId.t :=
  ObjectId.make "000000000000000000000002" eq_refl.
Definition oid_7 : ObjectId.t :=
  ObjectId.make "000000000000000000000007" eq_refl.
Definition oid_a : ObjectId.t :=
  ObjectId.make "00000000000000000000000a" eq_refl.
Definition oid_j : ObjectId.t :=
  ObjectId.make "65f1c2a4b3d4e5f600a1b2c3" eq_refl.
Definition oid_new : ObjectId.t :=
  ObjectId.make "65f1c2a4b3d4e5f600a1b2ff" eq_refl.

Definition alice : User.t :=
  User.make oid_a "alice" "$2b$10$alice" "10.00" "0.00000000" false false 5.
Definition zed : User.t :=
  User.make oid_0 "zed" "$2b$10$zed" "1.00" "0.00000000" false false 6.
Definition bob : User.t :=
  User.make oid_7 "bob" "$2b$10$bob" "3.10" "0.00000000" false false 7.

Definition deposit_alice : Deposit.t :=
  Deposit.make oid_1 oid_a "5.00" None "pending" 8.
Definition deposit_bob : Deposit.t :=
  Deposit.make oid_2 oid_7 "5.00" None "pending" 9.

Definition withdrawal_bob : Withdrawal.t :=
  Withdrawal.make oid_1 oid_7 "2.00" "gcash" "0917" "pending" 10.

Definition pot : Jackpot.t := Jackpot.make oid_j "0.10000000" None None 0.

Definition cat_bob_1 : FarmCat.t :=
  FarmCat.make oid_1 oid_7 "basic" 1%float 0.5%float 11 11.
Definition cat_bob_2 : FarmCat.t :=
  FarmCat.make oid_2 oid_7 "farm" 2%float 0.25%float 12 12.
Definition cat_alice : FarmCat.t :=
  FarmCat.make oid_a oid_a "basic" 1%float 4%float 13 13.

Definition database : Database :=
  mkDatabase [alice; zed; bob] [deposit_alice; deposit_bob] [withdrawal_bob]
             [] [pot] [cat_bob_1; cat_alice; cat_bob_2].

(** A connected storage over a store that answers. *)
Definition world : World :=
  mkWorld true database [] (fun _ => false) (fun n => 1000 + Z.of_nat n)
          (fun _ => oid_new) (fun _ => "salt").

(** The same, over a store that rejects every operation. *)
Definition failing_world : World :=
  mkWorld true database [] (fun _ => true) (fun n => 1000 + Z.of_nat n)
          (fun _ => oid_new) (fun _ => "salt").

Definition toy_bcrypt (salt data : string) (rounds : N) : string :=
  "$2b$" ++ salt ++ "$" ++ data.

Definition carol : InsertUser.t :=
  InsertUser.make "carol" "hunter2" (Some "999999.00") (Some "5.00000000")
                  (Some true) (Some true).

Definition lost_game : InsertGame.t :=
  InsertGame.make 7%float "dice" "2.50" None None None.

Definition won_game : InsertGame.t :=
  InsertGame.make 7%float "dice" "2.50" (Some "5.00") None None.

End Sample.

(* ================================================================== *)
(** * MongoStorage: connecting and the default data *)
(* ================================================================== *)

Module Startup.

Import JS MongoStorage.

Section Init.

Variable bcrypt : string -> string -> N -> string.

(** [connectToMongoDB] of the connection module: it answers whether the
    connection was made, or throws. *)
Variable connectToMongoDB : M bool.

(** [this.isConnected = b] *)
Definition set_isConnected (b : bool) : M unit :=
  fun w => (Returns tt,
            mkWorld b (db w) (console w) (fault w) (clock w) (fresh w)
                    (salt w)).

(** [initializeDefaultData]. The console of the world keeps what goes to
    [console.error], without the pictograph that opens each message; the
    lines of [console.log] are not kept. *)
Definition initializeDefaultData : M unit :=
  try_catch
    (existingJackpot <- findOne Jackpots (fun _ => true) ;;
     match existingJackpot with
     | None =>
         updatedAt <- new_Date ;;
         oid <- generate_ObjectId ;;
         save_new Jackpots
           (Jackpot.make oid "0.10000000" None None updatedAt) ;;;
         ret tt
     | Some _ => ret tt
     end ;;;
     adminUser <- findOne Users
                    (fun u => String.eqb (User.username u) "admin") ;;
     match adminUser with
     | None =>
         hashedPassword <- bcrypt_hash bcrypt "admin1234" 10 ;;
         createdAt <- new_Date ;;
         oid <- generate_ObjectId ;;
         save_new Users
           (User.make oid "admin" hashedPassword "10000.00" "1.00000000"
                      true false createdAt) ;;;
         ret tt
     | Some _ => ret tt
     end)
    (fun e => console_error "Failed to initialize default data:" e).

Definition init : M unit :=
  try_catch
    (c <- connectToMongoDB ;;
     set_isConnected c ;;;
     if c then initializeDefaultData else ret tt)
    (fun e =>
       console_error "MongoStorage initialization failed:" e ;;;
       set_isConnected false).

End Init.

End Startup.

(* ================================================================== *)
(** * BettingPanel *)
(* ================================================================== *)

Module BettingPanel.

Import JS.

Definition BET_AMOUNTS : list number :=
  [0.25; 0.50; 1.00; 1.50; 2.00; 5.00; 10.00; 50.00; 100.00; 500.00;
   1000.00]%float.

(** The [variant] of the button of an amount. *)
Definition variant (selectedBet amount : number) : string :=
  if (selectedBet =? amount)%float then "default" else "outline".

(** The buttons of the panel: the label and the variant of each. *)
Definition buttons (selectedBet : number) : list (string * string) :=
  map (fun amount => (toString amount, variant selectedBet amount))
      BET_AMOUNTS.

(** The text after "Selected Bet:". *)
Definition selectedText (selectedBet : number) : string :=
  toFixed selectedBet 2.

End BettingPanel.

(* ================================================================== *)
(** * Notions used to state what the code does *)
(* ================================================================== *)

Module Behaviour.

Import JS MongoStorage.

(** Dates from the latest to the earliest. *)
Definition latest_first (dates : list Date) : Prop :=
  StronglySorted (fun a b => (b <= a)%Z) dates.

(** No document of the collection has the identifier that a numeric id
    gives; this is also the case when the id gives no identifier at all. *)
Definition unknown {D : Type} (C : Collection D) (id : number)
  (d : Database) : Prop :=
  forall oid, ObjectId.from_string (id_string id) = Some oid ->
              List.find (has_id C oid) (docs C d) = None.

(** The id gives an identifier, and no document of the collection has it. *)
Definition absent {D : Type} (C : Collection D) (id : number)
  (d : Database) : Prop :=
  exists oid, ObjectId.from_string (id_string id) = Some oid /\
              List.find (has_id C oid) (docs C d) = None.

(** The collections a method has a write for in its body, in the order
    users, deposits, withdrawals, games, jackpots, farm cats. *)
Record footprint : Type := mkFootprint {
  on_users : bool;
  on_deposits : bool;
  on_withdrawals : bool;
  on_games : bool;
  on_jackpots : bool;
  on_farmCats : bool
}.

Definition writes {A : Type} (c : call A) : footprint :=
  match c with
  | CreateUser _ | UpdateUserBalance _ _ _ | BanUser _ _ =>
      mkFootprint true false false false false false
  | CreateDeposit _ => mkFootprint false true false false false false
  | UpdateDepositStatus _ _ =>
      mkFootprint true true false false false false
  | CreateWithdrawal _ | UpdateWithdrawalStatus _ _ =>
      mkFootprint false false true false false false
  | CreateGameHistory _ => mkFootprint false false false true true false
  | GetJackpot | UpdateJackpot _ _ =>
      mkFootprint false false false false true false
  | CreateFarmCat _ | UpgradeFarmCat _ _ _ | ClaimFarmRewards _ =>
      mkFootprint false false false false false true
  | GetUser _ | GetUserByUsername _ | GetDeposits | GetWithdrawal _
  | GetWithdrawals | GetUserWithdrawals _ | GetGameHistory _ | GetAllUsers
  | GetFarmData _ | GetFarmCat _ =>
      mkFootprint false false false false false false
  end.

End Behaviour.

(* ================================================================== *)
(** * More sample data *)
(* ================================================================== *)

Module Scenario.

Import JS MongoStorage.
Local Open Scope Z_scope.

Definition game_bob : GameHistory.t :=
  GameHistory.make Sample.oid_1 Sample.oid_7 "dice" "2.50" "0.00"
                   "0.00000000" None 20.
Definition game_alice : GameHistory.t :=
  GameHistory.make Sample.oid_2 Sample.oid_a "mines" "1.00" "2.00"
                   "0.00000000" None 21.

(** The sample storage after two games. *)
Definition played : World :=
  with_db (put_docs Games [game_bob; game_alice]) Sample.world.

(** A connected storage over an empty database. *)
Definition empty : World :=
  with_db (fun _ => mkDatabase [] [] [] [] [] []) Sample.world.

(** A user under an identifier of the shape the driver generates, and a
    storage that holds alice and this user. *)
Definition dave : User.t :=
  User.make Sample.oid_j "dave" "$2b$10$dave" "0.00" "0.00000000" false
            false 30.

Definition registered : World :=
  with_db (put_docs Users [Sample.alice; dave]) Sample.world.

End Scenario.

(* ================================================================== *)
(** * The music manager after its operations *)
(* ================================================================== *)

Module Music.

Import JS BackgroundMusicManager.

(** The manager after a sequence of operations on a new one. Operations
    run one after the other. *)
Definition after (fuel : nat) (playable : nat -> bool)
  (fetch : string -> option bool) (operations : list operation) : t :=
  fold_left (step fuel) operations (created playable fetch).

(** The file names [detectAvailableTracks] asks for, in its order. *)
Definition candidates : list string :=
  "bgm.mp3" :: map numbered (seq 1 10).

Definition is_setEnabled (o : operation) : bool :=
  match o with
  | SetEnabled _ => true
  | _ => false
  end.

(** What the audio element and the manager say of the current track: the
    name is the track at the current index and the element's source is its
    path; without an element there is no track and no name. *)
Definition tracks_consistent (m : t) : Prop :=
  match audio m with
  | Some a =>
      nth_error (availableTracks m) (currentTrackIndex m) =
      Some (getCurrentTrackName m) /\
      src a = "/sounds/" ++ getCurrentTrackName m
  | None =>
      getAvailableTracksCount m = 0%nat /\ getCurrentTrackName m = ""
  end.

(** Whether the fetch of a track's file is answered with [ok]. *)
Definition answers_ok (fetch : string -> option bool) (name : string)
  : bool :=
  match fetch ("/sounds/" ++ name) with
  | Some true => true
  | _ => false
  end.

(** What holds of the fields between operations. *)
Definition tracks_invariant (m : t) : Prop :=
  match audio m with
  | Some a =>
      availableTracks m = filter (answers_ok (fetch m)) candidates /\
      nth_error (availableTracks m) (currentTrackIndex m) =
      Some (currentTrackName m) /\
      src a = "/sounds/" ++ currentTrackName m
  | None =>
      availableTracks m = [] /\ currentTrackName m = "" /\
      currentTrackIndex m = 0%nat
  end.

End Music.

Module Panel.

Import JS BettingPanel.

(** The number of buttons shown with the variant [default]. *)
Definition highlighted (selectedBet : number) : nat :=
  List.length
    (filter (fun b => String.eqb (snd b) "default") (buttons selectedBet)).

End Panel.

(* ================================================================== *)
(** * Decimal numerals *)
(* ================================================================== *)

Module Numerals.

Import JS.

(** A decimal digit, and its value. *)
Definition is_digit (c : ascii) : bool :=
  ((48 <=? code c) && (code c <=? 57))%N.

Definition digit (c : ascii) : N := (code c - 48)%N.

(** The number a string of decimal digits writes, continuing from [acc]. *)
Definition numeral_value (l : chars) (acc : N) : N :=
  fold_left (fun v c => (10 * v + digit c)%N) l acc.

(** The numeric ids the storage is called with: the integers from 0 to
    999999999999999. *)
Definition id_bound : N := (10 ^ 15)%N.

End Numerals.

Module Counter.

Import JS MongoStorage.
Local Open Scope Z_scope.

(** An identifier written with decimal digits, and a storage whose driver
    generates it next. *)
Definition oid_656565 : ObjectId.t :=
  ObjectId.make "000000000000000000656565" eq_refl.

Definition world : World :=
  mkWorld true Sample.database [] (fun _ => false)
          (fun n => 1000 + Z.of_nat n) (fun _ => oid_656565)
          (fun _ => "salt").

End Counter.

(* ================================================================== *)
(** * Proofs *)
(* ================================================================== *)

(* ---- generic list lemmas ---- *)
Section Lists.
Context {D : Type}.
Implicit Types (p q : D -> bool) (upd : D -> D) (l : list D).

Lemma find_update_first_same p upd l :
  (forall d, p d = true -> p (upd d) = true) ->
  List.find p (update_first p upd l) = option_map upd (List.find p l).
Proof.
  intros Hp; induction l as [|d r IH]; simpl; [reflexivity|].
  destruct (p d) eqn:E; simpl.
  - rewrite (Hp d E); reflexivity.
  - rewrite E; exact IH.
Qed.

Lemma find_update_first_other p q upd l :
  (forall d, p d = true -> q d = false /\ q (upd d) = false) ->
  List.find q (update_first p upd l) = List.find q l.
Proof.
  intros Hpq; induction l as [|d r IH]; simpl; [reflexivity|].
  destruct (p d) eqn:E; simpl.
  - destruct (Hpq d E) as [-> ->]; reflexivity.
  - destruct (q d); [reflexivity | exact IH].
Qed.

Lemma Forall2_diag (R : D -> D -> Prop) l :
  (forall d, R d d) -> Forall2 R l l.
Proof. intros Hr; induction l; constructor; auto. Qed.

Lemma update_first_Forall2 (R : D -> D -> Prop) p upd l :
  (forall d, R d d) -> (forall d, p d = true -> R d (upd d)) ->
  Forall2 R l (update_first p upd l).
Proof.
  intros Hr Hu; induction l as [|d r IH]; simpl; [constructor|].
  destruct (p d) eqn:E.
  - constructor; [apply Hu, E | apply Forall2_diag, Hr].
  - constructor; auto.
Qed.

Lemma update_all_Forall2 (R : D -> D -> Prop) p upd l :
  (forall d, p d = false -> R d d) -> (forall d, p d = true -> R d (upd d)) ->
  Forall2 R l (update_all p upd l).
Proof.
  intros Hr Hu; induction l as [|d r IH]; simpl; constructor; auto.
  destruct (p d) eqn:E; auto.
Qed.
End Lists.

Lemma ObjectId_hex_inj (a b : ObjectId.t) :
  ObjectId.hex a = ObjectId.hex b -> a = b.
Proof.
  destruct a as [ha wa], b as [hb wb]; simpl; intros <-.
  f_equal. apply UIP_dec, bool_dec.
Qed.

Lemma ObjectId_eqb_eq (a b : ObjectId.t) : ObjectId.eqb a b = true <-> a = b.
Proof.
  unfold ObjectId.eqb; split.
  - intros H; apply ObjectId_hex_inj, String.eqb_eq, H.
  - intros ->; apply String.eqb_refl.
Qed.

Lemma ObjectId_eqb_neq (a b : ObjectId.t) : a <> b -> ObjectId.eqb a b = false.
Proof.
  intros H; destruct (ObjectId.eqb a b) eqn:E; [|reflexivity].
  apply ObjectId_eqb_eq in E; contradiction.
Qed.

Import JS MongoStorage Spec.

(** Unfolding the computations of the storage. *)
Ltac unfold_M :=
  unfold findOneAndUpdate, findOne, find, save_new, save_changes, updateMany,
    ObjectId_of_number, new_ObjectId, store_op, read_db, modify_db,
    console_error, new_Date, generate_ObjectId, connected,
    try_catch, bind, ret, throw in *.





(** C6: banUser does not reach the user it is given. The storage returns
    alice (identifier 00000000000000000000000a) with the id 10 and dave
    (identifier 65f1c2a4b3d4e5f600a1b2c3) with the id 10597059: base 16 of
    the last six characters. banUser reads the id in base 10:
    banUser(10, true) looks up 000000000000000000000010 and
    banUser(10597059, true) looks up 000000000000000010597059. Both return
    normally, report nothing, and leave alice and dave not banned. *)
Lemma banUser_misses_the_user_of_the_id :
  map (fun u => (User.username u, UserOut.id (convertMongoUser u)))
      (users (db Scenario.registered)) =
  [("alice", 10%float); ("dave", 10597059%float)] /\
  banUser 10%float true Scenario.registered =
  (Returns tt, next_fault Scenario.registered) /\
  banUser 10597059%float true Scenario.registered =
  (Returns tt, next_fault Scenario.registered) /\
  map (fun u => (User.username u, User.isBanned u))
      (users (db (next_fault Scenario.registered))) =
  [("alice", false); ("dave", false)].
Proof. repeat split; vm_compute; reflexivity. Qed.

(* ---------------- claimFarmRewards ---------------- *)

Lemma claimFarmRewards_run w userId owner :
  isConnected w = true -> fault w 0%nat = false ->
  ObjectId.from_string (id_string userId) = Some owner ->
  claimFarmRewards userId w =
  (Returns tt,
   with_db (put_docs FarmCats
              (update_all (owned_by owner) (set_lastClaimed (clock w 0%nat))
                          (farmCats (db w))))
           (next_fault (next_clock w))).
Proof.
  intros Hc Hf Ho. unfold claimFarmRewards. unfold_M.
  rewrite Hc, Ho; simpl. rewrite Hf; reflexivity.
Qed.

Lemma claimFarmRewards_cases w userId :
  db (snd (claimFarmRewards userId w)) = db w \/
  exists owner,
    ObjectId.from_string (id_string userId) = Some owner /\
    db (snd (claimFarmRewards userId w)) =
    put_docs FarmCats
      (update_all (owned_by owner) (set_lastClaimed (clock w 0%nat))
                  (farmCats (db w)))
      (db w).
Proof.
  unfold claimFarmRewards. unfold_M.
  destruct (isConnected w); [|left; reflexivity].
  destruct (ObjectId.from_string (id_string userId)) as [owner|];
    [|left; reflexivity].
  simpl. destruct (fault w 0%nat); [left; reflexivity|].
  right. exists owner. split; reflexivity.
Qed.

(** C9: on a connected storage whose store answers, claimFarmRewards sets
    lastClaimed of every farm cat of the user to the time read at the call;
    and in every case it keeps the other fields of every cat (the stamp is
    that time or the old one), keeps the cats of other users, and keeps the
    other collections. *)
Theorem claimFarmRewards_stamps_only_the_owner_cats w userId :
  let now := clock w 0%nat in
  let w' := snd (claimFarmRewards userId w) in
  let addressed := ObjectId.from_string (id_string userId) in
  (isConnected w = true -> fault w 0%nat = false ->
   Forall2 (fun c c' => addressed = Some (FarmCat.userId c) ->
                        FarmCat.lastClaimed c' = now)
           (farmCats (db w)) (farmCats (db w'))) /\
  Forall2 (fun c c' =>
             FarmCat._id c' = FarmCat._id c /\
             FarmCat.userId c' = FarmCat.userId c /\
             FarmCat.catId c' = FarmCat.catId c /\
             FarmCat.level c' = FarmCat.level c /\
             FarmCat.production c' = FarmCat.production c /\
             FarmCat.createdAt c' = FarmCat.createdAt c /\
             (FarmCat.lastClaimed c' = FarmCat.lastClaimed c \/
              FarmCat.lastClaimed c' = now) /\
             (addressed <> Some (FarmCat.userId c) -> c' = c))
          (farmCats (db w)) (farmCats (db w')) /\
  users (db w') = users (db w) /\
  deposits (db w') = deposits (db w) /\
  withdrawals (db w') = withdrawals (db w) /\
  games (db w') = games (db w) /\
  jackpots (db w') = jackpots (db w).
Proof.
  intros now w' addressed. subst now w' addressed. split.
  { intros Hc Hf.
    destruct (ObjectId.from_string (id_string userId)) as [owner|] eqn:Ho.
    - rewrite claimFarmRewards_run with (owner := owner) by assumption.
      simpl. apply update_all_Forall2; intros c Hc'; unfold owned_by in Hc'.
      + intros Hs. injection Hs as Hs. symmetry in Hs.
        apply ObjectId_eqb_eq in Hs. congruence.
      + intros _. reflexivity.
    - destruct (claimFarmRewards_cases w userId) as [E | (owner & Ho' & _)];
        [|congruence].
      rewrite E. apply Forall2_diag. intros c Hs. discriminate Hs. }
  destruct (claimFarmRewards_cases w userId) as [E | (owner & Ho & E)];
    rewrite E; clear E.
  - split; [|repeat split].
    apply Forall2_diag. intros c. repeat split. left; reflexivity.
  - rewrite Ho. simpl. split; [|repeat split].
    apply update_all_Forall2; intros c Hc; unfold owned_by in Hc; simpl.
    + repeat split. left; reflexivity.
    + apply ObjectId_eqb_eq in Hc. repeat split.
      * right; reflexivity.
      * intros Hne. congruence.
Qed.

Lemma claimFarmRewards_sample :
  Forall2 (fun c c' =>
             Some Sample.oid_7 = Some (FarmCat.userId c) ->
             FarmCat.lastClaimed c' = 1000%Z)
          (farmCats (db Sample.world))
          (farmCats (db (snd (claimFarmRewards 7%float Sample.world)))).
Proof.
  destruct (claimFarmRewards_stamps_only_the_owner_cats Sample.world 7%float)
    as [H _].
  apply (H eq_refl eq_refl).
Defined.

(* ---------------- getFarmData ---------------- *)

Lemma fold_left_map_add (cats : list FarmCat.t) (acc : number) :
  fold_left (fun sum cat => (sum + FarmCat.production cat)%float) cats acc =
  fold_left PrimFloat.add (map FarmCat.production cats) acc.
Proof.
  revert acc; induction cats as [|c r IH]; intros acc; simpl;
    [reflexivity | apply IH].
Qed.

(** C7: on a connected storage whose store answers, getFarmData returns as
    totalProduction the sum of the production values of exactly the farm cats
    whose owner reference is the user's identifier, 0 when there are none. *)
Theorem getFarmData_totalProduction w userId owner :
  isConnected w = true -> fault w 0%nat = false ->
  ObjectId.from_string (id_string userId) = Some owner ->
  let owned := filter (owned_by owner) (farmCats (db w)) in
  exists data w',
    getFarmData userId w = (Returns data, w') /\
    FarmData.totalProduction data = Spec.sum (map FarmCat.production owned) /\
    FarmData.cats data = map convertFarmCat owned /\
    (forall cat, In cat owned <->
                 In cat (farmCats (db w)) /\ FarmCat.userId cat = owner) /\
    (owned = [] -> FarmData.totalProduction data = 0%float).
Proof.
  intros Hc Hf Ho owned.
  eexists; eexists; split.
  - unfold getFarmData. unfold_M. rewrite Hc, Ho; simpl. rewrite Hf.
    reflexivity.
  - simpl. fold owned. rewrite fold_left_map_add.
    split; [reflexivity|]. split; [reflexivity|]. split.
    + intros cat. unfold owned. rewrite filter_In. unfold owned_by.
      rewrite ObjectId_eqb_eq. reflexivity.
    + intros ->. reflexivity.
Qed.

Lemma getFarmData_witness :
  exists data w',
    getFarmData 7%float Sample.world = (Returns data, w') /\
    FarmData.totalProduction data = 0.75%float.
Proof.
  destruct (@getFarmData_totalProduction Sample.world 7%float Sample.oid_7
              eq_refl eq_refl eq_refl) as (data & w' & Hrun & Hsum & _).
  exists data, w'. split; [exact Hrun|]. rewrite Hsum. reflexivity.
Defined.

(* ---------------- createGameHistory ---------------- *)

Lemma loss_test (x : option string) :
  (parseFloat (or_else x "0") =? 0)%float =
  (parseFloat (or_else x "0.00") =? 0)%float.
Proof.
  destruct x as [[|c s]|]; reflexivity.
Qed.

Ltac case_run H :=
  repeat (simpl in H;
          match type of H with
          | context [match ?x with _ => _ end] =>
              lazymatch x with
              | context [match _ with _ => _ end] => fail
              | _ => destruct x eqn:?
              end
          end);
  simpl in H; try discriminate H.

Lemma findOne_any {D : Type} (l : list D) :
  List.find (fun _ => true) l = hd_error l.
Proof. destruct l; reflexivity. Qed.

Lemma ObjectId_eqb_refl (o : ObjectId.t) : ObjectId.eqb o o = true.
Proof. apply ObjectId_eqb_eq; reflexivity. Qed.

Ltac case_goal :=
  repeat (simpl;
          match goal with
          | |- context [match ?x with _ => _ end] =>
              lazymatch x with
              | context [match _ with _ => _ end] => fail
              | _ => destruct x eqn:?
              end
          end);
  simpl.

(** C1: when createGameHistory returns a record whose winAmount parses to 0,
    the jackpot amount afterwards is the amount before plus the bet times
    0.01, written with eight decimals; when the winAmount does not parse to
    0, the jackpot amount is what it was. A storage without a jackpot
    document has no amount before and none after. *)
Theorem createGameHistory_jackpot game w r w' :
  createGameHistory game w = (Returns r, w') ->
  let bet := parseFloat (GameHistoryOut.betAmount r) in
  ((parseFloat (GameHistoryOut.winAmount r) =? 0)%float = true ->
   jackpotAmount (db w') =
   option_map (fun amount => toFixed (parseFloat amount + bet * 0.01)%float 8)
              (jackpotAmount (db w))) /\
  ((parseFloat (GameHistoryOut.winAmount r) =? 0)%float = false ->
   jackpotAmount (db w') = jackpotAmount (db w)).
Proof.
  intros H bet. subst bet.
  unfold createGameHistory in H. unfold_M.
  rewrite loss_test in H.
  case_run H.
  all: injection H as <- <-; simpl.
  all: unfold jackpotAmount; simpl.
  all: try (split; intros Hz; try congruence; reflexivity).
  - rewrite findOne_any in *.
    destruct (jackpots (db w)) as [|j rest]; [discriminate|].
    simpl in *. injection Heqo0 as ->.
    unfold has_id; simpl. rewrite ObjectId_eqb_refl. simpl.
    split; intros Hz; [reflexivity | congruence].
  - rewrite findOne_any in *.
    destruct (jackpots (db w)) as [|j rest]; [|discriminate].
    split; intros; reflexivity.
Qed.

(** X3: on a connected storage whose store answers, createGameHistory
    returns the record of the game when the userId argument gives an
    identifier and the generated identifier is not in use. *)
Theorem createGameHistory_returns game w owner :
  isConnected w = true -> healthy w ->
  ObjectId.from_string (id_string (InsertGame.userId game)) = Some owner ->
  existsb (has_id Games (fresh w 0%nat)) (games (db w)) = false ->
  exists r w', createGameHistory game w = (Returns r, w') /\
               GameHistoryOut.betAmount r = InsertGame.betAmount game /\
               GameHistoryOut.winAmount r =
               or_else (InsertGame.winAmount game) "0.00".
Proof.
  intros Hc Hh Ho Hd.
  unfold createGameHistory. unfold_M. rewrite Hc, Ho.
  case_goal.
  all: unfold behead in *; rewrite ?Hh in *; try discriminate.
  all: try congruence.
  all: eexists; eexists; repeat split.
Qed.

Lemma createGameHistory_returns_sample :
  exists r w',
    createGameHistory Sample.lost_game Sample.world = (Returns r, w') /\
    GameHistoryOut.winAmount r = "0.00".
Proof.
  destruct (@createGameHistory_returns Sample.lost_game Sample.world
              Sample.oid_7 eq_refl (fun _ => eq_refl) eq_refl eq_refl)
    as (r & w' & Hrun & _ & Hwin).
  exists r, w'. split; [exact Hrun | exact Hwin].
Defined.

Lemma createGameHistory_witness :
  jackpotAmount (db (snd (createGameHistory Sample.lost_game Sample.world))) =
  Some "0.12500000" /\
  jackpotAmount (db (snd (createGameHistory Sample.won_game Sample.world))) =
  Some "0.10000000".
Proof.
  split.
  - destruct (createGameHistory Sample.lost_game Sample.world) as [o w'] eqn:E.
    assert (exists r, o = Returns r) as [r ->]
      by (vm_compute in E; injection E as <- _; eexists; reflexivity).
    destruct (createGameHistory_jackpot _ _ E) as [Hloss _].
    simpl. rewrite Hloss.
    + vm_compute in E. injection E as <- _. reflexivity.
    + vm_compute in E. injection E as <- _. reflexivity.
  - destruct (createGameHistory Sample.won_game Sample.world) as [o w'] eqn:E.
    assert (exists r, o = Returns r) as [r ->]
      by (vm_compute in E; injection E as <- _; eexists; reflexivity).
    destruct (createGameHistory_jackpot _ _ E) as [_ Hwin].
    simpl. rewrite Hwin.
    + reflexivity.
    + vm_compute in E. injection E as <- _. reflexivity.
Defined.

(* ---------------- updateDepositStatus ---------------- *)

Lemma updateDepositStatus_not_approved w id status :
  status <> "approved" ->
  users (db (snd (updateDepositStatus id status w))) = users (db w).
Proof.
  intros Hs. apply String.eqb_neq in Hs.
  unfold updateDepositStatus. unfold_M. rewrite Hs.
  case_goal; reflexivity.
Qed.

Lemma updateDepositStatus_approved w id oid d owner :
  isConnected w = true -> healthy w ->
  ObjectId.from_string (id_string id) = Some oid ->
  List.find (has_id Deposits oid) (deposits (db w)) = Some d ->
  List.find (has_id Users (Deposit.userId d)) (users (db w)) = Some owner ->
  decimal_reference (Deposit.userId d) ->
  users (db (snd (updateDepositStatus id "approved" w))) =
  update_first (has_id Users (Deposit.userId d))
    (set_balances (toFixed (parseFloat (User.balance owner)
                            + parseFloat (Deposit.amount d))%float 2) None)
    (users (db w)).
Proof.
  intros Hc Hh Ho Hd Hu Hr. unfold decimal_reference in Hr.
  unfold updateDepositStatus, updateUserBalance. unfold_M.
  repeat first [ rewrite Hc | rewrite Ho | rewrite Hd | rewrite Hu
               | rewrite Hr | rewrite Hh | progress simpl
               | progress unfold behead ].
  reflexivity.
Qed.

(** X1: approval credits the owner when the owner reference is decimal: on a
    connected storage whose store answers, approving a deposit whose owner
    reference reads back as a decimal number sets the owner's balance to the
    old balance plus the deposit's amount, written with two decimals, and
    changes no other user; any other status changes no user at all. *)
Theorem updateDepositStatus_credits_decimal_owner w id status oid d owner :
  isConnected w = true -> healthy w ->
  ObjectId.from_string (id_string id) = Some oid ->
  List.find (has_id Deposits oid) (deposits (db w)) = Some d ->
  List.find (has_id Users (Deposit.userId d)) (users (db w)) = Some owner ->
  let w' := snd (updateDepositStatus id status w) in
  (status = "approved" -> decimal_reference (Deposit.userId d) ->
   List.find (has_id Users (Deposit.userId d)) (users (db w')) =
   Some (set_balances (toFixed (parseFloat (User.balance owner)
                                + parseFloat (Deposit.amount d))%float 2)
                      None owner) /\
   forall other, other <> Deposit.userId d ->
     List.find (has_id Users other) (users (db w')) =
     List.find (has_id Users other) (users (db w))) /\
  (status <> "approved" -> users (db w') = users (db w)).
Proof.
  intros Hc Hh Ho Hd Hu w'. subst w'. split.
  - intros -> Hr.
    rewrite updateDepositStatus_approved
      with (oid := oid) (d := d) (owner := owner) by assumption.
    split.
    + rewrite find_update_first_same by (intros u Hi; exact Hi).
      rewrite Hu. reflexivity.
    + intros other Hne. apply find_update_first_other.
      intros u Hi. unfold has_id in *; simpl in *.
      apply ObjectId_eqb_eq in Hi. rewrite Hi.
      split; apply ObjectId_eqb_neq; congruence.
  - intros Hs. apply updateDepositStatus_not_approved, Hs.
Qed.

Lemma updateDepositStatus_witness :
  option_map User.balance
    (List.find (has_id Users (Deposit.userId Sample.deposit_bob))
       (users (db (snd (updateDepositStatus 2%float "approved"
                                            Sample.world))))) =
  Some "8.10".
Proof.
  destruct (@updateDepositStatus_credits_decimal_owner Sample.world 2%float
              "approved" Sample.oid_2 Sample.deposit_bob Sample.bob
              eq_refl (fun _ => eq_refl) eq_refl eq_refl eq_refl) as [H _].
  destruct (H eq_refl eq_refl) as [Hb _].
  rewrite Hb. reflexivity.
Defined.

(** The sentence on approval does not hold of every deposit. *)
Lemma updateDepositStatus_misses_hex_owner : ~ approval_credits_owner.
Proof.
  intros H.
  destruct (H Sample.world 1%float "approved" Sample.oid_1
              Sample.deposit_alice Sample.alice
              eq_refl (fun _ => eq_refl) eq_refl eq_refl eq_refl) as [Ha _].
  specialize (Ha eq_refl). vm_compute in Ha. discriminate Ha.
Qed.

(** C2: approval is meant to credit the owning user, the one
    [User.findById(deposit.userId)] reads the balance from, but the new
    balance is written to the user addressed by the decimal reading of the
    owner reference. The sample deposit of 5.00 is owned by alice (identifier
    00000000000000000000000a, balance 10.00): approving it leaves alice at
    10.00 and writes 15.00 to zed (identifier 000000000000000000000000). *)
Lemma updateDepositStatus_credits_another_user :
  List.find (has_id Deposits Sample.oid_1) (deposits (db Sample.world)) =
  Some Sample.deposit_alice /\
  List.find (has_id Users (Deposit.userId Sample.deposit_alice))
            (users (db Sample.world)) = Some Sample.alice /\
  map (fun u => (User.username u, User.balance u))
      (users (db (snd (updateDepositStatus 1%float "approved" Sample.world))))
  = [("alice", "10.00"); ("zed", "15.00"); ("bob", "3.10")].
Proof. repeat split. Qed.

(* ---------------- createUser ---------------- *)

(** C4: createUser returns on a connected storage whose store accepts the
    insert, and whenever it returns, the user's password is the bcrypt hash
    (10 rounds) of the supplied password, so it is not the plaintext unless
    bcrypt returns its input, the balance is 1000.00, the meowBalance is
    0.00000000, and isAdmin and isBanned are false, whatever balance and flag
    fields the input carries. *)
Theorem createUser_hashes_and_defaults bcrypt insertUser w :
  (isConnected w = true -> fault w 0%nat = false ->
   existsb (has_id Users (fresh w 0%nat)) (users (db w)) = false ->
   exists u w', createUser bcrypt insertUser w = (Returns u, w')) /\
  (forall u w',
     createUser bcrypt insertUser w = (Returns u, w') ->
     let plaintext := InsertUser.password insertUser in
     let hashed := bcrypt (salt w 0%nat) plaintext 10%N in
     UserOut.password u = hashed /\
     (hashed <> plaintext -> UserOut.password u <> plaintext) /\
     UserOut.username u = InsertUser.username insertUser /\
     UserOut.balance u = "1000.00" /\
     UserOut.meowBalance u = "0.00000000" /\
     UserOut.isAdmin u = false /\
     UserOut.isBanned u = false /\
     exists stored,
       In stored (users (db w')) /\
       User._id stored = fresh w 0%nat /\
       convertMongoUser stored = u).
Proof.
  split.
  - intros Hc Hf Hd. unfold createUser, bcrypt_hash. unfold_M.
    rewrite Hc. case_goal; try congruence.
    eexists; eexists; reflexivity.
  - intros u w' H plaintext hashed. subst plaintext hashed.
    unfold createUser, bcrypt_hash in H. unfold_M.
    case_run H. injection H as <- <-. simpl.
    repeat split; try (intros Hne; exact Hne).
    eexists. split; [apply in_or_app; right; left; reflexivity|].
    split; reflexivity.
Qed.

Lemma createUser_sample :
  exists u w',
    createUser Sample.toy_bcrypt Sample.carol Sample.world = (Returns u, w') /\
    UserOut.password u = "$2b$salt$hunter2" /\
    UserOut.balance u = "1000.00" /\ UserOut.isAdmin u = false.
Proof.
  destruct (createUser_hashes_and_defaults Sample.toy_bcrypt Sample.carol
              Sample.world) as [Hret Hfields].
  destruct (Hret eq_refl eq_refl eq_refl) as (u & w' & Hrun).
  destruct (Hfields u w' Hrun) as (Hp & _ & _ & Hb & _ & Ha & _).
  exists u, w'. repeat split; assumption.
Defined.

(* ---------------- error handling ---------------- *)

Ltac unfold_methods :=
  unfold run, getUser, getUserByUsername, createUser, updateUserBalance,
    createDeposit, getDeposits, updateDepositStatus, createWithdrawal,
    getWithdrawal, getWithdrawals, getUserWithdrawals, updateWithdrawalStatus,
    createGameHistory, getGameHistory, getJackpot, defaultJackpot,
    updateJackpot, upsertJackpot, getAllUsers, banUser, getFarmData,
    createFarmCat, getFarmCat, upgradeFarmCat, claimFarmRewards, bcrypt_hash,
    updateUserBalance in *.

(** C3, as amended: every method other than createUser, createDeposit,
    createWithdrawal and createGameHistory always returns; when the storage is
    not connected or its first store operation is rejected it returns its
    empty value and the database is unchanged. The four create methods throw
    in that case, and leave the database unchanged. *)
Theorem failures_are_contained_outside_create bcrypt A (c : call A) w :
  (rethrows c = false ->
   (exists a w', run bcrypt c w = (Returns a, w')) /\
   (isConnected w = false \/ fault w 0%nat = true ->
    exists a w', run bcrypt c w = (Returns a, w') /\
                 empty_result c a /\ db w' = db w)) /\
  (rethrows c = true ->
   isConnected w = false \/ fault w 0%nat = true ->
   exists e w', run bcrypt c w = (Throws e, w') /\ db w' = db w).
Proof.
  destruct c; simpl; (split; [intros Hr; try discriminate Hr; split
                             |intros Hr Hf; try discriminate Hr]).
  all: try intros Hf.
  all: unfold_methods; unfold_M.
  all: case_goal.
  all: try (destruct Hf as [Hf|Hf];
            [rewrite Hf in *; simpl in *|]; congruence).
  all: try (eexists; eexists; reflexivity).
  all: eexists; eexists; split; [reflexivity|]; simpl; auto.
Qed.

(** C3, as stated, fails: createUser on a store that rejects the insert
    throws. *)
Lemma createUser_propagates_failure : ~ never_propagates.
Proof.
  intros H.
  destruct (H Sample.toy_bcrypt _ (CreateUser Sample.carol)
              Sample.failing_world) as (a & w' & Hrun).
  vm_compute in Hrun. discriminate Hrun.
Qed.

Lemma failures_are_contained_sample :
  exists w',
    run Sample.toy_bcrypt GetDeposits Sample.failing_world = (Returns [], w')
    /\ db w' = Sample.database.
Proof.
  destruct (failures_are_contained_outside_create Sample.toy_bcrypt
              GetDeposits Sample.failing_world) as [H _].
  destruct (H eq_refl) as [_ Hd].
  destruct (Hd (or_intror eq_refl)) as (a & w' & Hrun & Ha & Hdb).
  simpl in Ha. subst a. exists w'. split; assumption.
Defined.

(* ---------------- the status enum ---------------- *)

Lemma Forall_update_first {D : Type} (P : D -> Prop) p upd (l : list D) :
  (forall d, P (upd d)) -> Forall P l -> Forall P (update_first p upd l).
Proof.
  intros Hu H; induction H as [|d r Hd Hr IH]; simpl; [constructor|].
  destruct (p d); constructor; auto.
Qed.

Lemma Forall_snoc {D : Type} (P : D -> Prop) (l : list D) (x : D) :
  Forall P l -> P x -> Forall P (l ++ [x]).
Proof.
  intros Hl Hx. apply Forall_app; split; [exact Hl | constructor; auto].
Qed.

Lemma statuses_preserved bcrypt A (c : call A) w :
  status_argument_in_enum c = true ->
  statuses_in_enum (db w) ->
  statuses_in_enum (db (snd (run bcrypt c w))).
Proof.
  intros Ha [Hd Hw].
  destruct c; simpl in Ha.
  all: unfold_methods; unfold_M.
  all: case_goal.
  all: unfold statuses_in_enum; simpl; split; auto.
  all: try (apply Forall_update_first; [intros; exact Ha | assumption]).
  all: try (apply Forall_snoc; [assumption | reflexivity]).
Qed.

(** C5, as amended: createDeposit and createWithdrawal store and return the
    status pending; updateDepositStatus and updateWithdrawalStatus leave each
    status as it was or set it to their argument; and every call whose status
    argument is one of pending, approved, rejected keeps all statuses in the
    enum. *)
Theorem statuses_stay_in_enum w :
  (forall deposit r w',
     createDeposit deposit w = (Returns r, w') ->
     DepositOut.status r = "pending" /\
     exists x, deposits (db w') = (deposits (db w) ++ [x])%list /\
               Deposit.status x = "pending") /\
  (forall withdrawal r w',
     createWithdrawal withdrawal w = (Returns r, w') ->
     WithdrawalOut.status r = "pending" /\
     exists x, withdrawals (db w') = (withdrawals (db w) ++ [x])%list /\
               Withdrawal.status x = "pending") /\
  (forall id status,
     Forall2 (fun x x' => Deposit.status x' = Deposit.status x \/
                          Deposit.status x' = status)
             (deposits (db w))
             (deposits (db (snd (updateDepositStatus id status w))))) /\
  (forall id status,
     Forall2 (fun x x' => Withdrawal.status x' = Withdrawal.status x \/
                          Withdrawal.status x' = status)
             (withdrawals (db w))
             (withdrawals (db (snd (updateWithdrawalStatus id status w))))) /\
  (forall bcrypt A (c : call A),
     status_argument_in_enum c = true ->
     statuses_in_enum (db w) ->
     statuses_in_enum (db (snd (run bcrypt c w)))).
Proof.
  split; [|split; [|split; [|split]]].
  - intros deposit r w' H. unfold createDeposit in H. unfold_M.
    case_run H. injection H as <- <-. simpl.
    split; [reflexivity|]. eexists; split; reflexivity.
  - intros withdrawal r w' H. unfold createWithdrawal in H. unfold_M.
    case_run H. injection H as <- <-. simpl.
    split; [reflexivity|]. eexists; split; reflexivity.
  - intros id status. unfold updateDepositStatus, updateUserBalance.
    unfold_M. case_goal.
    all: try (apply update_first_Forall2; intros; simpl; auto).
    all: apply Forall2_diag; intros; auto.
  - intros id status. unfold updateWithdrawalStatus. unfold_M. case_goal.
    all: try (apply update_first_Forall2; intros; simpl; auto).
    all: apply Forall2_diag; intros; auto.
  - intros bcrypt A c. apply statuses_preserved.
Qed.

Lemma statuses_stay_in_enum_sample :
  statuses_in_enum
    (db (snd (updateWithdrawalStatus 1%float "rejected" Sample.world))).
Proof.
  destruct (statuses_stay_in_enum Sample.world) as (_ & _ & _ & _ & H).
  apply (H Sample.toy_bcrypt unit (UpdateWithdrawalStatus 1%float "rejected")).
  - reflexivity.
  - split; repeat constructor.
Defined.

(** C5, as stated, fails: updateDepositStatus accepts the status banana and
    stores it. *)
Lemma updateDepositStatus_accepts_any_status : ~ status_enum_is_invariant.
Proof.
  intros H.
  assert (statuses_in_enum (db Sample.world)) as H0
      by (split; repeat constructor).
  specialize (H Sample.toy_bcrypt unit (UpdateDepositStatus 1%float "banana")
                Sample.world H0).
  destruct H as [H _]. vm_compute in H.
  inversion H as [|x l Hx Hl]. discriminate Hx.
Qed.

(* ---------------- numeric ids ---------------- *)

Lemma str_unstr (l : chars) : str (unstr l) = l.
Proof. apply list_ascii_of_string_of_list_ascii. Qed.

Lemma unstr_str (s : string) : unstr (str s) = s.
Proof. apply string_of_list_ascii_of_string. Qed.

Lemma length_str (s : string) : List.length (str s) = String.length s.
Proof. induction s; simpl; congruence. Qed.

Lemma str_substring (s : string) (n m : nat) :
  str (substring n m s) = firstn m (skipn n (str s)).
Proof.
  revert n m; induction s as [|c s IH]; intros n m.
  - destruct n, m; reflexivity.
  - destruct n as [|n].
    + destruct m as [|m]; simpl; [reflexivity|].
      f_equal. apply (IH 0%nat m).
    + simpl. apply IH.
Qed.

Lemma slice_last (s : string) (n : nat) :
  (0 < n <= String.length s)%nat ->
  slice s (- Z.of_nat n) = last_chars n s.
Proof.
  intros Hn. unfold slice, last_chars.
  destruct (Z.ltb_spec (- Z.of_nat n) 0) as [_|H]; [|lia].
  rewrite Z.max_l by lia.
  replace (Z.to_nat (Z.of_nat (String.length s) + - Z.of_nat n))
    with (String.length s - n)%nat by lia.
  replace (Z.to_nat (Z.of_nat (String.length s)
                     - (Z.of_nat (String.length s) + - Z.of_nat n)))
    with n by lia.
  rewrite <- (unstr_str (substring _ _ _)). f_equal.
  rewrite str_substring. apply firstn_all2.
  rewrite length_skipn, length_str. lia.
Qed.

Lemma lower_hex_char (c : ascii) :
  ObjectId.is_lower_hex c = true ->
  radix_digit 16 c = Some (hex_digit c) /\
  is_space c = false /\
  read_sign [c] = (false, [c]) /\
  Ascii.eqb "x" c = false /\ Ascii.eqb "X" c = false.
Proof.
  destruct c as [b0 b1 b2 b3 b4 b5 b6 b7].
  destruct b0, b1, b2, b3, b4, b5, b6, b7; intros H;
    try discriminate H; repeat split.
Qed.

Lemma read_hex_digits (l : chars) (acc : N) (count : nat) :
  forallb ObjectId.is_lower_hex l = true ->
  read_digits 16 acc count l =
  (fold_left (fun v c => (16 * v + hex_digit c)%N) l acc,
   (count + List.length l)%nat, []).
Proof.
  revert acc count; induction l as [|c r IH]; intros acc count H; simpl.
  - rewrite Nat.add_0_r; reflexivity.
  - simpl in H. apply andb_prop in H. destruct H as [Hc Hr].
    destruct (lower_hex_char c Hc) as (-> & _).
    rewrite IH by exact Hr. rewrite (N.mul_comm acc 16).
    f_equal. f_equal. lia.
Qed.

Lemma parseInt_hex (t : string) :
  forallb ObjectId.is_lower_hex (str t) = true -> str t <> [] ->
  parseInt t 16 = Number_of (base16 t).
Proof.
  intros Hall Hne. unfold parseInt, base16, Number_of.
  destruct (str t) as [|c r] eqn:E; [congruence|].
  simpl in Hall. apply andb_prop in Hall. destruct Hall as [Hc Hr].
  destruct (lower_hex_char c Hc) as (Hd & Hs & Hsign & Hx & HX).
  simpl skip_space. rewrite Hs.
  assert (read_sign (c :: r) = (false, c :: r)) as ->.
  { unfold read_sign in *. destruct c as [[] [] [] [] [] [] [] []];
      try discriminate Hsign; reflexivity. }
  assert (forall a b, Ascii.eqb b "x" || Ascii.eqb b "X" = true ->
                      starts_with [a; b] (c :: r) = false) as Hprefix.
  { intros a b Hb. destruct r as [|c2 r2]; [apply andb_false_r|].
    simpl in Hr. apply andb_prop in Hr. destruct Hr as [Hc2 _].
    destruct (lower_hex_char c2 Hc2) as (_ & _ & _ & Hx2 & HX2).
    change (starts_with [a; b] (c :: c2 :: r2))
      with (Ascii.eqb a c && (Ascii.eqb b c2 && true)).
    apply orb_prop in Hb. destruct Hb as [Hb|Hb];
      apply Ascii.eqb_eq in Hb; subst b; rewrite ?Hx2, ?HX2;
      apply andb_false_r. }
  change (str "0x") with ["0"; "x"]%char.
  change (str "0X") with ["0"; "X"]%char.
  rewrite !Hprefix by reflexivity.
  change (negb (16 =? 0)%N && ((16 <? 2)%N || (36 <? 16)%N)) with false.
  change (((16 =? 0)%N || (16 =? 16)%N) && (false || false)) with false.
  change (if (16 =? 0)%N then 10%N else 16%N) with 16%N.
  cbv beta iota zeta.
  rewrite read_hex_digits by (simpl; rewrite Hc, Hr; reflexivity).
  reflexivity.
Qed.

Lemma numeric_id_base16 (o : ObjectId.t) :
  numeric_id o = Number_of (base16 (last_chars 6 (ObjectId.toString o))).
Proof.
  destruct o as [h wf]. unfold numeric_id, ObjectId.toString. simpl.
  unfold ObjectId.well_formed in wf. apply andb_prop in wf.
  destruct wf as [Hlen Hall]. apply Nat.eqb_eq in Hlen.
  change (-6)%Z with (- Z.of_nat 6)%Z.
  rewrite slice_last by lia.
  apply parseInt_hex.
  - unfold last_chars. rewrite str_unstr.
    rewrite forallb_forall in *. intros c Hin. apply Hall.
    rewrite <- (firstn_skipn (String.length h - 6) (str h)).
    apply in_or_app; right; exact Hin.
  - unfold last_chars. rewrite str_unstr. intros Hnil.
    apply (f_equal (@List.length _)) in Hnil.
    rewrite length_skipn, length_str in Hnil. simpl in Hnil. lia.
Qed.

(* ---------------- integers as Numbers ---------------- *)

Ltac fold_Z :=
  change IntDef.Z.add with Z.add in *; change IntDef.Z.sub with Z.sub in *;
  change IntDef.Z.leb with Z.leb in *; change IntDef.Z.max with Z.max in *.

Lemma digits2_pos_iter_xO (p k : positive) :
  digits2_pos (Pos.iter xO p k) = (digits2_pos p + k)%positive.
Proof.
  induction k as [|k IH] using Pos.peano_ind.
  - simpl. lia.
  - rewrite Pos.iter_succ. simpl. rewrite IH. lia.
Qed.

Lemma iter_xO_pow (p k : positive) :
  Z.pos (Pos.iter xO p k) = (Z.pos p * 2 ^ Z.pos k)%Z.
Proof.
  induction k as [|k IH] using Pos.peano_ind.
  - simpl. lia.
  - rewrite Pos.iter_succ, Pos2Z.inj_xO, IH, Pos2Z.inj_succ.
    rewrite Z.pow_succ_r by lia. ring.
Qed.

Lemma fexp_53 (z : Z) : (-52 <= z <= 0)%Z -> fexp prec emax (53 + z) = z.
Proof. unfold fexp, emin, prec, emax. lia. Qed.

Lemma binary_round_aux_canonical (m : positive) (e : Z) :
  digits2_pos m = 53%positive -> (-52 <= e <= 0)%Z ->
  binary_round_aux prec emax false (Z.pos m) e loc_Exact = S754_finite false m e.
Proof.
  intros Hd He. unfold binary_round_aux, shr_fexp.
  cbn [Zdigits2 shr_record_of_loc]. rewrite Hd. fold_Z.
  rewrite (fexp_53 He), Z.sub_diag.
  cbn [shr shr_m loc_of_shr_record round_nearest_even shr_record_of_loc
       Zdigits2].
  rewrite Hd. fold_Z. rewrite (fexp_53 He), Z.sub_diag.
  cbn [shr shr_m].
  destruct (Z.leb_spec e (emax - prec)) as [_|H]; [reflexivity|].
  unfold emax, prec in H. lia.
Qed.

Lemma binary_normalize_small (p : positive) :
  (Z.pos (digits2_pos p) <= 53)%Z ->
  exists m e,
    binary_normalize prec emax (Z.pos p) 0 false = S754_finite false m e /\
    valid_binary (S754_finite false m e) = true /\
    (e <= 0)%Z /\ Z.pos m = (Z.pos p * 2 ^ (- e))%Z.
Proof.
  intros Hd. unfold binary_normalize, binary_round, shl_align. fold_Z.
  rewrite Z.add_0_r.
  assert (fexp prec emax (Z.pos (digits2_pos p)) = Z.pos (digits2_pos p) - 53)%Z
    as -> by (unfold fexp, emin, prec, emax; lia).
  rewrite Z.sub_0_r.
  destruct (Z.pos (digits2_pos p) - 53)%Z as [|k|k] eqn:E; try lia.
  - exists p, 0%Z. rewrite binary_round_aux_canonical by lia.
    repeat split; try lia.
    simpl. unfold bounded, canonical_mantissa.
    replace (digits2_pos p) with 53%positive by lia. reflexivity.
  - exists (Pos.iter xO p k), (Z.neg k).
    assert (digits2_pos (Pos.iter xO p k) = 53%positive) as Hk
        by (rewrite digits2_pos_iter_xO; lia).
    rewrite binary_round_aux_canonical by (try exact Hk; lia).
    repeat split; try lia.
    + simpl. unfold bounded, canonical_mantissa. rewrite Hk.
      rewrite fexp_53 by lia. rewrite Z.eqb_refl. simpl.
      apply Z.leb_le. unfold emax, prec. lia.
    + change (- Z.neg k)%Z with (Z.pos k). apply iter_xO_pow.
Qed.

Lemma digits2_pos_lower (p : positive) :
  (2 ^ (Z.pos (digits2_pos p) - 1) <= Z.pos p)%Z.
Proof.
  induction p as [p IH|p IH|]; simpl digits2_pos.
  - rewrite Pos2Z.inj_succ, (Pos2Z.inj_xI p).
    replace (Z.succ (Z.pos (digits2_pos p)) - 1)%Z
      with (Z.succ (Z.pos (digits2_pos p) - 1))%Z by lia.
    rewrite Z.pow_succ_r by lia.
    revert IH; generalize (2 ^ (Z.pos (digits2_pos p) - 1))%Z; intros; lia.
  - rewrite Pos2Z.inj_succ, (Pos2Z.inj_xO p).
    replace (Z.succ (Z.pos (digits2_pos p)) - 1)%Z
      with (Z.succ (Z.pos (digits2_pos p) - 1))%Z by lia.
    rewrite Z.pow_succ_r by lia.
    revert IH; generalize (2 ^ (Z.pos (digits2_pos p) - 1))%Z; intros; lia.
  - simpl. lia.
Qed.

Lemma digits2_pos_small (p : positive) :
  (Z.pos p < 2 ^ 53)%Z -> (Z.pos (digits2_pos p) <= 53)%Z.
Proof.
  intros Hp. destruct (Z.le_gt_cases (Z.pos (digits2_pos p)) 53) as [H|H];
    [exact H|].
  pose proof (digits2_pos_lower p) as Hl.
  assert (2 ^ 53 <= 2 ^ (Z.pos (digits2_pos p) - 1))%Z
    by (apply Z.pow_le_mono_r; lia).
  lia.
Qed.

Lemma scaled_back (p : positive) (e : Z) :
  (e <= 0)%Z ->
  Qeq (inject_Z (Z.pos p * 2 ^ (- e))%Z * Qpower 2 e)%Q (inject_Z (Z.pos p)).
Proof.
  intros He. rewrite inject_Z_mult.
  rewrite (Zpower_Qpower 2 (- e)%Z) by lia.
  rewrite Qpower_opp.
  change (inject_Z 2) with 2%Q.
  field. apply Qpower_not_0. discriminate.
Qed.

Lemma Number_of_exact (n : N) :
  (n < 2 ^ 53)%N -> has_integer_value (Number_of n) n.
Proof.
  intros Hn. unfold has_integer_value, Number_of, of_scaled.
  destruct n as [|p].
  - exists 0%Q. split; reflexivity.
  - assert (Z.pos (digits2_pos p) <= 53)%Z as Hd
        by (apply digits2_pos_small; lia).
    change (Z.pos p * 10 ^ 0)%Z with (Z.pos p * 1)%Z. rewrite Z.mul_1_r.
    destruct (binary_normalize_small p Hd) as (m & e & Hb & Hv & He & Hm).
    rewrite Hb. unfold to_Q. rewrite Prim2SF_SF2Prim by exact Hv.
    eexists; split; [reflexivity|].
    rewrite Hm. apply scaled_back, He.
Qed.

Lemma base16_bound (l : chars) (acc : N) :
  (fold_left (fun v c => 16 * v + hex_digit c) l acc
   < (acc + 1) * 16 ^ N.of_nat (List.length l))%N.
Proof.
  revert acc; induction l as [|c r IH]; intros acc.
  - simpl. lia.
  - cbn [fold_left List.length]. specialize (IH (16 * acc + hex_digit c)%N).
    rewrite Nat2N.inj_succ, N.pow_succ_r'.
    assert (hex_digit c <= 15)%N as Hc.
    { destruct c as [[] [] [] [] [] [] [] []]; simpl; lia. }
    eapply N.lt_le_trans; [exact IH|].
    generalize (16 ^ N.of_nat (List.length r))%N as X. intros X.
    replace ((acc + 1) * (16 * X))%N with ((16 * acc + 16) * X)%N by lia.
    apply N.mul_le_mono_r. lia.
Qed.

Lemma numeric_id_exact (o : ObjectId.t) :
  has_integer_value (id_of_identifier o)
                    (base16 (last_chars 6 (ObjectId.toString o))).
Proof.
  apply Number_of_exact. unfold base16.
  eapply N.lt_le_trans; [apply base16_bound|].
  unfold last_chars. rewrite str_unstr, length_skipn, length_str.
  destruct o as [h wf]. unfold ObjectId.toString. simpl.
  unfold ObjectId.well_formed in wf. apply andb_prop in wf.
  destruct wf as [Hlen _]. apply Nat.eqb_eq in Hlen. rewrite Hlen.
  simpl. lia.
Qed.

(** C8: the id of every converted user, deposit, withdrawal, game and farm
    cat is the Number of the base-16 integer written by the last six
    characters of the document's identifier, and that Number has exactly this
    integer as its value. *)
Theorem converted_ids_are_base16 :
  (forall user,
     UserOut.id (convertMongoUser user) = id_of_identifier (User._id user)) /\
  (forall deposit,
     DepositOut.id (convertMongoDeposit deposit) =
     id_of_identifier (Deposit._id deposit)) /\
  (forall withdrawal,
     WithdrawalOut.id (convertMongoWithdrawal withdrawal) =
     id_of_identifier (Withdrawal._id withdrawal)) /\
  (forall game,
     GameHistoryOut.id (convertMongoGameHistory game) =
     id_of_identifier (GameHistory._id game)) /\
  (forall cat,
     FarmCatOut.id (convertFarmCat cat) = id_of_identifier (FarmCat._id cat)) /\
  (forall data w r w',
     createFarmCat data w = (Returns (Some r), w') ->
     FarmCatOut.id r = id_of_identifier (fresh w 0%nat)) /\
  (forall identifier,
     has_integer_value
       (id_of_identifier identifier)
       (base16 (last_chars 6 (ObjectId.toString identifier)))).
Proof.
  split; [|split; [|split; [|split; [|split; [|split]]]]];
    try (intros; unfold id_of_identifier; simpl; apply numeric_id_base16).
  - intros data w r w' H. unfold createFarmCat in H. unfold_M. case_run H.
    injection H as <- <-. simpl. apply numeric_id_base16.
  - apply numeric_id_exact.
Qed.

(** X2: the id a user is returned with need not address that user: alice, whose
    identifier is 00000000000000000000000a, is returned with id 10, and
    getUser(10) looks up the identifier 000000000000000000000010. *)
Lemma converted_id_does_not_address_its_user :
  In Sample.alice (users (db Sample.world)) /\
  UserOut.id (convertMongoUser Sample.alice) = 10%float /\
  fst (getUser (UserOut.id (convertMongoUser Sample.alice)) Sample.world) =
  Returns None.
Proof. repeat split. left; reflexivity. Qed.

Example converted_id_sample :
  UserOut.id (convertMongoUser
                (User.make Sample.oid_j "dave" "" "" "" false false 0%Z)) =
  10597059%float.
Proof. reflexivity. Qed.

(* ---------------- the volume ---------------- *)

Import BackgroundMusicManager.

Lemma ltb_leb (x y : number) : (x <? y)%float = true -> (x <=? y)%float = true.
Proof.
  rewrite ltb_spec, leb_spec. unfold SFltb, SFleb.
  destruct (SFcompare (Prim2SF x) (Prim2SF y)) as [[]|];
    intros H; try discriminate H; reflexivity.
Qed.

Lemma SFcompare_antisym (x y : spec_float) :
  SFcompare y x = option_map CompOpp (SFcompare x y).
Proof.
  destruct x as [sx|sx| |sx mx ex], y as [sy|sy| |sy my ey]; simpl;
    try reflexivity;
    try (destruct sx; reflexivity); try (destruct sy; reflexivity);
    try (destruct sx, sy; reflexivity).
  destruct sx, sy; try reflexivity; f_equal;
    rewrite (Z.compare_antisym ex ey);
    destruct (ex ?= ey)%Z; simpl; try reflexivity;
    change (Pos.compare_cont Eq my mx) with (Pos.compare my mx);
    change (Pos.compare_cont Eq mx my) with (Pos.compare mx my);
    rewrite (Pos.compare_antisym mx my); try reflexivity.
Qed.

Lemma ltb_antisym (x y : number) :
  (x <? y)%float = true -> (y <? x)%float = false.
Proof.
  rewrite !ltb_spec. unfold SFltb.
  rewrite (SFcompare_antisym (Prim2SF x) (Prim2SF y)).
  destruct (SFcompare (Prim2SF x) (Prim2SF y)) as [[]|]; simpl;
    intros H; try discriminate H; reflexivity.
Qed.

Lemma leb_not_ltb_eqb (x y : number) :
  (x <=? y)%float = true -> (x <? y)%float = false ->
  (x =? y)%float = true /\ (y =? x)%float = true.
Proof.
  rewrite leb_spec, ltb_spec, !eqb_spec. unfold SFleb, SFltb, SFeqb.
  rewrite (SFcompare_antisym (Prim2SF x) (Prim2SF y)).
  destruct (SFcompare (Prim2SF x) (Prim2SF y)) as [[]|]; simpl;
    intros H1 H2; try discriminate; split; reflexivity.
Qed.

Lemma above_one_is_positive (v : number) :
  (1 <? v)%float = true -> (0 <? v)%float = true.
Proof.
  rewrite !ltb_spec. unfold SFltb.
  change (Prim2SF 1) with (S754_finite false 4503599627370496 (-52)).
  change (Prim2SF 0) with (S754_zero false).
  destruct (Prim2SF v) as [s|s| |s m e]; simpl; try (intros H; discriminate H).
  - destruct s; intros H; [discriminate H | reflexivity].
  - destruct s; intros H; [discriminate H | reflexivity].
Qed.

Lemma Math_max_0 (v : number) :
  is_nan v = false ->
  Math_max 0%float v = if (0 <? v)%float then v else 0%float.
Proof.
  intros H. unfold Math_max. rewrite H.
  change (is_nan 0%float) with false. cbv beta iota delta [orb].
  change (max_step neg_infinity 0%float) with 0%float.
  unfold max_step. change (is_neg_zero 0%float) with false.
  rewrite andb_false_r. reflexivity.
Qed.

Lemma Math_min_1 (a : number) :
  is_nan a = false ->
  Math_min 1%float a = if (a <? 1)%float then a else 1%float.
Proof.
  intros H. unfold Math_min. rewrite H.
  change (is_nan 1%float) with false. cbv beta iota delta [orb].
  change (min_step infinity 1%float) with 1%float.
  unfold min_step. change (is_pos_zero 1%float) with false.
  rewrite andb_false_r. reflexivity.
Qed.

Lemma clamp_closed_form (v : number) :
  is_nan v = false ->
  Math_min 1%float (Math_max 0%float v) =
  if (0 <? v)%float then (if (v <? 1)%float then v else 1%float)
  else 0%float.
Proof.
  intros H. rewrite Math_max_0 by exact H.
  destruct (0 <? v)%float.
  - apply Math_min_1, H.
  - reflexivity.
Qed.

Lemma clamp_cases (v : number) :
  is_nan v = false ->
  let r := Math_min 1%float (Math_max 0%float v) in
  ((v <? 0)%float = true -> r = 0%float) /\
  ((1 <? v)%float = true -> r = 1%float) /\
  ((0 <=? v)%float = true -> (v <=? 1)%float = true -> (r =? v)%float = true).
Proof.
  intros Hv r. subst r. rewrite clamp_closed_form by exact Hv.
  split; [|split].
  - intros H. rewrite (@ltb_antisym _ _ H). reflexivity.
  - intros H. rewrite (@above_one_is_positive _ H), (@ltb_antisym _ _ H).
    reflexivity.
  - intros H0 H1. destruct (0 <? v)%float eqn:E0.
    + destruct (v <? 1)%float eqn:E1.
      * unfold is_nan in Hv. apply negb_false_iff in Hv. exact Hv.
      * apply (@leb_not_ltb_eqb _ _ H1 E1).
    + apply (@leb_not_ltb_eqb _ _ H0 E0).
Qed.

Lemma clamp_in_unit_interval (v : number) :
  is_nan v = false ->
  in_unit_interval (Math_min 1%float (Math_max 0%float v)) = true.
Proof.
  intros H. rewrite clamp_closed_form by exact H. unfold in_unit_interval.
  destruct (0 <? v)%float eqn:E0; [|reflexivity].
  destruct (v <? 1)%float eqn:E1; [|reflexivity].
  rewrite (@ltb_leb _ _ E0), (@ltb_leb _ _ E1). reflexivity.
Qed.

Lemma volume_loadCurrentTrack m : volume (loadCurrentTrack m) = volume m.
Proof.
  unfold loadCurrentTrack.
  destruct (audio m); [destruct (availableTracks m)|]; reflexivity.
Qed.

Lemma volume_advance m : volume (advance m) = volume m.
Proof. unfold advance. rewrite volume_loadCurrentTrack. reflexivity. Qed.

Lemma volume_play fuel m : volume (play fuel m) = volume m.
Proof.
  revert m; induction fuel as [|fuel IH]; intros m; simpl.
  - destruct (audio m); [|reflexivity].
    destruct (negb (enabled m)); [reflexivity|].
    destruct (negb (paused a)); [reflexivity|].
    destruct (playable m 0%nat); reflexivity.
  - destruct (audio m); [|reflexivity].
    destruct (negb (enabled m)); [reflexivity|].
    destruct (negb (paused a)); [reflexivity|].
    destruct (playable m 0%nat); [reflexivity|].
    destruct (availableTracks m); [reflexivity|].
    destruct (enabled (advance (next_playable m))).
    + rewrite IH, volume_advance. reflexivity.
    + rewrite volume_advance. reflexivity.
Qed.

Lemma volume_playNextTrack fuel m : volume (playNextTrack fuel m) = volume m.
Proof.
  unfold playNextTrack. destruct (availableTracks m); [reflexivity|].
  destruct (enabled (advance m)); rewrite ?volume_play, volume_advance;
    reflexivity.
Qed.

Lemma volume_pause m : volume (pause m) = volume m.
Proof.
  unfold pause. destruct (audio m) as [a|]; [|reflexivity].
  destruct (negb (paused a)); reflexivity.
Qed.

Lemma volume_initializeAudio m : volume (initializeAudio m) = volume m.
Proof.
  unfold initializeAudio. destruct (isInitialized m); [reflexivity|].
  cbv zeta.
  destruct (availableTracks (with_availableTracks _ m)) eqn:E;
    [reflexivity|].
  destruct (audio (loadCurrentTrack _)) eqn:Ea;
    [|rewrite volume_loadCurrentTrack; reflexivity].
  destruct (set_audio_volume _ a);
    simpl; rewrite ?volume_loadCurrentTrack; reflexivity.
Qed.

Lemma volume_setVolume v m :
  volume (snd (setVolume v m)) = Math_min 1%float (Math_max 0%float v).
Proof.
  unfold setVolume. cbv zeta. simpl audio. simpl volume.
  destruct (audio m) as [a|]; [|reflexivity].
  destruct (set_audio_volume _ a); reflexivity.
Qed.

Lemma volume_step fuel m o :
  is_setVolume o = false -> volume (step fuel m o) = volume m.
Proof.
  destruct o; simpl; intros H; try discriminate H.
  - apply volume_initializeAudio.
  - apply volume_play.
  - apply volume_pause.
  - unfold setEnabled. cbv zeta.
    destruct b; [rewrite volume_play | rewrite volume_pause]; reflexivity.
  - apply volume_playNextTrack.
  - apply volume_playNextTrack.
Qed.

Lemma step_keeps_unit_interval fuel m o :
  real_argument o = true ->
  in_unit_interval (volume m) = true ->
  in_unit_interval (volume (step fuel m o)) = true.
Proof.
  intros Hr Hm. destruct (is_setVolume o) eqn:E.
  - destruct o; try discriminate E. simpl in *.
    rewrite volume_setVolume. apply clamp_in_unit_interval.
    apply negb_true_iff, Hr.
  - rewrite volume_step by exact E. exact Hm.
Qed.

(** C10: after setVolume(v) with v not NaN, getVolume returns
    Math.min(1, Math.max(0, v)), which is in [0, 1]: 0 below 0, 1 above 1, and
    v itself in between; no other operation changes the volume; so the volume
    of a manager is in [0, 1] after any sequence of operations. *)
Theorem volume_stays_in_unit_interval :
  (forall m v,
     is_nan v = false ->
     let r := getVolume (snd (setVolume v m)) in
     r = Math_min 1%float (Math_max 0%float v) /\
     in_unit_interval r = true /\
     ((v <? 0)%float = true -> r = 0%float) /\
     ((1 <? v)%float = true -> r = 1%float) /\
     ((0 <=? v)%float = true -> (v <=? 1)%float = true ->
      (r =? v)%float = true)) /\
  (forall fuel m o,
     is_setVolume o = false -> volume (step fuel m o) = volume m) /\
  (forall fuel playable fetch operations,
     forallb real_argument operations = true ->
     in_unit_interval
       (volume (fold_left (step fuel) operations (created playable fetch)))
     = true).
Proof.
  split; [|split].
  - intros m v Hv r. subst r. unfold getVolume. rewrite volume_setVolume.
    split; [reflexivity|]. split; [apply clamp_in_unit_interval, Hv|].
    apply clamp_cases, Hv.
  - intros fuel m o. apply volume_step.
  - intros fuel playable fetch operations.
    assert (in_unit_interval (volume (created playable fetch)) = true) as H0
        by reflexivity.
    revert H0. generalize (created playable fetch) as m.
    induction operations as [|o r IH]; intros m Hm Hall; simpl.
    + exact Hm.
    + simpl in Hall. apply andb_prop in Hall. destruct Hall as [Ho Hr].
      apply IH; [apply step_keeps_unit_interval; assumption | exact Hr].
Qed.

(** NaN is not clamped: it is stored as it is. *)
Example volume_of_nan :
  getVolume (snd (setVolume nan (created (fun _ => true) (fun _ => None)))) =
  nan.
Proof. reflexivity. Qed.

Example volume_sample :
  let m := created (fun _ => true) (fun _ => Some true) in
  map (fun v => getVolume (snd (setVolume v m)))
      [0.3; 7; -2; infinity; neg_infinity; -0]%float =
  [0.3; 1; 0; 1; 0; 0]%float.
Proof. reflexivity. Qed.

(* ================================================================== *)
(** * Further properties of the code *)
(* ================================================================== *)

Import Behaviour.
(* ---------------- listings ---------------- *)

Section Sorting.
Context {D : Type}.
Variable key : D -> Date.

Lemma insert_desc_perm x (l : list D) :
  Permutation (insert_desc key x l) (x :: l).
Proof.
  induction l as [|y r IH]; simpl; [reflexivity|].
  destruct (key y <=? key x)%Z; [reflexivity|].
  rewrite IH. apply perm_swap.
Qed.

Lemma sort_desc_perm (l : list D) : Permutation (sort_desc key l) l.
Proof.
  induction l as [|x r IH]; simpl; [reflexivity|].
  rewrite insert_desc_perm. constructor. exact IH.
Qed.

Lemma insert_desc_sorted x (l : list D) :
  StronglySorted (fun a b => (key b <= key a)%Z) l ->
  StronglySorted (fun a b => (key b <= key a)%Z) (insert_desc key x l).
Proof.
  induction l as [|y r IH]; intros Hs; simpl.
  - constructor; constructor.
  - inversion Hs as [|? ? Hr Hy]; subst.
    destruct (key y <=? key x)%Z eqn:E.
    + apply Z.leb_le in E. constructor; [exact Hs|].
      constructor; [exact E|].
      rewrite Forall_forall in *. intros z Hz. specialize (Hy z Hz). lia.
    + apply Z.leb_gt in E. constructor; [apply IH, Hr|].
      rewrite Forall_forall in *. intros z Hz.
      apply (Permutation_in _ (insert_desc_perm x r)) in Hz.
      destruct Hz as [<-|Hz]; [lia | apply Hy, Hz].
Qed.

Lemma sort_desc_sorted (l : list D) :
  StronglySorted (fun a b => (key b <= key a)%Z) (sort_desc key l).
Proof.
  induction l as [|x r IH]; simpl; [constructor|].
  apply insert_desc_sorted, IH.
Qed.

End Sorting.

Lemma latest_first_map {D E : Type} (key : D -> Date) (key' : E -> Date)
    (f : D -> E) (l : list D) :
  (forall d, key' (f d) = key d) ->
  StronglySorted (fun a b => (key b <= key a)%Z) l ->
  latest_first (map key' (map f l)).
Proof.
  intros Hk Hs. unfold latest_first.
  induction Hs as [|d r Hr IH Hd]; simpl; constructor; [exact IH|].
  rewrite Forall_forall in *. intros z Hz.
  rewrite map_map in Hz. apply in_map_iff in Hz.
  destruct Hz as (x & <- & Hx). rewrite !Hk. apply Hd, Hx.
Qed.

Lemma listing_shape {D E : Type} (key : D -> Date) (key' : E -> Date)
    (f : D -> E) (l : list D) :
  (forall d, key' (f d) = key d) ->
  Permutation (map f (sort_desc key l)) (map f l) /\
  latest_first (map key' (map f (sort_desc key l))).
Proof.
  intros Hk. split.
  - apply Permutation_map, sort_desc_perm.
  - apply latest_first_map with (key := key); [exact Hk|].
    apply sort_desc_sorted.
Qed.

(** X4: on a connected storage whose store answers, getDeposits,
    getWithdrawals and getAllUsers return every document of their
    collection, converted, each once, from the latest createdAt to the
    earliest; nothing but the store's answer is consumed. *)
Theorem listings_are_complete_and_latest_first w :
  isConnected w = true -> fault w 0%nat = false ->
  (exists r, getDeposits w = (Returns r, next_fault w) /\
     Permutation r (map convertMongoDeposit (deposits (db w))) /\
     latest_first (map DepositOut.createdAt r)) /\
  (exists r, getWithdrawals w = (Returns r, next_fault w) /\
     Permutation r (map convertMongoWithdrawal (withdrawals (db w))) /\
     latest_first (map WithdrawalOut.createdAt r)) /\
  (exists r, getAllUsers w = (Returns r, next_fault w) /\
     Permutation r (map convertMongoUser (users (db w))) /\
     latest_first (map UserOut.createdAt r)).
Proof.
  intros Hc Hf.
  assert (forall D (l : list D), filter (fun _ => true) l = l) as Hall.
  { intros D l. induction l; simpl; congruence. }
  split; [|split]; eexists; (split; [|apply listing_shape; reflexivity]).
  - unfold getDeposits. unfold_M. rewrite Hc; simpl. rewrite Hf.
    simpl. rewrite Hall. reflexivity.
  - unfold getWithdrawals. unfold_M. rewrite Hc; simpl. rewrite Hf.
    simpl. rewrite Hall. reflexivity.
  - unfold getAllUsers. unfold_M. rewrite Hc; simpl. rewrite Hf.
    simpl. rewrite Hall. reflexivity.
Qed.

Lemma listings_sample :
  isConnected Sample.world = true /\ fault Sample.world 0%nat = false /\
  fst (getDeposits Sample.world) =
  Returns [convertMongoDeposit Sample.deposit_bob;
           convertMongoDeposit Sample.deposit_alice].
Proof.
  split; [reflexivity|]. split; [reflexivity|].
  destruct (@listings_are_complete_and_latest_first Sample.world
              eq_refl eq_refl) as ((r & Hr & _) & _).
  rewrite Hr. vm_compute in Hr. injection Hr as <-. reflexivity.
Defined.

(** X5: getUserWithdrawals returns the withdrawals whose owner reference is
    the identifier the argument gives, and only those, from the latest to
    the earliest. *)
Theorem getUserWithdrawals_selects_the_owner w userId owner :
  isConnected w = true -> fault w 0%nat = false ->
  ObjectId.from_string (id_string userId) = Some owner ->
  exists r,
    getUserWithdrawals userId w = (Returns r, next_fault w) /\
    Permutation r
      (map convertMongoWithdrawal
           (filter (fun x => ObjectId.eqb (Withdrawal.userId x) owner)
                   (withdrawals (db w)))) /\
    latest_first (map WithdrawalOut.createdAt r) /\
    Forall (fun x => WithdrawalOut.userId x = owner_id owner) r.
Proof.
  intros Hc Hf Ho. eexists. split; [|split; [|split]].
  - unfold getUserWithdrawals. unfold_M. rewrite Hc, Ho; simpl. rewrite Hf.
    reflexivity.
  - apply listing_shape with (key' := WithdrawalOut.createdAt); reflexivity.
  - apply listing_shape; reflexivity.
  - rewrite Forall_forall. intros x Hx. apply in_map_iff in Hx.
    destruct Hx as (d & <- & Hd).
    apply (Permutation_in _ (sort_desc_perm Withdrawal.createdAt _)) in Hd.
    apply filter_In in Hd. destruct Hd as [_ Hd].
    apply ObjectId_eqb_eq in Hd. simpl. rewrite Hd. reflexivity.
Qed.

Lemma getUserWithdrawals_sample :
  fst (getUserWithdrawals 7%float Sample.world) =
  Returns [convertMongoWithdrawal Sample.withdrawal_bob].
Proof.
  destruct (@getUserWithdrawals_selects_the_owner Sample.world 7%float
              Sample.oid_7 eq_refl eq_refl eq_refl) as (r & Hr & _).
  rewrite Hr. vm_compute in Hr. injection Hr as <-. reflexivity.
Defined.

(** X6: getGameHistory with a userId that counts as true returns the games
    of that owner, latest first; without a userId, or with 0 or NaN, which
    count as false, it returns the games of every user. *)
Theorem getGameHistory_filters_only_truthy_ids w :
  isConnected w = true -> fault w 0%nat = false ->
  (forall userId,
     match userId with Some n => truthy n = false | None => True end ->
     exists r,
       getGameHistory userId w = (Returns r, next_fault w) /\
       Permutation r (map convertMongoGameHistory (games (db w))) /\
       latest_first (map GameHistoryOut.createdAt r)) /\
  (forall n owner,
     truthy n = true ->
     ObjectId.from_string (id_string n) = Some owner ->
     exists r,
       getGameHistory (Some n) w = (Returns r, next_fault w) /\
       Permutation r
         (map convertMongoGameHistory
              (filter (fun g => ObjectId.eqb (GameHistory.userId g) owner)
                      (games (db w)))) /\
       latest_first (map GameHistoryOut.createdAt r)).
Proof.
  intros Hc Hf.
  assert (forall D (l : list D), filter (fun _ => true) l = l) as Hall.
  { intros D l. induction l; simpl; congruence. }
  split.
  - intros userId Hu. eexists.
    split; [|apply listing_shape; reflexivity].
    unfold getGameHistory. unfold_M. rewrite Hc; simpl.
    destruct userId as [n|]; [rewrite Hu|]; simpl; rewrite Hf; simpl;
      rewrite Hall; reflexivity.
  - intros n owner Hn Ho. eexists.
    split; [|apply listing_shape with (key' := GameHistoryOut.createdAt);
             reflexivity].
    unfold getGameHistory. unfold_M. rewrite Hc, Hn, Ho; simpl. rewrite Hf.
    reflexivity.
Qed.

Lemma getGameHistory_sample :
  fst (getGameHistory (Some 0%float) Scenario.played) =
  Returns [convertMongoGameHistory Scenario.game_alice;
           convertMongoGameHistory Scenario.game_bob] /\
  fst (getGameHistory (Some 7%float) Scenario.played) =
  Returns [convertMongoGameHistory Scenario.game_bob].
Proof.
  destruct (@getGameHistory_filters_only_truthy_ids Scenario.played
              eq_refl eq_refl) as [Hall Hone].
  destruct (Hall (Some 0%float) eq_refl) as (r & Hr & _).
  destruct (Hone 7%float Sample.oid_7 eq_refl eq_refl) as (r' & Hr' & _).
  split.
  - transitivity (Returns r); [exact (f_equal fst Hr)|].
    vm_compute in Hr. injection Hr as <-. reflexivity.
  - transitivity (Returns r'); [exact (f_equal fst Hr')|].
    vm_compute in Hr'. injection Hr' as <-. reflexivity.
Defined.

(* ---------------- reading back what was written ---------------- *)

Lemma find_app_none {D : Type} (p : D -> bool) (l : list D) (x : D) :
  List.find p l = None ->
  List.find p (l ++ [x]) = (if p x then Some x else None).
Proof.
  induction l as [|d r IH]; simpl; [reflexivity|].
  destruct (p d); [discriminate | exact IH].
Qed.


(** X7: a user created by createUser is the one getUserByUsername returns
    for that username, when no earlier user has the name: on a connected
    storage whose store answers and whose generated identifier is not in
    use, createUser returns the new user and getUserByUsername then returns
    the same object. *)
Theorem createUser_then_getUserByUsername bcrypt insertUser w :
  isConnected w = true ->
  fault w 0%nat = false -> fault w 1%nat = false ->
  existsb (has_id Users (fresh w 0%nat)) (users (db w)) = false ->
  List.find (fun u => String.eqb (User.username u)
                                 (InsertUser.username insertUser))
            (users (db w)) = None ->
  exists u w1 w2,
    createUser bcrypt insertUser w = (Returns u, w1) /\
    getUserByUsername (InsertUser.username insertUser) w1 =
    (Returns (Some u), w2) /\
    UserOut.username u = InsertUser.username insertUser.
Proof.
  intros Hc Hf0 Hf1 Hfresh Hname.
  unfold createUser, getUserByUsername, bcrypt_hash. unfold_M.
  rewrite Hc; simpl. rewrite Hf0; simpl. rewrite Hfresh; simpl.
  do 3 eexists. split; [reflexivity|]. simpl. rewrite Hc; simpl.
  unfold behead; rewrite Hf1; simpl.
  rewrite (find_app_none _ _ _ Hname); simpl.
  rewrite String.eqb_refl. split; reflexivity.
Qed.

Lemma createUser_then_getUserByUsername_sample :
  exists u w1 w2,
    createUser Sample.toy_bcrypt Sample.carol Sample.world = (Returns u, w1) /\
    getUserByUsername "carol" w1 = (Returns (Some u), w2).
Proof.
  destruct (@createUser_then_getUserByUsername Sample.toy_bcrypt Sample.carol
              Sample.world eq_refl eq_refl eq_refl eq_refl eq_refl)
    as (u & w1 & w2 & H1 & H2 & _).
  exists u, w1, w2. split; assumption.
Defined.

(** X8: after updateUserBalance(id, balance, meowBalance) on a connected
    storage whose store answers, getUser(id) returns the user with the new
    balance; the meowBalance is the new one when one is given and the old one
    otherwise; the other fields are as before, and every user with another
    identifier is as before. *)
Theorem updateUserBalance_then_getUser w id balance meowBalance oid u :
  isConnected w = true ->
  fault w 0%nat = false -> fault w 1%nat = false ->
  ObjectId.from_string (id_string id) = Some oid ->
  List.find (has_id Users oid) (users (db w)) = Some u ->
  exists w1 w2 r,
    updateUserBalance id balance meowBalance w = (Returns tt, w1) /\
    getUser id w1 = (Returns (Some r), w2) /\
    UserOut.balance r = balance /\
    UserOut.meowBalance r =
      match meowBalance with Some m => m | None => User.meowBalance u end /\
    (UserOut.id r, UserOut.username r, UserOut.password r, UserOut.isAdmin r,
     UserOut.isBanned r, UserOut.createdAt r) =
    (numeric_id oid, User.username u, User.password u, User.isAdmin u,
     User.isBanned u, User.createdAt u) /\
    (forall other, other <> oid ->
       List.find (has_id Users other) (users (db w1)) =
       List.find (has_id Users other) (users (db w))) /\
    users (db w2) = users (db w1).
Proof.
  intros Hc Hf0 Hf1 Ho Hu.
  unfold updateUserBalance, getUser. unfold_M.
  rewrite Hc, Ho; simpl. rewrite Hf0; simpl.
  do 3 eexists. split; [reflexivity|]. simpl. rewrite Hc; simpl.
  unfold behead; rewrite Hf1; simpl.
  rewrite find_update_first_same by (intros d Hd; exact Hd).
  rewrite Hu; simpl.
  assert (User._id u = oid) as Hid.
  { apply find_some in Hu. destruct Hu as [_ Hu].
    apply ObjectId_eqb_eq in Hu. exact Hu. }
  split; [reflexivity|]. split; [reflexivity|]. split; [reflexivity|].
  split; [subst oid; reflexivity|]. split; [|reflexivity].
  intros other Hother. apply find_update_first_other.
  intros d Hd. unfold has_id in *; simpl in *.
  apply ObjectId_eqb_eq in Hd. rewrite Hd.
  split; apply ObjectId_eqb_neq; congruence.
Qed.

Lemma updateUserBalance_then_getUser_sample :
  exists w1 w2 r,
    updateUserBalance 7%float "42.00" None Sample.world = (Returns tt, w1) /\
    getUser 7%float w1 = (Returns (Some r), w2) /\
    UserOut.balance r = "42.00" /\ UserOut.meowBalance r = "0.00000000".
Proof.
  destruct (@updateUserBalance_then_getUser Sample.world 7%float "42.00" None
              Sample.oid_7 Sample.bob eq_refl eq_refl eq_refl eq_refl eq_refl)
    as (w1 & w2 & r & H1 & H2 & H3 & H4 & _).
  exists w1, w2, r. repeat split; assumption.
Defined.

(* ---------------- updates that find nothing ---------------- *)

Lemma absent_unknown {D : Type} (C : Collection D) id d :
  absent C id d -> unknown C id d.
Proof.
  intros (oid & Ho & Hf) oid' Ho'. rewrite Ho in Ho'.
  injection Ho' as <-. exact Hf.
Qed.



(* ---------------- what a method can touch ---------------- *)

(** X10: every method leaves alone the collections it has no write for,
    whatever the store answers: the get methods other than getJackpot change
    no collection; creating or updating a withdrawal changes no user,
    deposit, game, jackpot or cat; only createUser, updateUserBalance,
    banUser and updateDepositStatus can change a user; and so on for each
    collection. No method changes whether the storage is connected. *)
Theorem methods_keep_to_their_collections bcrypt A (c : call A) w :
  let w' := snd (run bcrypt c w) in
  (on_users (writes c) = false -> users (db w') = users (db w)) /\
  (on_deposits (writes c) = false -> deposits (db w') = deposits (db w)) /\
  (on_withdrawals (writes c) = false ->
   withdrawals (db w') = withdrawals (db w)) /\
  (on_games (writes c) = false -> games (db w') = games (db w)) /\
  (on_jackpots (writes c) = false -> jackpots (db w') = jackpots (db w)) /\
  (on_farmCats (writes c) = false -> farmCats (db w') = farmCats (db w)) /\
  isConnected w' = isConnected w.
Proof.
  destruct c; simpl.
  all: unfold_methods; unfold_M.
  all: case_goal.
  all: repeat split; intros; try discriminate; reflexivity.
Qed.

Lemma methods_keep_to_their_collections_sample :
  users (db (snd (updateWithdrawalStatus 1%float "approved" Sample.world))) =
  users (db Sample.world) /\
  isConnected (snd (updateWithdrawalStatus 1%float "approved" Sample.world)) =
  true.
Proof.
  destruct (methods_keep_to_their_collections Sample.toy_bcrypt
              (UpdateWithdrawalStatus 1%float "approved") Sample.world)
    as (Hu & _ & _ & _ & _ & _ & Hc).
  split; [apply Hu; reflexivity | exact Hc].
Defined.

(* ---------------- what is reported ---------------- *)

(** X11: a call reports at most one error: it appends nothing or one entry
    to what console.error received. An error a method throws on a connected
    storage is the one it has just reported; on a storage that is not
    connected nothing is reported, and what is thrown is the error
    'MongoDB not connected'. *)
Theorem errors_are_reported_once bcrypt A (c : call A) w :
  let w' := snd (run bcrypt c w) in
  (console w' = console w \/
   exists msg e, console w' = (console w ++ [(msg, e)])%list) /\
  (forall e, fst (run bcrypt c w) = Throws e ->
     if isConnected w
     then exists msg, console w' = (console w ++ [(msg, e)])%list
     else e = NotConnected) /\
  (isConnected w = false -> console w' = console w).
Proof.
  destruct c; simpl.
  all: unfold_methods; unfold_M.
  all: case_goal.
  all: split; [|split]; try (intros; discriminate).
  all: try (left; reflexivity).
  all: try (right; eexists; eexists; reflexivity).
  all: try (intros; reflexivity).
  all: try (intros e He; injection He as <-).
  all: try reflexivity.
  all: try (eexists; reflexivity).
Qed.

Lemma errors_are_reported_once_sample :
  exists msg,
    console (snd (createUser Sample.toy_bcrypt Sample.carol
                             Sample.failing_world)) =
    [(msg, MongoError)].
Proof.
  destruct (errors_are_reported_once Sample.toy_bcrypt
              (CreateUser Sample.carol) Sample.failing_world)
    as (_ & H & _).
  exact (H MongoError eq_refl).
Defined.

(* ---------------- a game without its jackpot share ---------------- *)

(** X12: createGameHistory is not atomic. When the insert of the game
    succeeds and the store then rejects the read of the jackpot, the call
    throws, the game stays in the collection, and the jackpot has not
    received its share of the lost bet. *)
Theorem createGameHistory_keeps_the_game_when_the_jackpot_fails game w owner :
  isConnected w = true ->
  ObjectId.from_string (id_string (InsertGame.userId game)) = Some owner ->
  existsb (has_id Games (fresh w 0%nat)) (games (db w)) = false ->
  (parseFloat (or_else (InsertGame.winAmount game) "0") =? 0)%float = true ->
  fault w 0%nat = false -> fault w 1%nat = true ->
  exists w' g,
    createGameHistory game w = (Throws MongoError, w') /\
    games (db w') = (games (db w) ++ [g])%list /\
    GameHistory.userId g = owner /\
    GameHistory.betAmount g = InsertGame.betAmount game /\
    jackpots (db w') = jackpots (db w).
Proof.
  intros Hc Ho Hfresh Hloss Hf0 Hf1.
  unfold createGameHistory. unfold_M.
  rewrite Hc, Ho; simpl. rewrite Hf0; simpl. rewrite Hfresh; simpl.
  rewrite Hloss; simpl. unfold behead; rewrite Hf1; simpl.
  do 2 eexists. split; [reflexivity|]. simpl. repeat split.
Qed.

Lemma createGameHistory_keeps_the_game_sample :
  exists w' g,
    createGameHistory Sample.lost_game
      (mkWorld true Sample.database [] (fun n => Nat.eqb n 1)
               (clock Sample.world) (fresh Sample.world)
               (salt Sample.world)) = (Throws MongoError, w') /\
    games (db w') = [g] /\
    jackpots (db w') = [Sample.pot].
Proof.
  destruct (@createGameHistory_keeps_the_game_when_the_jackpot_fails
              Sample.lost_game
              (mkWorld true Sample.database [] (fun n => Nat.eqb n 1)
                       (clock Sample.world) (fresh Sample.world)
                       (salt Sample.world))
              Sample.oid_7 eq_refl eq_refl eq_refl eq_refl eq_refl eq_refl)
    as (w' & g & H1 & H2 & _ & _ & H3).
  exists w', g. repeat split; assumption.
Defined.

(* ---------------- the jackpot ---------------- *)

(** X13: on a connected storage whose store answers, getJackpot returns
    the amount of the first jackpot document under the id 1 and changes
    nothing when there is a document; when there is none it stores one with
    the amount 0.10000000 and returns that. Either way a jackpot document
    exists afterwards, and a second call returns the same amount and changes
    nothing. *)
Theorem getJackpot_creates_the_jackpot_once w :
  isConnected w = true -> healthy w ->
  exists r w1,
    getJackpot w = (Returns r, w1) /\
    JackpotOut.id r = 1%float /\
    jackpotAmount (db w1) = Some (JackpotOut.amount r) /\
    (forall j rest, jackpots (db w) = j :: rest ->
       JackpotOut.amount r = Jackpot.amount j /\ db w1 = db w) /\
    (jackpots (db w) = [] ->
       JackpotOut.amount r = "0.10000000" /\
       List.length (jackpots (db w1)) = 1%nat) /\
    exists r2 w2,
      getJackpot w1 = (Returns r2, w2) /\ db w2 = db w1 /\
      JackpotOut.amount r2 = JackpotOut.amount r.
Proof.
  intros Hc Hh. unfold jackpotAmount, getJackpot. unfold_M.
  rewrite Hc; simpl. rewrite (Hh 0%nat); simpl. rewrite findOne_any.
  destruct (jackpots (db w)) as [|j rest] eqn:Ej; simpl.
  - unfold behead; rewrite (Hh 1%nat); simpl. rewrite Ej; simpl.
    do 2 eexists. split; [reflexivity|]. simpl.
    split; [reflexivity|]. split; [reflexivity|].
    split; [intros; discriminate|]. split; [intros; split; reflexivity|].
    rewrite Hc; simpl. unfold behead; rewrite (Hh 2%nat); simpl.
    do 2 eexists. split; [reflexivity|]. split; reflexivity.
  - do 2 eexists. split; [reflexivity|]. simpl. rewrite Ej; simpl.
    split; [reflexivity|]. split; [reflexivity|].
    split; [intros j' rest' E; injection E as <- <-; split; reflexivity|].
    split; [intros; discriminate|].
    rewrite Hc; simpl. unfold behead; rewrite (Hh 1%nat); simpl.
    rewrite Ej; simpl.
    do 2 eexists. split; [reflexivity|]. split; reflexivity.
Qed.

Lemma getJackpot_creates_the_jackpot_sample :
  exists r w1,
    getJackpot Scenario.empty = (Returns r, w1) /\
    JackpotOut.amount r = "0.10000000" /\
    List.length (jackpots (db w1)) = 1%nat.
Proof.
  destruct (@getJackpot_creates_the_jackpot_once Scenario.empty eq_refl
              (fun _ => eq_refl))
    as (r & w1 & Hrun & _ & _ & _ & Hnone & _).
  exists r, w1. split; [exact Hrun | exact (Hnone eq_refl)].
Defined.



(* ---------------- the farm ---------------- *)

Lemma filter_snoc {D : Type} (p : D -> bool) (l : list D) (x : D) :
  filter p (l ++ [x]) = (filter p l ++ (if p x then [x] else []))%list.
Proof. rewrite filter_app. reflexivity. Qed.

(** X15: a cat created for a user joins that user's farm. On a connected
    storage whose store answers and whose generated identifier is not in
    use, when the production is not NaN, createFarmCat returns the cat at
    level 1 with the production and the userId of its argument, and
    getFarmData for that userId then lists one more cat, the new one last,
    with a totalProduction that is the one before plus the production of the
    new cat. A production that is NaN is refused: createFarmCat reports the
    validation error, returns null and stores nothing. *)
Theorem createFarmCat_then_getFarmData w data owner :
  isConnected w = true -> healthy w ->
  ObjectId.from_string (id_string (InsertFarmCat.userId data)) = Some owner ->
  existsb (has_id FarmCats (fresh w 0%nat)) (farmCats (db w)) = false ->
  (is_nan (InsertFarmCat.production data) = false ->
   exists before w0 cat w1 after w2,
     getFarmData (InsertFarmCat.userId data) w = (Returns before, w0) /\
     createFarmCat data w = (Returns (Some cat), w1) /\
     getFarmData (InsertFarmCat.userId data) w1 = (Returns after, w2) /\
     FarmCatOut.level cat = 1%float /\
     FarmCatOut.production cat = InsertFarmCat.production data /\
     FarmCatOut.userId cat = InsertFarmCat.userId data /\
     FarmCatOut.catId cat = InsertFarmCat.catId data /\
     FarmData.totalProduction after =
       (FarmData.totalProduction before
        + InsertFarmCat.production data)%float /\
     exists listed,
       FarmData.cats after = (FarmData.cats before ++ [listed])%list /\
       FarmCatOut.id listed = FarmCatOut.id cat /\
       FarmCatOut.production listed = InsertFarmCat.production data) /\
  (is_nan (InsertFarmCat.production data) = true ->
   exists w1,
     createFarmCat data w = (Returns None, w1) /\
     db w1 = db w /\
     console w1 =
     (console w ++ [("Error creating farm cat:", ValidationError)])%list).
Proof.
  intros Hc Hh Ho Hfresh. split; intros Hnan.
  - unfold getFarmData, createFarmCat, number_path. unfold_M.
    rewrite Hc, Ho, Hnan; simpl. rewrite (Hh 0%nat); simpl.
    rewrite Hfresh; simpl.
    do 6 eexists. split; [reflexivity|]. split; [reflexivity|]. simpl.
    rewrite Hc; simpl. unfold behead; rewrite (Hh 1%nat); simpl.
    rewrite filter_snoc.
    match goal with
    | |- context [if owned_by ?o ?c then _ else _] =>
        replace (owned_by o c) with true
          by (symmetry; apply ObjectId_eqb_refl)
    end.
    split; [reflexivity|]. simpl.
    rewrite fold_left_app, map_app; simpl.
    repeat split. eexists. repeat split.
  - unfold createFarmCat, number_path. unfold_M.
    rewrite Hc, Ho, Hnan; simpl.
    eexists. split; [reflexivity|]. split; reflexivity.
Qed.

Lemma createFarmCat_then_getFarmData_sample :
  (exists w1 cat after w2,
     createFarmCat (InsertFarmCat.make 7%float "royal" 2%float) Sample.world =
     (Returns (Some cat), w1) /\
     getFarmData 7%float w1 = (Returns after, w2) /\
     FarmData.totalProduction after = 2.75%float) /\
  (exists w1,
     createFarmCat (InsertFarmCat.make 7%float "royal" nan) Sample.world =
     (Returns None, w1) /\ db w1 = db Sample.world).
Proof.
  split.
  - destruct (@createFarmCat_then_getFarmData Sample.world
                (InsertFarmCat.make 7%float "royal" 2%float) Sample.oid_7
                eq_refl (fun _ => eq_refl) eq_refl eq_refl) as [H _].
    destruct (H eq_refl)
      as (before & w0 & cat & w1 & after & w2 & H0 & H1 & H2 & _ & _ & _ & _
          & H3 & _).
    exists w1, cat, after, w2. split; [exact H1|]. split; [exact H2|].
    rewrite H3. vm_compute in H0. injection H0 as <- _. reflexivity.
  - destruct (@createFarmCat_then_getFarmData Sample.world
                (InsertFarmCat.make 7%float "royal" nan) Sample.oid_7
                eq_refl (fun _ => eq_refl) eq_refl eq_refl) as [_ H].
    destruct (H eq_refl) as (w1 & H1 & H2 & _).
    exists w1. split; assumption.
Defined.

(** X16: after upgradeFarmCat(id, level, production) on a connected
    storage whose store answers, with a level and a production that are not
    NaN, getFarmCat(id) returns the cat with that level and production; its
    owner, kind and times are as before, and every cat with another
    identifier is as before. A level or a production that is NaN is
    refused: upgradeFarmCat reports the cast error and writes nothing. *)
Theorem upgradeFarmCat_then_getFarmCat w id level production oid cat :
  isConnected w = true ->
  fault w 0%nat = false -> fault w 1%nat = false ->
  ObjectId.from_string (id_string id) = Some oid ->
  List.find (has_id FarmCats oid) (farmCats (db w)) = Some cat ->
  (is_nan level = false -> is_nan production = false ->
   exists w1 w2 r,
     upgradeFarmCat id level production w = (Returns tt, w1) /\
     getFarmCat id w1 = (Returns (Some r), w2) /\
     FarmCatOut.level r = level /\
     FarmCatOut.production r = production /\
     (FarmCatOut.id r, FarmCatOut.userId r, FarmCatOut.catId r,
      FarmCatOut.lastClaimed r, FarmCatOut.createdAt r) =
     (numeric_id oid, owner_id (FarmCat.userId cat), FarmCat.catId cat,
      FarmCat.lastClaimed cat, FarmCat.createdAt cat) /\
     (forall other, other <> oid ->
        List.find (has_id FarmCats other) (farmCats (db w1)) =
        List.find (has_id FarmCats other) (farmCats (db w)))) /\
  (is_nan level = true \/ is_nan production = true ->
   exists w1,
     upgradeFarmCat id level production w = (Returns tt, w1) /\
     db w1 = db w /\
     console w1 =
     (console w ++ [("Error upgrading farm cat:", CastError)])%list).
Proof.
  intros Hc Hf0 Hf1 Ho Hcat. split.
  - intros Hl Hp.
    unfold upgradeFarmCat, getFarmCat, number_path. unfold_M.
    rewrite Hc, Ho, Hl, Hp; simpl. rewrite Hf0; simpl.
    do 3 eexists. split; [reflexivity|]. simpl. rewrite Hc; simpl.
    unfold behead; rewrite Hf1; simpl.
    rewrite find_update_first_same by (intros d Hd; exact Hd).
    rewrite Hcat; simpl.
    assert (FarmCat._id cat = oid) as Hid.
    { apply find_some in Hcat. destruct Hcat as [_ Hcat].
      apply ObjectId_eqb_eq in Hcat. exact Hcat. }
    split; [reflexivity|]. split; [reflexivity|]. split; [reflexivity|].
    split; [subst oid; reflexivity|].
    intros other Hother. apply find_update_first_other.
    intros d Hd. unfold has_id in *; simpl in *.
    apply ObjectId_eqb_eq in Hd. rewrite Hd.
    split; apply ObjectId_eqb_neq; congruence.
  - intros Hnan.
    assert (number_path level && number_path production = false) as Hn.
    { unfold number_path. destruct Hnan as [-> | ->]; simpl;
        [reflexivity | apply andb_false_r]. }
    unfold upgradeFarmCat. unfold_M. rewrite Hc, Ho, Hn; simpl.
    eexists. split; [reflexivity|]. split; reflexivity.
Qed.

Lemma upgradeFarmCat_then_getFarmCat_sample :
  (exists w1 w2 r,
     upgradeFarmCat 2%float 3%float 0.75%float Sample.world =
     (Returns tt, w1) /\
     getFarmCat 2%float w1 = (Returns (Some r), w2) /\
     FarmCatOut.level r = 3%float /\ FarmCatOut.production r = 0.75%float) /\
  (exists w1,
     upgradeFarmCat 2%float 3%float nan Sample.world = (Returns tt, w1) /\
     db w1 = db Sample.world).
Proof.
  split.
  - destruct (@upgradeFarmCat_then_getFarmCat Sample.world 2%float 3%float
                0.75%float Sample.oid_2 Sample.cat_bob_2
                eq_refl eq_refl eq_refl eq_refl eq_refl) as [H _].
    destruct (H eq_refl eq_refl) as (w1 & w2 & r & H1 & H2 & H3 & H4 & _).
    exists w1, w2, r. repeat split; assumption.
  - destruct (@upgradeFarmCat_then_getFarmCat Sample.world 2%float 3%float
                nan Sample.oid_2 Sample.cat_bob_2
                eq_refl eq_refl eq_refl eq_refl eq_refl) as [_ H].
    destruct (H (or_intror eq_refl)) as (w1 & H1 & H2 & _).
    exists w1. split; assumption.
Defined.

(* ---------------- approving a deposit twice ---------------- *)

Lemma updateDepositStatus_approved_world w id oid d owner :
  isConnected w = true -> healthy w ->
  ObjectId.from_string (id_string id) = Some oid ->
  List.find (has_id Deposits oid) (deposits (db w)) = Some d ->
  List.find (has_id Users (Deposit.userId d)) (users (db w)) = Some owner ->
  decimal_reference (Deposit.userId d) ->
  let w1 := snd (updateDepositStatus id "approved" w) in
  isConnected w1 = true /\ healthy w1 /\
  deposits (db w1) =
    update_first (has_id Deposits oid) (set_deposit_status "approved")
                 (deposits (db w)) /\
  users (db w1) =
    update_first (has_id Users (Deposit.userId d))
      (set_balances (toFixed (parseFloat (User.balance owner)
                              + parseFloat (Deposit.amount d))%float 2) None)
      (users (db w)).
Proof.
  intros Hc Hh Ho Hd Hu Hr. unfold decimal_reference in Hr.
  unfold updateDepositStatus, updateUserBalance. unfold_M.
  repeat first [ rewrite Hc | rewrite Ho | rewrite Hd | rewrite Hu
               | rewrite Hr | rewrite Hh | progress simpl
               | progress unfold behead ].
  repeat split. intros n. simpl. apply Hh.
Qed.

(** X17: nothing keeps a deposit from being approved twice. On a
    connected storage whose store answers, approving a deposit whose owner
    reference reads back as a decimal number marks it approved, and
    approving it again adds its amount to the owner's balance a second
    time. *)
Theorem updateDepositStatus_credits_each_approval w id oid d owner :
  isConnected w = true -> healthy w ->
  ObjectId.from_string (id_string id) = Some oid ->
  List.find (has_id Deposits oid) (deposits (db w)) = Some d ->
  List.find (has_id Users (Deposit.userId d)) (users (db w)) = Some owner ->
  decimal_reference (Deposit.userId d) ->
  let w1 := snd (updateDepositStatus id "approved" w) in
  let w2 := snd (updateDepositStatus id "approved" w1) in
  let once :=
    toFixed (parseFloat (User.balance owner)
             + parseFloat (Deposit.amount d))%float 2 in
  option_map Deposit.status
    (List.find (has_id Deposits oid) (deposits (db w1))) = Some "approved" /\
  option_map User.balance
    (List.find (has_id Users (Deposit.userId d)) (users (db w1))) =
  Some once /\
  option_map User.balance
    (List.find (has_id Users (Deposit.userId d)) (users (db w2))) =
  Some (toFixed (parseFloat once + parseFloat (Deposit.amount d))%float 2).
Proof.
  intros Hc Hh Ho Hd Hu Hr w1 w2 once.
  destruct (updateDepositStatus_approved_world _ Hc Hh Ho Hd Hu Hr)
    as (Hc1 & Hh1 & Hd1 & Hu1). fold w1 in Hc1, Hh1, Hd1, Hu1.
  assert (List.find (has_id Deposits oid) (deposits (db w1)) =
          Some (set_deposit_status "approved" d)) as Hd1'.
  { rewrite Hd1, find_update_first_same by (intros x Hx; exact Hx).
    rewrite Hd. reflexivity. }
  assert (List.find (has_id Users (Deposit.userId d)) (users (db w1)) =
          Some (set_balances once None owner)) as Hu1'.
  { rewrite Hu1, find_update_first_same by (intros x Hx; exact Hx).
    rewrite Hu. reflexivity. }
  split; [rewrite Hd1'; reflexivity|]. split; [rewrite Hu1'; reflexivity|].
  destruct (@updateDepositStatus_approved_world w1 id oid
              (set_deposit_status "approved" d) (set_balances once None owner)
              Hc1 Hh1 Ho Hd1' Hu1' Hr) as (_ & _ & _ & Hu2).
  fold w2 in Hu2. rewrite Hu2.
  rewrite find_update_first_same by (intros x Hx; exact Hx).
  simpl. rewrite Hu1'. reflexivity.
Qed.

Lemma updateDepositStatus_credits_each_approval_sample :
  let w1 := snd (updateDepositStatus 2%float "approved" Sample.world) in
  let w2 := snd (updateDepositStatus 2%float "approved" w1) in
  option_map User.balance
    (List.find (has_id Users Sample.oid_7) (users (db w2))) = Some "13.10".
Proof.
  destruct (@updateDepositStatus_credits_each_approval Sample.world 2%float
              Sample.oid_2 Sample.deposit_bob Sample.bob
              eq_refl (fun _ => eq_refl) eq_refl eq_refl eq_refl eq_refl)
    as (_ & _ & H).
  exact H.
Defined.

(* ---------------- connecting and the default data ---------------- *)

Import Startup.

(** X18: init never throws, whatever connectToMongoDB and the store do.
    When connectToMongoDB answers false or throws, the storage is left not
    connected and init itself writes nothing; when it answers true the
    storage is connected, even if the default data could not be written. *)
Theorem init_never_throws bcrypt connectToMongoDB w :
  exists w',
    init bcrypt connectToMongoDB w = (Returns tt, w') /\
    (forall w1, connectToMongoDB w = (Returns true, w1) ->
       isConnected w' = true) /\
    (forall w1, connectToMongoDB w = (Returns false, w1) ->
       isConnected w' = false /\ db w' = db w1 /\ console w' = console w1) /\
    (forall e w1, connectToMongoDB w = (Throws e, w1) ->
       isConnected w' = false /\ db w' = db w1 /\
       exists msg, console w' = (console w1 ++ [(msg, e)])%list).
Proof.
  unfold init, initializeDefaultData, set_isConnected, bcrypt_hash.
  unfold_M.
  destruct (connectToMongoDB w) as [[[|]|e] w1]; simpl.
  - case_goal; eexists; (split; [reflexivity|]); simpl;
      (split; [reflexivity|]); split; intros; discriminate.
  - eexists. split; [reflexivity|]. simpl.
    split; [intros; discriminate|].
    split; [intros w2 E; injection E as <-; repeat split|].
    intros; discriminate.
  - eexists. split; [reflexivity|]. simpl.
    split; [intros; discriminate|]. split; [intros; discriminate|].
    intros e' w2 E. injection E as <- <-. repeat split.
    eexists; reflexivity.
Qed.

(** X19: the default data. When connectToMongoDB answers true and the
    store answers, init leaves a jackpot document and a user named admin in
    the database: a missing jackpot is stored with the amount 0.10000000, a
    missing admin is stored as an administrator who is not banned, with the
    balance 10000.00, the meowBalance 1.00000000 and the bcrypt hash
    (10 rounds) of admin1234 as password. What exists is kept: with a
    jackpot document and an admin user already there, init changes
    nothing. *)
Theorem init_provides_the_default_data bcrypt connectToMongoDB w w1 :
  connectToMongoDB w = (Returns true, w1) ->
  healthy w1 ->
  (forall n, existsb (has_id Users (fresh w1 n)) (users (db w1)) = false) ->
  let w' := snd (init bcrypt connectToMongoDB w) in
  let is_admin := fun u => String.eqb (User.username u) "admin" in
  isConnected w' = true /\
  (jackpots (db w1) <> [] -> jackpots (db w') = jackpots (db w1)) /\
  (jackpots (db w1) = [] ->
   exists j, jackpots (db w') = [j] /\ Jackpot.amount j = "0.10000000" /\
             Jackpot.lastWinnerId j = None) /\
  (List.find is_admin (users (db w1)) <> None ->
   users (db w') = users (db w1)) /\
  (List.find is_admin (users (db w1)) = None ->
   exists admin s,
     users (db w') = (users (db w1) ++ [admin])%list /\
     List.find is_admin (users (db w')) = Some admin /\
     User.password admin = bcrypt s "admin1234" 10%N /\
     User.balance admin = "10000.00" /\
     User.meowBalance admin = "1.00000000" /\
     User.isAdmin admin = true /\ User.isBanned admin = false) /\
  deposits (db w') = deposits (db w1) /\
  withdrawals (db w') = withdrawals (db w1) /\
  games (db w') = games (db w1) /\
  farmCats (db w') = farmCats (db w1).
Proof.
  intros Hconn Hh Hfresh w' is_admin. subst w'.
  unfold init, initializeDefaultData, set_isConnected, bcrypt_hash.
  unfold_M. rewrite Hconn; simpl. rewrite (Hh 0%nat); simpl.
  rewrite findOne_any.
  destruct (jackpots (db w1)) as [|j rest] eqn:Ej;
    destruct (List.find is_admin (users (db w1))) as [a|] eqn:Ea;
    unfold is_admin in Ea;
    repeat first [ rewrite Hh | rewrite Ej | rewrite Ea | rewrite Hfresh
                 | progress unfold behead | progress simpl ].
  - split; [reflexivity|]. split; [intros H; congruence|].
    split; [intros _; eexists; repeat split|].
    split; [reflexivity|]. split; [intros; discriminate|]. repeat split.
  - split; [reflexivity|]. split; [intros H; congruence|].
    split; [intros _; eexists; repeat split|].
    split; [intros H; congruence|].
    split; [|repeat split]. intros _. do 2 eexists.
    split; [reflexivity|].
    split; [rewrite (find_app_none _ _ _ Ea); reflexivity|].
    repeat split.
  - split; [reflexivity|]. split; [reflexivity|].
    split; [intros; discriminate|].
    split; [reflexivity|]. split; [intros; discriminate|]. repeat split.
  - split; [reflexivity|]. split; [reflexivity|].
    split; [intros; discriminate|].
    split; [intros H; congruence|].
    split; [|repeat split]. intros _. do 2 eexists.
    split; [reflexivity|].
    split; [rewrite (find_app_none _ _ _ Ea); reflexivity|].
    repeat split.
Qed.

Lemma init_provides_the_default_data_sample :
  let w' := snd (init Sample.toy_bcrypt (ret true) Scenario.empty) in
  map Jackpot.amount (jackpots (db w')) = ["0.10000000"] /\
  map (fun u => (User.username u, User.password u, User.balance u))
      (users (db w')) = [("admin", "$2b$salt$admin1234", "10000.00")] /\
  db (snd (init Sample.toy_bcrypt (ret true) w')) = db w'.
Proof.
  destruct (@init_provides_the_default_data Sample.toy_bcrypt (ret true)
              Scenario.empty Scenario.empty eq_refl (fun _ => eq_refl)
              (fun _ => eq_refl))
    as (_ & _ & Hj & _ & Ha & _).
  destruct (Hj eq_refl) as (j & Ej & Hamount & _).
  destruct (Ha eq_refl) as (admin & s & Eu & _).
  cbv zeta. split; [|split].
  - rewrite Ej. simpl. rewrite Hamount. reflexivity.
  - reflexivity.
  - reflexivity.
Defined.

Lemma init_never_throws_sample :
  exists w',
    init Sample.toy_bcrypt (throw MongoError) Sample.world =
    (Returns tt, w') /\ isConnected w' = false.
Proof.
  destruct (init_never_throws Sample.toy_bcrypt (throw MongoError)
              Sample.world) as (w' & Hrun & _ & _ & Hthrow).
  exists w'. split; [exact Hrun|].
  apply (Hthrow MongoError Sample.world eq_refl).
Defined.

(* ---------------- the music manager: playing and enabling -------------- *)

Import Music.

Lemma enabled_loadCurrentTrack m : enabled (loadCurrentTrack m) = enabled m.
Proof.
  unfold loadCurrentTrack.
  destruct (audio m); [destruct (availableTracks m)|]; reflexivity.
Qed.

Lemma enabled_advance m : enabled (advance m) = enabled m.
Proof. unfold advance. rewrite enabled_loadCurrentTrack. reflexivity. Qed.

Lemma enabled_play fuel m : enabled (play fuel m) = enabled m.
Proof.
  revert m; induction fuel as [|fuel IH]; intros m; simpl.
  - destruct (audio m); [|reflexivity].
    destruct (negb (enabled m)); [reflexivity|].
    destruct (negb (paused a)); [reflexivity|].
    destruct (playable m 0%nat); reflexivity.
  - destruct (audio m); [|reflexivity].
    destruct (negb (enabled m)); [reflexivity|].
    destruct (negb (paused a)); [reflexivity|].
    destruct (playable m 0%nat); [reflexivity|].
    destruct (availableTracks m); [reflexivity|].
    destruct (enabled (advance (next_playable m))).
    + rewrite IH, enabled_advance. reflexivity.
    + rewrite enabled_advance. reflexivity.
Qed.

Lemma enabled_playNextTrack fuel m :
  enabled (playNextTrack fuel m) = enabled m.
Proof.
  unfold playNextTrack. destruct (availableTracks m); [reflexivity|].
  destruct (enabled (advance m)); rewrite ?enabled_play, enabled_advance;
    reflexivity.
Qed.

Lemma enabled_pause m : enabled (pause m) = enabled m.
Proof.
  unfold pause. destruct (audio m) as [a|]; [|reflexivity].
  destruct (negb (paused a)); reflexivity.
Qed.

Lemma enabled_initializeAudio m : enabled (initializeAudio m) = enabled m.
Proof.
  unfold initializeAudio. destruct (isInitialized m); [reflexivity|].
  cbv zeta.
  destruct (availableTracks (with_availableTracks _ m)) eqn:E;
    [reflexivity|].
  destruct (audio (loadCurrentTrack _)) eqn:Ea;
    [|rewrite enabled_loadCurrentTrack; reflexivity].
  destruct (set_audio_volume _ a);
    simpl; rewrite ?enabled_loadCurrentTrack; reflexivity.
Qed.

Lemma enabled_setVolume v m : enabled (snd (setVolume v m)) = enabled m.
Proof.
  unfold setVolume. cbv zeta. simpl audio. simpl volume.
  destruct (audio m) as [a|]; [|reflexivity].
  destruct (set_audio_volume _ a); reflexivity.
Qed.

Lemma enabled_step fuel m o :
  is_setEnabled o = false -> enabled (step fuel m o) = enabled m.
Proof.
  destruct o; simpl; intros H; try discriminate H.
  - apply enabled_initializeAudio.
  - apply enabled_play.
  - apply enabled_pause.
  - apply enabled_setVolume.
  - apply enabled_playNextTrack.
  - apply enabled_playNextTrack.
Qed.

Lemma isPlaying_play fuel m :
  isPlaying (play fuel m) = true -> isPlaying m = true \/ enabled m = true.
Proof.
  destruct (enabled m) eqn:E; [right; reflexivity|]. left. revert H.
  destruct fuel; simpl; destruct (audio m) eqn:Ea; rewrite ?E; simpl;
    unfold isPlaying; rewrite ?Ea; auto.
Qed.

Lemma isPlaying_loadCurrentTrack m :
  isPlaying (loadCurrentTrack m) = true -> isPlaying m = true.
Proof.
  unfold loadCurrentTrack.
  destruct (audio m) eqn:Ea; [destruct (availableTracks m)|]; auto.
  unfold isPlaying; simpl. discriminate.
Qed.

Lemma isPlaying_advance m :
  isPlaying (advance m) = true -> isPlaying m = true.
Proof.
  unfold advance. intros H. apply isPlaying_loadCurrentTrack in H. exact H.
Qed.

Lemma isPlaying_playNextTrack fuel m :
  isPlaying (playNextTrack fuel m) = true ->
  isPlaying m = true \/ enabled m = true.
Proof.
  unfold playNextTrack. destruct (availableTracks m); [auto|].
  destruct (enabled (advance m)) eqn:E.
  - rewrite enabled_advance in E. auto.
  - intros H. left. apply isPlaying_advance, H.
Qed.

Lemma isPlaying_pause m : isPlaying (pause m) = false.
Proof.
  unfold pause, isPlaying.
  destruct (audio m) as [a|] eqn:Ea; [|rewrite Ea; reflexivity].
  destruct (paused a) eqn:Ep; simpl; [rewrite Ea, Ep|]; reflexivity.
Qed.

Lemma paused_loadCurrentTrack m a a' :
  audio m = Some a -> paused a = true ->
  audio (loadCurrentTrack m) = Some a' -> paused a' = true.
Proof.
  unfold loadCurrentTrack. intros Ea Hp. rewrite Ea.
  destruct (availableTracks m); simpl.
  - rewrite Ea. intros E; injection E as <-. exact Hp.
  - intros E; injection E as <-. reflexivity.
Qed.

Lemma paused_set_audio_volume v a a' :
  set_audio_volume v a = Some a' -> paused a' = paused a.
Proof.
  unfold set_audio_volume.
  destruct ((0 <=? v)%float && (v <=? 1)%float); [|discriminate].
  intros E; injection E as <-. reflexivity.
Qed.

Lemma isPlaying_initializeAudio m :
  isPlaying (initializeAudio m) = true -> isPlaying m = true.
Proof.
  unfold initializeAudio. destruct (isInitialized m); [auto|].
  cbv zeta.
  destruct (availableTracks (with_availableTracks _ m)) eqn:E; [auto|].
  destruct (audio (loadCurrentTrack _)) as [a|] eqn:Ea.
  - assert (paused a = true) as Hp
        by (eapply paused_loadCurrentTrack; [| |exact Ea]; reflexivity).
    destruct (set_audio_volume _ a) as [a'|] eqn:Ev.
    + apply paused_set_audio_volume in Ev.
      unfold isPlaying; simpl. rewrite Ev, Hp. discriminate.
    + unfold isPlaying. rewrite Ea, Hp. discriminate.
  - unfold isPlaying. rewrite Ea. discriminate.
Qed.

Lemma isPlaying_setVolume v m :
  isPlaying (snd (setVolume v m)) = isPlaying m.
Proof.
  unfold setVolume. cbv zeta. simpl audio. simpl volume.
  destruct (audio m) as [a|] eqn:Ea;
    [|unfold isPlaying; simpl; rewrite Ea; reflexivity].
  unfold set_audio_volume.
  match goal with |- context [if ?c then _ else _] => destruct c end;
    unfold isPlaying; simpl; rewrite ?Ea; reflexivity.
Qed.

Lemma step_plays_only_while_enabled fuel m o :
  (isPlaying m = true -> enabled m = true) ->
  isPlaying (step fuel m o) = true -> enabled (step fuel m o) = true.
Proof.
  intros Hm. destruct o; simpl.
  - rewrite enabled_initializeAudio. intros H.
    apply Hm, isPlaying_initializeAudio, H.
  - rewrite enabled_play. intros H.
    destruct (isPlaying_play _ _ H); auto.
  - rewrite isPlaying_pause. discriminate.
  - rewrite enabled_setVolume, isPlaying_setVolume. exact Hm.
  - unfold setEnabled. cbv zeta. destruct b.
    + rewrite enabled_play. reflexivity.
    + rewrite isPlaying_pause. discriminate.
  - rewrite enabled_playNextTrack. intros H.
    destruct (isPlaying_playNextTrack _ _ H); auto.
  - rewrite enabled_playNextTrack. intros H.
    destruct (isPlaying_playNextTrack _ _ H); auto.
Qed.

(** X20: the music plays only while it is enabled. After any sequence of
    operations on a new manager, isPlaying() implies isEnabled();
    setEnabled(false) leaves the music not playing; and only setEnabled
    changes what isEnabled() returns. *)
Theorem music_plays_only_while_enabled :
  (forall fuel playable fetch operations,
     let m := after fuel playable fetch operations in
     isPlaying m = true -> isEnabled m = true) /\
  (forall fuel m, isPlaying (setEnabled fuel false m) = false /\
                  isEnabled (setEnabled fuel false m) = false) /\
  (forall fuel m o,
     is_setEnabled o = false -> isEnabled (step fuel m o) = isEnabled m).
Proof.
  split; [|split].
  - intros fuel playable fetch operations. unfold after, isEnabled.
    assert (isPlaying (created playable fetch) = true ->
            enabled (created playable fetch) = true) as H0 by reflexivity.
    revert H0. generalize (created playable fetch) as m.
    induction operations as [|o r IH]; intros m Hm; simpl; [exact Hm|].
    apply IH. apply step_plays_only_while_enabled, Hm.
  - intros fuel m. unfold setEnabled, isEnabled. cbv zeta.
    rewrite isPlaying_pause, enabled_pause. split; reflexivity.
  - intros fuel m o. apply enabled_step.
Qed.

Lemma music_plays_only_while_enabled_sample :
  let m := after 3 (fun _ => true) (fun _ => Some true)
                 [InitializeAudio; Play; SetEnabled false; Ended; Play] in
  isPlaying m = false /\ isEnabled m = false /\
  isPlaying (after 3 (fun _ => true) (fun _ => Some true)
                   [InitializeAudio; Play]) = true.
Proof.
  destruct music_plays_only_while_enabled as (H & _ & _).
  pose proof (H 3%nat (fun _ => true) (fun _ => Some true)
                [InitializeAudio; Play] eq_refl) as He.
  cbv zeta. repeat split.
Defined.

(* ---------------- the music manager: volume of the element ------------- *)

Lemma audio_volume_loadCurrentTrack m :
  option_map audio_volume (audio (loadCurrentTrack m)) =
  option_map audio_volume (audio m).
Proof.
  unfold loadCurrentTrack.
  destruct (audio m) eqn:Ea; [destruct (availableTracks m)|]; simpl;
    rewrite ?Ea; reflexivity.
Qed.

Lemma audio_volume_advance m :
  option_map audio_volume (audio (advance m)) =
  option_map audio_volume (audio m).
Proof. unfold advance. rewrite audio_volume_loadCurrentTrack. reflexivity. Qed.

Lemma audio_volume_play fuel m :
  option_map audio_volume (audio (play fuel m)) =
  option_map audio_volume (audio m).
Proof.
  revert m; induction fuel as [|fuel IH]; intros m; simpl.
  - destruct (audio m) eqn:Ea; [|rewrite Ea; reflexivity].
    destruct (negb (enabled m)); [rewrite Ea; reflexivity|].
    destruct (negb (paused a)); [rewrite Ea; reflexivity|].
    destruct (playable m 0%nat); simpl; rewrite ?Ea; reflexivity.
  - destruct (audio m) eqn:Ea; [|rewrite Ea; reflexivity].
    destruct (negb (enabled m)); [rewrite Ea; reflexivity|].
    destruct (negb (paused a)); [rewrite Ea; reflexivity|].
    destruct (playable m 0%nat); [reflexivity|].
    destruct (availableTracks m); [simpl; rewrite Ea; reflexivity|].
    destruct (enabled (advance (next_playable m))).
    + rewrite IH, audio_volume_advance. simpl. rewrite Ea. reflexivity.
    + rewrite audio_volume_advance. simpl. rewrite Ea. reflexivity.
Qed.

Lemma audio_volume_playNextTrack fuel m :
  option_map audio_volume (audio (playNextTrack fuel m)) =
  option_map audio_volume (audio m).
Proof.
  unfold playNextTrack. destruct (availableTracks m); [reflexivity|].
  destruct (enabled (advance m));
    rewrite ?audio_volume_play, audio_volume_advance; reflexivity.
Qed.

Lemma audio_volume_pause m :
  option_map audio_volume (audio (pause m)) =
  option_map audio_volume (audio m).
Proof.
  unfold pause. destruct (audio m) as [a|] eqn:Ea; [|rewrite Ea; reflexivity].
  destruct (negb (paused a)); simpl; rewrite ?Ea; reflexivity.
Qed.

Lemma audio_volume_initializeAudio m :
  in_unit_interval (volume m) = true ->
  option_map audio_volume (audio m) = None \/
  option_map audio_volume (audio m) = Some (volume m) ->
  option_map audio_volume (audio (initializeAudio m)) = None \/
  option_map audio_volume (audio (initializeAudio m)) = Some (volume m).
Proof.
  intros Hv Hm.
  unfold initializeAudio. destruct (isInitialized m); [exact Hm|].
  cbv zeta.
  destruct (availableTracks (with_availableTracks _ m)) eqn:E; [exact Hm|].
  destruct (audio (loadCurrentTrack _)) as [a|] eqn:Ea.
  - unfold set_audio_volume. rewrite volume_loadCurrentTrack. simpl volume.
    unfold in_unit_interval in Hv. rewrite Hv. right. reflexivity.
  - left. rewrite Ea. reflexivity.
Qed.

Lemma audio_volume_setVolume v m :
  is_nan v = false ->
  option_map audio_volume (audio m) = None \/
  option_map audio_volume (audio m) = Some (volume m) ->
  option_map audio_volume (audio (snd (setVolume v m))) = None \/
  option_map audio_volume (audio (snd (setVolume v m))) =
  Some (volume (snd (setVolume v m))).
Proof.
  intros Hv Hm. pose proof (clamp_in_unit_interval _ Hv) as Hc.
  unfold setVolume. cbv zeta. simpl audio. simpl volume.
  destruct (audio m) as [a|] eqn:Ea;
    [|left; simpl; rewrite Ea; reflexivity].
  unfold set_audio_volume. unfold in_unit_interval in Hc. rewrite Hc.
  right. reflexivity.
Qed.

Lemma step_keeps_the_element_volume fuel m o :
  real_argument o = true ->
  in_unit_interval (volume m) = true ->
  option_map audio_volume (audio m) = None \/
  option_map audio_volume (audio m) = Some (volume m) ->
  option_map audio_volume (audio (step fuel m o)) = None \/
  option_map audio_volume (audio (step fuel m o)) =
  Some (volume (step fuel m o)).
Proof.
  intros Hr Hv Hm. destruct o; simpl in *.
  - rewrite volume_initializeAudio.
    apply audio_volume_initializeAudio; assumption.
  - rewrite volume_play, audio_volume_play. exact Hm.
  - rewrite volume_pause, audio_volume_pause. exact Hm.
  - apply audio_volume_setVolume; [apply negb_true_iff, Hr | exact Hm].
  - unfold setEnabled. cbv zeta. destruct b.
    + rewrite volume_play, audio_volume_play. exact Hm.
    + rewrite volume_pause, audio_volume_pause. exact Hm.
  - rewrite volume_playNextTrack, audio_volume_playNextTrack. exact Hm.
  - rewrite volume_playNextTrack, audio_volume_playNextTrack. exact Hm.
Qed.

(** X21: the element plays at the volume getVolume() reports: after any
    sequence of operations on a new manager whose setVolume arguments are
    not NaN, the volume of the audio element, when there is one, is the
    manager's volume. With NaN the two part: setVolume(NaN) stores NaN as
    the manager's volume and ends abruptly on the assignment to the
    element, which keeps its volume. *)
Theorem element_volume_is_the_manager_volume :
  (forall fuel playable fetch operations a,
     forallb real_argument operations = true ->
     let m := after fuel playable fetch operations in
     audio m = Some a -> audio_volume a = getVolume m) /\
  (forall m a,
     audio m = Some a ->
     fst (setVolume nan m) = Abrupt /\
     audio (snd (setVolume nan m)) = Some a /\
     is_nan (getVolume (snd (setVolume nan m))) = true).
Proof.
  split.
  - intros fuel playable fetch operations a Hall m. subst m.
    unfold after, getVolume.
    assert (in_unit_interval (volume (created playable fetch)) = true /\
            (option_map audio_volume (audio (created playable fetch)) = None
             \/ option_map audio_volume (audio (created playable fetch)) =
                Some (volume (created playable fetch)))) as H0
        by (split; [reflexivity | left; reflexivity]).
    revert H0 Hall. generalize (created playable fetch) as m.
    induction operations as [|o r IH]; intros m [Hv Hm] Hall; simpl.
    + intros Ea. rewrite Ea in Hm. simpl in Hm.
      destruct Hm as [Hm|Hm]; congruence.
    + simpl in Hall. apply andb_prop in Hall. destruct Hall as [Ho Hr].
      apply IH; [split|exact Hr].
      * apply step_keeps_unit_interval; assumption.
      * apply step_keeps_the_element_volume; assumption.
  - intros m a Ea. unfold setVolume, getVolume. cbv zeta.
    simpl audio. simpl volume. rewrite Ea.
    replace (Math_min 1 (Math_max 0 nan))%float with nan by reflexivity.
    simpl. split; [reflexivity|]. split; [exact Ea | reflexivity].
Qed.

Lemma element_volume_sample :
  let m := after 3 (fun _ => true) (fun _ => Some true)
                 [InitializeAudio; SetVolume 7%float; Play;
                  SetVolume 0.25%float] in
  option_map audio_volume (audio m) = Some 0.25%float /\
  getVolume m = 0.25%float.
Proof.
  destruct element_volume_is_the_manager_volume as (H & _).
  cbv zeta.
  destruct (audio (after 3 (fun _ => true) (fun _ => Some true)
                     [InitializeAudio; SetVolume 7%float; Play;
                      SetVolume 0.25%float])) as [a|] eqn:Ea.
  - cbn [option_map].
    rewrite (H 3%nat (fun _ => true) (fun _ => Some true)
                [InitializeAudio; SetVolume 7%float; Play;
                 SetVolume 0.25%float] a eq_refl Ea).
    split; reflexivity.
  - vm_compute in Ea. discriminate Ea.
Defined.

(* ---------------- the music manager: the current track ---------------- *)

Lemma detectAvailableTracks_filter m :
  detectAvailableTracks m = filter (answers_ok (fetch m)) candidates.
Proof.
  unfold detectAvailableTracks, candidates.
  assert (forall name, found m name =
                       if answers_ok (fetch m) name then [name] else [])
    as Hfound.
  { intros name. unfold found, answers_ok.
    destruct (fetch m ("/sounds/" ++ name)) as [[|]|]; reflexivity. }
  cbn [filter]. rewrite Hfound.
  assert (forall l, flat_map (fun i => found m (numbered i)) l =
                    filter (answers_ok (fetch m)) (map numbered l)) as Hflat.
  { induction l as [|i r IH]; [reflexivity|].
    cbn [flat_map map filter]. rewrite IH, Hfound.
    destruct (answers_ok (fetch m) (numbered i)); reflexivity. }
  rewrite Hflat.
  destruct (answers_ok (fetch m) "bgm.mp3"); reflexivity.
Qed.

Lemma tracks_invariant_load m a :
  audio m = Some a ->
  availableTracks m = filter (answers_ok (fetch m)) candidates ->
  (currentTrackIndex m < List.length (availableTracks m))%nat ->
  tracks_invariant (loadCurrentTrack m).
Proof.
  intros Ea Ht Hi. unfold loadCurrentTrack. rewrite Ea.
  destruct (availableTracks m) as [|t0 r] eqn:E; [simpl in Hi; lia|].
  unfold tracks_invariant. cbn [audio with_currentTrackName with_audio
    availableTracks currentTrackIndex currentTrackName fetch set_src src].
  rewrite ?E. split; [exact Ht|]. split; [|reflexivity].
  apply nth_error_nth'. exact Hi.
Qed.

Lemma tracks_invariant_advance m a :
  audio m = Some a -> tracks_invariant m -> tracks_invariant (advance m).
Proof.
  intros Ea Hm. unfold tracks_invariant in Hm. rewrite Ea in Hm.
  destruct Hm as (Ht & Hn & _).
  assert (List.length (availableTracks m) <> 0%nat) as Hlen.
  { destruct (availableTracks m); [|discriminate].
    destruct (currentTrackIndex m); discriminate Hn. }
  unfold advance. apply tracks_invariant_load with (a := a).
  - exact Ea.
  - exact Ht.
  - cbn [currentTrackIndex with_currentTrackIndex availableTracks].
    apply Nat.mod_upper_bound, Hlen.
Qed.

Lemma audio_advance m a :
  audio m = Some a -> availableTracks m <> [] ->
  exists a', audio (advance m) = Some a'.
Proof.
  intros Ea Ht. unfold advance, loadCurrentTrack.
  cbn [audio with_currentTrackIndex availableTracks]. rewrite Ea.
  destruct (availableTracks m); [contradiction|].
  eexists. reflexivity.
Qed.

Lemma tracks_invariant_next_playable m :
  tracks_invariant m -> tracks_invariant (next_playable m).
Proof. intros H; exact H. Qed.

Lemma tracks_invariant_play fuel m :
  tracks_invariant m -> tracks_invariant (play fuel m).
Proof.
  revert m; induction fuel as [|fuel IH]; intros m Hm; simpl.
  - destruct (audio m) as [a|] eqn:Ea; [|exact Hm].
    destruct (negb (enabled m)); [exact Hm|].
    destruct (negb (paused a)); [exact Hm|].
    destruct (playable m 0%nat); [|exact Hm].
    unfold tracks_invariant in *. rewrite Ea in Hm. exact Hm.
  - destruct (audio m) as [a|] eqn:Ea; [|exact Hm].
    destruct (negb (enabled m)); [exact Hm|].
    destruct (negb (paused a)); [exact Hm|].
    destruct (playable m 0%nat).
    + unfold tracks_invariant in *. rewrite Ea in Hm. exact Hm.
    + destruct (availableTracks m) eqn:Et; [exact Hm|].
      assert (tracks_invariant (advance (next_playable m))) as Ha
          by (apply tracks_invariant_advance with (a := a);
              [exact Ea | exact Hm]).
      destruct (enabled (advance (next_playable m))); [apply IH|];
        exact Ha.
Qed.

Lemma tracks_invariant_playNextTrack fuel m :
  tracks_invariant m -> tracks_invariant (playNextTrack fuel m).
Proof.
  intros Hm. unfold playNextTrack.
  destruct (availableTracks m) eqn:Et; [exact Hm|].
  destruct (audio m) as [a|] eqn:Ea.
  - assert (tracks_invariant (advance m)) as Ha
        by (apply tracks_invariant_advance with (a := a); assumption).
    destruct (enabled (advance m));
      [apply tracks_invariant_play|]; exact Ha.
  - unfold tracks_invariant in Hm. rewrite Ea in Hm.
    destruct Hm as (Hm & _). congruence.
Qed.

Lemma tracks_invariant_pause m :
  tracks_invariant m -> tracks_invariant (pause m).
Proof.
  intros Hm. unfold pause. destruct (audio m) as [a|] eqn:Ea; [|exact Hm].
  destruct (negb (paused a)); [|exact Hm].
  unfold tracks_invariant in *. rewrite Ea in Hm. exact Hm.
Qed.

Lemma tracks_invariant_setVolume v m :
  tracks_invariant m -> tracks_invariant (snd (setVolume v m)).
Proof.
  intros Hm. unfold setVolume. cbv zeta. simpl audio. simpl volume.
  destruct (audio m) as [a|] eqn:Ea.
  - unfold set_audio_volume.
    match goal with |- context [if ?c then _ else _] => destruct c end;
      unfold tracks_invariant in *; simpl; rewrite Ea in *; exact Hm.
  - unfold tracks_invariant in *; simpl; rewrite Ea in *; exact Hm.
Qed.

Lemma tracks_invariant_initializeAudio m :
  tracks_invariant m -> tracks_invariant (initializeAudio m).
Proof.
  intros Hm. unfold initializeAudio. destruct (isInitialized m); [exact Hm|].
  cbv zeta. cbn [availableTracks with_availableTracks].
  pose proof (detectAvailableTracks_filter m) as Hd.
  destruct (detectAvailableTracks m) as [|t0 r] eqn:Et.
  - unfold tracks_invariant in *. cbn [audio with_availableTracks
      availableTracks currentTrackName currentTrackIndex fetch].
    destruct (audio m) as [a|].
    + destruct Hm as (Ht & Hn & _). rewrite Ht, <- Hd in Hn.
      destruct (currentTrackIndex m); discriminate Hn.
    + destruct Hm as (_ & Hn & Hi). repeat split; assumption.
  - assert (tracks_invariant
              (loadCurrentTrack
                 (with_audio (Some new_Audio)
                    (with_availableTracks (t0 :: r) m)))) as Hl.
    { apply tracks_invariant_load with (a := new_Audio);
        [reflexivity | exact Hd |].
      cbn [currentTrackIndex with_audio with_availableTracks
           availableTracks].
      unfold tracks_invariant in Hm. destruct (audio m) as [a|].
      - destruct Hm as (Ht & Hn & _). rewrite Ht, <- Hd in Hn.
        apply nth_error_Some. congruence.
      - destruct Hm as (_ & _ & ->). simpl. lia. }
    revert Hl.
    generalize (loadCurrentTrack
                  (with_audio (Some new_Audio)
                     (with_availableTracks (t0 :: r) m))) as m1.
    intros m1 Hl. destruct (audio m1) as [a|] eqn:Ea; [|exact Hl].
    unfold set_audio_volume.
    match goal with |- context [if ?c then _ else _] => destruct c end;
      [|exact Hl].
    unfold tracks_invariant in *. simpl. rewrite Ea in Hl. exact Hl.
Qed.

Lemma tracks_invariant_step fuel m o :
  tracks_invariant m -> tracks_invariant (step fuel m o).
Proof.
  intros Hm. destruct o; simpl.
  - apply tracks_invariant_initializeAudio, Hm.
  - apply tracks_invariant_play, Hm.
  - apply tracks_invariant_pause, Hm.
  - apply tracks_invariant_setVolume, Hm.
  - unfold setEnabled. cbv zeta. destruct b.
    + apply tracks_invariant_play. exact Hm.
    + apply tracks_invariant_pause. exact Hm.
  - apply tracks_invariant_playNextTrack, Hm.
  - apply tracks_invariant_playNextTrack, Hm.
Qed.

Lemma fetch_loadCurrentTrack m : fetch (loadCurrentTrack m) = fetch m.
Proof.
  unfold loadCurrentTrack.
  destruct (audio m); [destruct (availableTracks m)|]; reflexivity.
Qed.

Lemma fetch_advance m : fetch (advance m) = fetch m.
Proof. unfold advance. rewrite fetch_loadCurrentTrack. reflexivity. Qed.

Lemma fetch_play fuel m : fetch (play fuel m) = fetch m.
Proof.
  revert m; induction fuel as [|fuel IH]; intros m; simpl.
  - destruct (audio m); [|reflexivity].
    destruct (negb (enabled m)); [reflexivity|].
    destruct (negb (paused a)); [reflexivity|].
    destruct (playable m 0%nat); reflexivity.
  - destruct (audio m); [|reflexivity].
    destruct (negb (enabled m)); [reflexivity|].
    destruct (negb (paused a)); [reflexivity|].
    destruct (playable m 0%nat); [reflexivity|].
    destruct (availableTracks m); [reflexivity|].
    destruct (enabled (advance (next_playable m))).
    + rewrite IH, fetch_advance. reflexivity.
    + rewrite fetch_advance. reflexivity.
Qed.

Lemma fetch_playNextTrack fuel m : fetch (playNextTrack fuel m) = fetch m.
Proof.
  unfold playNextTrack. destruct (availableTracks m); [reflexivity|].
  destruct (enabled (advance m)); rewrite ?fetch_play, fetch_advance;
    reflexivity.
Qed.

Lemma fetch_pause m : fetch (pause m) = fetch m.
Proof.
  unfold pause. destruct (audio m) as [a|]; [|reflexivity].
  destruct (negb (paused a)); reflexivity.
Qed.

Lemma fetch_initializeAudio m : fetch (initializeAudio m) = fetch m.
Proof.
  unfold initializeAudio. destruct (isInitialized m); [reflexivity|].
  cbv zeta.
  destruct (availableTracks (with_availableTracks _ m)) eqn:E;
    [reflexivity|].
  destruct (audio (loadCurrentTrack _)) eqn:Ea;
    [|rewrite fetch_loadCurrentTrack; reflexivity].
  destruct (set_audio_volume _ a);
    simpl; rewrite ?fetch_loadCurrentTrack; reflexivity.
Qed.

Lemma fetch_setVolume v m : fetch (snd (setVolume v m)) = fetch m.
Proof.
  unfold setVolume. cbv zeta. simpl audio. simpl volume.
  destruct (audio m) as [a|]; [|reflexivity].
  destruct (set_audio_volume _ a); reflexivity.
Qed.

Lemma fetch_step fuel m o : fetch (step fuel m o) = fetch m.
Proof.
  destruct o; simpl.
  - apply fetch_initializeAudio.
  - apply fetch_play.
  - apply fetch_pause.
  - apply fetch_setVolume.
  - unfold setEnabled. cbv zeta.
    destruct b; [rewrite fetch_play | rewrite fetch_pause]; reflexivity.
  - apply fetch_playNextTrack.
  - apply fetch_playNextTrack.
Qed.

(** X22: the current track is always one of the tracks found. After any
    sequence of operations on a new manager, when there is an audio element
    the available tracks are the files among bgm.mp3, bgm1.mp3, ...,
    bgm10.mp3 whose fetch was answered with ok, in that order, the current
    index is within them, getCurrentTrackName() is the track at that index
    (never undefined), and the element's source is its path under /sounds/;
    without an element there are no tracks and the name is empty. *)
Theorem current_track_is_an_available_track fuel playable fetch operations :
  let m := after fuel playable fetch operations in
  tracks_consistent m /\
  (audio m <> None ->
   availableTracks m = filter (answers_ok fetch) candidates /\
   (currentTrackIndex m < getAvailableTracksCount m)%nat /\
   In (getCurrentTrackName m) candidates /\
   answers_ok fetch (getCurrentTrackName m) = true).
Proof.
  intros m. subst m. unfold after.
  assert (tracks_invariant (created playable fetch) /\
          BackgroundMusicManager.fetch (created playable fetch) = fetch)
    as H0 by (split; [repeat split | reflexivity]).
  revert H0. generalize (created playable fetch) as m.
  induction operations as [|o r IH]; intros m [Hm Hf]; simpl.
  - unfold tracks_invariant in Hm. unfold tracks_consistent.
    unfold getCurrentTrackName, getAvailableTracksCount.
    destruct (audio m) as [a|].
    + destruct Hm as (Ht & Hn & Hs). rewrite Hf in Ht.
      split; [split; assumption|]. intros _.
      split; [exact Ht|].
      split; [apply nth_error_Some; congruence|].
      apply nth_error_In in Hn. rewrite Ht in Hn.
      apply filter_In in Hn. exact Hn.
    + destruct Hm as (Ht & Hn & _). rewrite Ht.
      split; [split; [reflexivity | exact Hn]|]. intros H; contradiction.
  - apply IH. split; [apply tracks_invariant_step, Hm|].
    rewrite fetch_step. exact Hf.
Qed.

Lemma current_track_sample :
  let fetch := fun path =>
    if String.eqb path "/sounds/bgm2.mp3" then Some true
    else if String.eqb path "/sounds/bgm5.mp3" then Some true
    else if String.eqb path "/sounds/bgm7.mp3" then Some false
    else None in
  let m := after 3 (fun _ => true) fetch [InitializeAudio; Play; Ended] in
  availableTracks m = ["bgm2.mp3"; "bgm5.mp3"] /\
  getCurrentTrackName m = "bgm5.mp3".
Proof.
  intros fetch m.
  destruct (current_track_is_an_available_track 3 (fun _ => true) fetch
              [InitializeAudio; Play; Ended]) as [_ H].
  fold m in H. destruct H as (Ht & _).
  - vm_compute. discriminate.
  - split; [rewrite Ht|]; reflexivity.
Defined.

(* ---------------- the music manager: a track that fails -------------- *)

Lemma advance_shape m a t0 r :
  audio m = Some a -> availableTracks m = t0 :: r ->
  exists a',
    audio (advance m) = Some a' /\ paused a' = true /\
    availableTracks (advance m) = availableTracks m /\
    currentTrackIndex (advance m) =
      ((currentTrackIndex m + 1) mod List.length (availableTracks m))%nat /\
    playable (advance m) = playable m.
Proof.
  intros Ea Et. unfold advance, loadCurrentTrack.
  cbn [audio with_currentTrackIndex availableTracks]. rewrite Ea, Et.
  eexists. repeat split. exact Et.
Qed.

(** X23: a track that cannot be played is skipped. When the music is
    enabled and paused and the browser rejects audio.play() for the next k
    tracks and then accepts it, play() ends with the music playing, k tracks
    further in the list, wrapping around at its end. *)
Theorem play_skips_the_tracks_that_fail k :
  forall fuel m a,
    audio m = Some a -> enabled m = true -> paused a = true ->
    (currentTrackIndex m < List.length (availableTracks m))%nat ->
    (k <= fuel)%nat ->
    (forall i, (i < k)%nat -> playable m i = false) ->
    playable m k = true ->
    isPlaying (play fuel m) = true /\
    currentTrackIndex (play fuel m) =
      ((currentTrackIndex m + k) mod List.length (availableTracks m))%nat /\
    availableTracks (play fuel m) = availableTracks m.
Proof.
  induction k as [|k IH]; intros fuel m a Ea He Hp Ht Hk Hfail Hok.
  - assert (play fuel m =
            with_audio (Some (set_paused false a)) (next_playable m)) as ->.
    { destruct fuel; simpl; rewrite Ea, He, Hp, Hok; reflexivity. }
    split; [reflexivity|]. split; [|reflexivity].
    cbn [currentTrackIndex with_audio next_playable].
    rewrite Nat.add_0_r, Nat.mod_small by exact Ht. reflexivity.
  - destruct fuel as [|fuel]; [lia|].
    destruct (availableTracks m) as [|t0 r] eqn:Et; [simpl in Ht; lia|].
    assert (playable m 0%nat = false) as H0 by (apply Hfail; lia).
    destruct (@advance_shape (next_playable m) a t0 r Ea Et)
      as (a' & Ea' & Hp' & Ht' & Hi' & Hpl').
    assert (enabled (advance (next_playable m)) = true) as He'
        by (rewrite enabled_advance; exact He).
    assert (play (S fuel) m = play fuel (advance (next_playable m))) as ->.
    { simpl. rewrite Ea, He, Hp, H0. simpl. rewrite Et, He'. reflexivity. }
    cbn [availableTracks next_playable currentTrackIndex] in Ht', Hi'.
    destruct (IH fuel (advance (next_playable m)) a' Ea' He' Hp')
      as (H1 & H2 & H3).
    + rewrite Ht', Hi', Et. apply Nat.mod_upper_bound. discriminate.
    + lia.
    + intros i Hi. rewrite Hpl'. cbn [playable next_playable].
      unfold behead. apply Hfail. lia.
    + rewrite Hpl'. exact Hok.
    + split; [exact H1|]. split; [|rewrite H3, Ht', Et; reflexivity].
      rewrite H2, Ht', Hi', Et.
      rewrite Nat.Div0.add_mod_idemp_l. f_equal. lia.
Qed.

Lemma play_skips_the_tracks_that_fail_sample :
  let m := after 5 (fun n => Nat.leb 2 n) (fun _ => Some true)
                 [InitializeAudio] in
  isPlaying (play 5 m) = true /\
  getCurrentTrackName (play 5 m) = "bgm2.mp3".
Proof.
  intros m.
  destruct (audio m) as [a|] eqn:Ea; [|vm_compute in Ea; discriminate Ea].
  assert (paused a = true) as Hp
      by (vm_compute in Ea; injection Ea as <-; reflexivity).
  destruct (@play_skips_the_tracks_that_fail 2 5 m a Ea eq_refl Hp)
    as (H1 & _).
  - vm_compute. lia.
  - lia.
  - intros i Hi. destruct i as [|[|i]]; [reflexivity | reflexivity | lia].
  - reflexivity.
  - split; [exact H1 | reflexivity].
Defined.

(* ---------------- the betting panel ---------------- *)

Import BettingPanel.

Lemma SFeqb_finite (x : SpecFloat.spec_float) s m e :
  SpecFloat.SFeqb x (SpecFloat.S754_finite s m e) = true ->
  x = SpecFloat.S754_finite s m e.
Proof.
  unfold SpecFloat.SFeqb, SpecFloat.SFcompare.
  destruct x as [z|i| |s' m' e']; try (destruct s; discriminate);
    try (destruct z, s; discriminate); try (destruct i, s; discriminate);
    try discriminate.
  destruct s', s; try discriminate.
  - destruct (Z.compare e' e) eqn:Ee; try discriminate.
    destruct (Pos.compare_cont Eq m' m) eqn:Em; try discriminate.
    intros _. apply Z.compare_eq in Ee. apply Pos.compare_eq in Em.
    congruence.
  - destruct (Z.compare e' e) eqn:Ee; try discriminate.
    destruct (Pos.compare_cont Eq m' m) eqn:Em; try discriminate.
    intros _. apply Z.compare_eq in Ee. apply Pos.compare_eq in Em.
    congruence.
Qed.

Lemma strict_equality_with_an_amount (x amount : number) :
  In amount BET_AMOUNTS -> (x =? amount)%float = true -> x = amount.
Proof.
  intros Hin H. rewrite eqb_spec in H.
  apply Prim2SF_inj.
  unfold BET_AMOUNTS in Hin. simpl in Hin.
  repeat (destruct Hin as [<-|Hin];
          [apply SFeqb_finite with (1 := H)|]).
  contradiction.
Qed.

Import Panel.

Lemma highlighted_none selectedBet (l : list number) :
  (forall amount, In amount l -> (selectedBet =? amount)%float = false) ->
  filter (fun b => String.eqb (snd b) "default")
         (map (fun amount => (toString amount, variant selectedBet amount)) l)
  = [].
Proof.
  induction l as [|a r IH]; intros H; [reflexivity|].
  cbn [map filter snd]. unfold variant at 1.
  rewrite (H a (or_introl eq_refl)). cbn [String.eqb Ascii.eqb Bool.eqb].
  apply IH. intros amount Hin. apply H. right. exact Hin.
Qed.

(** X24: the betting panel highlights the selected bet and nothing else.
    A button has the variant default exactly when the selected bet is its
    amount; so one button is highlighted when the selected bet is one of the
    eleven amounts and none otherwise, whatever number is selected. *)
Theorem one_bet_is_highlighted selectedBet :
  (forall amount, In amount BET_AMOUNTS ->
     (variant selectedBet amount = "default" <-> selectedBet = amount)) /\
  (In selectedBet BET_AMOUNTS -> highlighted selectedBet = 1%nat) /\
  (~ In selectedBet BET_AMOUNTS -> highlighted selectedBet = 0%nat).
Proof.
  split; [|split].
  - intros amount Hin. unfold variant. split.
    + destruct (selectedBet =? amount)%float eqn:E; [|discriminate].
      intros _. apply strict_equality_with_an_amount; assumption.
    + intros ->. unfold BET_AMOUNTS in Hin. simpl in Hin.
      repeat (destruct Hin as [<-|Hin]; [reflexivity|]). contradiction.
  - intros Hin. unfold BET_AMOUNTS in Hin. simpl in Hin.
    repeat (destruct Hin as [<-|Hin]; [reflexivity|]). contradiction.
  - intros Hout. unfold highlighted, buttons.
    rewrite highlighted_none; [reflexivity|].
    intros amount Hin. destruct (selectedBet =? amount)%float eqn:E;
      [|reflexivity].
    exfalso. apply Hout.
    rewrite (strict_equality_with_an_amount Hin E). exact Hin.
Qed.

Lemma one_bet_is_highlighted_sample :
  map snd (buttons 1.5%float) =
  ["outline"; "outline"; "outline"; "default"; "outline"; "outline";
   "outline"; "outline"; "outline"; "outline"; "outline"] /\
  highlighted 3%float = 0%nat.
Proof.
  destruct (one_bet_is_highlighted 3%float) as (_ & _ & H).
  split; [reflexivity|]. apply H.
  unfold BET_AMOUNTS. simpl. intros Hin.
  repeat (destruct Hin as [Hin|Hin];
          [apply (f_equal Prim2SF) in Hin; vm_compute in Hin;
           discriminate Hin|]).
  exact Hin.
Defined.

Import Numerals.

(* ---------------- decimal numerals ---------------- *)

Section Numeral_lemmas.

Local Open Scope list_scope.

Lemma is_digit_char (c : ascii) :
  is_digit c = true ->
  radix_digit 10 c = Some (digit c) /\ (digit c < 10)%N /\
  is_space c = false /\
  ObjectId.is_lower_hex c = true /\ ObjectId.to_lower c = c /\
  Ascii.eqb "x" c = false /\ Ascii.eqb "X" c = false /\
  Ascii.eqb "-" c = false /\ Ascii.eqb "+" c = false.
Proof.
  destruct c as [b0 b1 b2 b3 b4 b5 b6 b7].
  destruct b0, b1, b2, b3, b4, b5, b6, b7; intros H;
    try discriminate H; repeat split.
Qed.

Lemma read_decimal_digits (l rest : chars) (acc : N) (count : nat) :
  forallb is_digit l = true ->
  read_digits 10 acc count (l ++ rest) =
  read_digits 10 (numeral_value l acc) (count + List.length l) rest.
Proof.
  revert acc count; induction l as [|c r IH]; intros acc count H; simpl.
  - rewrite Nat.add_0_r; reflexivity.
  - simpl in H. apply andb_prop in H. destruct H as [Hc Hr].
    destruct (is_digit_char c Hc) as (-> & _).
    rewrite IH by exact Hr. unfold numeral_value. simpl.
    rewrite (N.mul_comm acc 10). f_equal. lia.
Qed.

Lemma numeral_value_app (l1 l2 : chars) (acc : N) :
  numeral_value (l1 ++ l2) acc = numeral_value l2 (numeral_value l1 acc).
Proof. unfold numeral_value. apply fold_left_app. Qed.

Lemma numeral_value_acc (l : chars) (acc : N) :
  numeral_value l acc =
  (acc * 10 ^ N.of_nat (List.length l) + numeral_value l 0)%N.
Proof.
  revert acc; induction l as [|c r IH]; intros acc.
  - simpl. lia.
  - unfold numeral_value in *. cbn [fold_left List.length].
    rewrite IH, (IH (10 * 0 + digit c)%N).
    rewrite Nat2N.inj_succ, N.pow_succ_r'. lia.
Qed.

Lemma numeral_value_zeros (n : nat) (acc : N) :
  numeral_value (zeros n) acc = (acc * 10 ^ N.of_nat n)%N.
Proof.
  revert acc; induction n as [|n IH]; intros acc.
  - simpl. lia.
  - unfold zeros, numeral_value in *. cbn [repeat fold_left].
    rewrite IH. rewrite Nat2N.inj_succ, N.pow_succ_r'.
    change (digit "0") with 0%N. lia.
Qed.

Lemma numeral_value_bound (l : chars) :
  forallb is_digit l = true ->
  (numeral_value l 0 < 10 ^ N.of_nat (List.length l))%N.
Proof.
  induction l as [|c r IH] using rev_ind; intros H.
  - simpl. lia.
  - rewrite forallb_app in H. apply andb_prop in H. destruct H as [Hr Hc].
    simpl in Hc. rewrite andb_true_r in Hc.
    destruct (is_digit_char c Hc) as (_ & Hd & _).
    rewrite numeral_value_app, length_app. simpl List.length.
    unfold numeral_value at 1. cbn [fold_left].
    fold (numeral_value r 0). specialize (IH Hr).
    replace (N.of_nat (List.length r + 1))
      with (N.succ (N.of_nat (List.length r))) by lia.
    rewrite N.pow_succ_r'. lia.
Qed.

Lemma forallb_zeros (n : nat) : forallb is_digit (zeros n) = true.
Proof. induction n; simpl; auto. Qed.

Lemma length_zeros (n : nat) : List.length (zeros n) = n.
Proof. apply repeat_length. Qed.

(** Two numerals of the same length that write the same number are the
    same string. *)
Lemma numeral_unique (l1 : chars) :
  forall l2,
    forallb is_digit l1 = true -> forallb is_digit l2 = true ->
    List.length l1 = List.length l2 ->
    numeral_value l1 0 = numeral_value l2 0 -> l1 = l2.
Proof.
  induction l1 as [|c1 r1 IH] using rev_ind; intros l2 H1 H2 Hlen Hval.
  - destruct l2; [reflexivity | discriminate Hlen].
  - destruct l2 as [|c2 r2 _] using rev_ind.
    + rewrite length_app in Hlen. simpl in Hlen. lia.
    + rewrite forallb_app in H1, H2.
      apply andb_prop in H1, H2. destruct H1 as [Hr1 Hc1], H2 as [Hr2 Hc2].
      simpl in Hc1, Hc2. rewrite andb_true_r in Hc1, Hc2.
      destruct (is_digit_char c1 Hc1) as (_ & Hd1 & _).
      destruct (is_digit_char c2 Hc2) as (_ & Hd2 & _).
      rewrite !numeral_value_app in Hval. unfold numeral_value at 1 3 in Hval.
      cbn [fold_left] in Hval.
      fold (numeral_value r1 0) in Hval. fold (numeral_value r2 0) in Hval.
      rewrite !length_app in Hlen. simpl in Hlen.
      assert (digit c1 = digit c2 /\ numeral_value r1 0 = numeral_value r2 0)
        as [Hd Hv] by lia.
      f_equal.
      * apply IH; try assumption. lia.
      * f_equal. unfold digit in Hd.
        unfold is_digit in Hc1, Hc2.
        apply andb_prop in Hc1, Hc2.
        destruct Hc1 as [Hc1 _], Hc2 as [Hc2 _].
        apply N.leb_le in Hc1, Hc2.
        assert (code c1 = code c2) as Hc by lia.
        unfold code in Hc.
        rewrite <- (ascii_N_embedding c1), <- (ascii_N_embedding c2), Hc.
        reflexivity.
Qed.

End Numeral_lemmas.

Lemma numeral_of_uint_acc (d : Decimal.uint) :
  forall a : positive,
    numeral_value (str (NilEmpty.string_of_uint d)) (N.pos a) =
    N.pos (Pos.of_uint_acc d a).
Proof.
  induction d; intros a; cbn [NilEmpty.string_of_uint str
    list_ascii_of_string Pos.of_uint_acc]; try reflexivity;
    unfold numeral_value in *; cbn [fold_left];
    match goal with
    | |- fold_left _ _ (10 * N.pos a + digit ?c)%N = _ =>
        let v := eval vm_compute in (digit c) in
        change (digit c) with v
    end;
    rewrite <- IHd; f_equal; lia.
Qed.

Lemma numeral_of_uint (d : Decimal.uint) :
  numeral_value (str (NilEmpty.string_of_uint d)) 0 = N.of_uint d.
Proof.
  unfold N.of_uint.
  induction d; cbn [NilEmpty.string_of_uint str list_ascii_of_string
    Pos.of_uint]; try reflexivity;
    try (rewrite <- numeral_of_uint_acc; reflexivity).
  exact IHd.
Qed.

Lemma digits_of_uint (d : Decimal.uint) :
  forallb is_digit (str (NilEmpty.string_of_uint d)) = true /\
  List.length (str (NilEmpty.string_of_uint d)) = Decimal.nb_digits d.
Proof.
  unfold str.
  induction d; cbn [NilEmpty.string_of_uint list_ascii_of_string
    forallb List.length Decimal.nb_digits];
    try (destruct IHd as [H1 H2]; rewrite H1, H2); split; reflexivity.
Qed.

Lemma decimal_uint (n : N) :
  decimal n = str (NilEmpty.string_of_uint (N.to_uint n)).
Proof.
  unfold decimal, NilZero.string_of_uint.
  destruct n as [|p]; [reflexivity|]. simpl N.to_uint.
  pose proof (DecimalPos.Unsigned.to_uint_nonnil p) as H.
  destruct (Pos.to_uint p); [contradiction|..]; reflexivity.
Qed.

Lemma decimal_digits (n : N) : forallb is_digit (decimal n) = true.
Proof. rewrite decimal_uint. apply digits_of_uint. Qed.

Lemma decimal_value (n : N) : numeral_value (decimal n) 0 = n.
Proof.
  rewrite decimal_uint, numeral_of_uint. apply DecimalN.Unsigned.of_to.
Qed.

Lemma decimal_upper (n : N) :
  (n < 10 ^ N.of_nat (List.length (decimal n)))%N.
Proof.
  rewrite <- (decimal_value n) at 1.
  apply numeral_value_bound, decimal_digits.
Qed.

Lemma to_uint_leading (p : positive) :
  forall l, Pos.to_uint p <> Decimal.D0 l.
Proof.
  intros l E.
  pose proof (DecimalN.Unsigned.to_of (Pos.to_uint p)) as H.
  change (N.of_uint (Pos.to_uint p)) with (Pos.of_uint (Pos.to_uint p)) in H.
  rewrite DecimalPos.Unsigned.of_to in H. simpl in H.
  rewrite E, DecimalFacts.unorm_D0 in H. unfold Decimal.unorm in H.
  destruct (Decimal.nzhead l) eqn:En;
    try (symmetry in H; rewrite <- En in H;
         exact (DecimalFacts.nzhead_nonzero _ _ H)).
  injection H as ->.
  apply (DecimalPos.Unsigned.to_uint_nonzero p). exact E.
Qed.

Lemma decimal_lower (n : N) :
  (0 < n)%N ->
  (10 ^ (N.of_nat (List.length (decimal n)) - 1) <= n)%N.
Proof.
  intros Hn. rewrite <- (decimal_value n) at 2.
  pose proof (decimal_digits n) as Hd. rewrite decimal_uint in *.
  destruct n as [|p]; [lia|]. simpl N.to_uint in *.
  pose proof (to_uint_leading p) as Hz.
  pose proof (DecimalPos.Unsigned.to_uint_nonnil p) as Hnil.
  destruct (Pos.to_uint p) as [|l|l|l|l|l|l|l|l|l|l];
    [contradiction | exfalso; apply (Hz l); reflexivity |..];
    cbn [NilEmpty.string_of_uint str list_ascii_of_string List.length];
    unfold numeral_value; cbn [fold_left];
    fold (numeral_value (list_ascii_of_string (NilEmpty.string_of_uint l)));
    rewrite numeral_value_acc;
    replace (N.of_nat (S (List.length (list_ascii_of_string
                                         (NilEmpty.string_of_uint l)))) - 1)%N
      with (N.of_nat (List.length (list_ascii_of_string
                                     (NilEmpty.string_of_uint l)))) by lia;
    match goal with
    | |- context [digit ?c] =>
        let v := eval vm_compute in (digit c) in change (digit c) with v
    end;
    generalize (10 ^ N.of_nat (List.length (list_ascii_of_string
                                              (NilEmpty.string_of_uint l))))%N;
    intros; lia.
Qed.

Lemma pow10_interval_unique (x a b : N) :
  (10 ^ (a - 1) <= x < 10 ^ a)%N -> (10 ^ (b - 1) <= x < 10 ^ b)%N ->
  (0 < a)%N -> (0 < b)%N -> a = b.
Proof.
  intros [Ha1 Ha2] [Hb1 Hb2] Ha Hb.
  destruct (N.lt_trichotomy a b) as [H|[H|H]]; [|exact H|].
  - assert (10 ^ a <= 10 ^ (b - 1))%N by (apply N.pow_le_mono_r; lia). lia.
  - assert (10 ^ b <= 10 ^ (a - 1))%N by (apply N.pow_le_mono_r; lia). lia.
Qed.

Lemma length_decimal_pos (n : N) : (0 < List.length (decimal n))%nat.
Proof.
  rewrite decimal_uint. destruct n as [|p]; [simpl; lia|].
  simpl N.to_uint.
  pose proof (DecimalPos.Unsigned.to_uint_nonnil p) as H.
  destruct (Pos.to_uint p); [contradiction|..]; simpl; lia.
Qed.

Lemma length_decimal_scaled (s : N) (e : nat) :
  (0 < s)%N ->
  List.length (decimal (s * 10 ^ N.of_nat e)) =
  (List.length (decimal s) + e)%nat.
Proof.
  intros Hs.
  assert (0 < 10 ^ N.of_nat e)%N as Hpow
      by (apply N.neq_0_lt_0, N.pow_nonzero; discriminate).
  pose proof (decimal_upper s) as Hu.
  pose proof (decimal_lower Hs) as Hl.
  pose proof (decimal_upper (s * 10 ^ N.of_nat e)) as Hu'.
  assert (0 < s * 10 ^ N.of_nat e)%N as Hs' by lia.
  pose proof (decimal_lower Hs') as Hl'.
  pose proof (length_decimal_pos s) as Hp.
  pose proof (length_decimal_pos (s * 10 ^ N.of_nat e)) as Hp'.
  apply Nat2N.inj.
  apply (@pow10_interval_unique (s * 10 ^ N.of_nat e)%N); try lia.
  rewrite Nat2N.inj_add. split.
  - replace (N.of_nat (List.length (decimal s)) + N.of_nat e - 1)%N
      with (N.of_nat (List.length (decimal s)) - 1 + N.of_nat e)%N by lia.
    rewrite N.pow_add_r. apply N.mul_le_mono_r. exact Hl.
  - rewrite N.pow_add_r. apply N.mul_lt_mono_pos_r; assumption.
Qed.

Section Numeral_lemmas_2.

Local Open Scope list_scope.

Lemma decimal_scaled (s : N) (e : nat) :
  (0 < s)%N -> decimal (s * 10 ^ N.of_nat e) = decimal s ++ zeros e.
Proof.
  intros Hs. apply numeral_unique.
  - apply decimal_digits.
  - rewrite forallb_app, decimal_digits, forallb_zeros. reflexivity.
  - rewrite length_app, length_zeros. apply length_decimal_scaled, Hs.
  - rewrite numeral_value_app, numeral_value_zeros, !decimal_value.
    reflexivity.
Qed.

End Numeral_lemmas_2.

(* ---------------- integers as Numbers, continued ---------------- *)

Lemma Number_of_finite (p : positive) :
  (Z.pos p < 2 ^ 53)%Z ->
  exists m e,
    Prim2SF (Number_of (N.pos p)) = S754_finite false m e /\
    (e <= 0)%Z /\ Z.pos m = (Z.pos p * 2 ^ (- e))%Z.
Proof.
  intros Hp. unfold Number_of, of_scaled.
  assert (Z.pos (digits2_pos p) <= 53)%Z as Hd
      by (apply digits2_pos_small; exact Hp).
  change (Z.pos p * 10 ^ 0)%Z with (Z.pos p * 1)%Z. rewrite Z.mul_1_r.
  destruct (binary_normalize_small p Hd) as (m & e & Hb & Hv & He & Hm).
  rewrite Hb. exists m, e. rewrite Prim2SF_SF2Prim by exact Hv.
  repeat split; assumption.
Qed.

Lemma Number_of_eqb (a b : N) :
  (a < 2 ^ 53)%N -> (b < 2 ^ 53)%N ->
  (Number_of a =? Number_of b)%float = (a =? b)%N.
Proof.
  intros Ha Hb. rewrite eqb_spec.
  destruct (N.eqb_spec a b) as [->|Hne].
  - destruct b as [|p]; [reflexivity|].
    destruct (@Number_of_finite p) as (m & e & -> & _); [lia|].
    unfold SFeqb, SFcompare. rewrite Z.compare_refl, Pos.compare_cont_refl.
    reflexivity.
  - destruct (SFeqb (Prim2SF (Number_of a)) (Prim2SF (Number_of b))) eqn:E;
      [|reflexivity].
    exfalso. apply Hne.
    destruct a as [|pa], b as [|pb]; try reflexivity.
    + destruct (@Number_of_finite pb) as (m & e & Hf & _); [lia|].
      rewrite Hf in E. discriminate E.
    + destruct (@Number_of_finite pa) as (m & e & Hf & _); [lia|].
      rewrite Hf in E. discriminate E.
    + destruct (@Number_of_finite pa) as (ma & ea & Hfa & Hea & Hma); [lia|].
      destruct (@Number_of_finite pb) as (mb & eb & Hfb & Heb & Hmb); [lia|].
      rewrite Hfb in E. apply SFeqb_finite in E. rewrite Hfa in E.
      injection E as <- <-.
      assert (Z.pos pa * 2 ^ (- ea) = Z.pos pb * 2 ^ (- ea))%Z as Hz
          by congruence.
      apply Z.mul_reg_r in Hz; [congruence|].
      apply Z.pow_nonzero; lia.
Qed.

Lemma Number_of_sign (a : N) :
  (a < 2 ^ 53)%N ->
  is_nan (Number_of a) = false /\
  PrimFloat.abs (Number_of a) = Number_of a /\
  (Number_of a <? zero)%float = false.
Proof.
  intros Ha. destruct a as [|p]; [repeat split|].
  destruct (@Number_of_finite p) as (m & e & Hf & _); [lia|].
  split; [|split].
  - unfold is_nan. rewrite eqb_spec, Hf.
    unfold SFeqb, SFcompare. rewrite Z.compare_refl, Pos.compare_cont_refl.
    reflexivity.
  - apply Prim2SF_inj. rewrite abs_spec, Hf. reflexivity.
  - rewrite ltb_spec, Hf. reflexivity.
Qed.

Lemma of_scaled_integer (s : N) (e : nat) :
  (0 < s)%N ->
  of_scaled false s (Z.of_nat e) = Number_of (s * 10 ^ N.of_nat e).
Proof.
  intros Hs. unfold Number_of, of_scaled.
  destruct s as [|p]; [lia|].
  destruct (N.pos p * 10 ^ N.of_nat e)%N as [|p'] eqn:Ep.
  - assert (10 ^ N.of_nat e <> 0)%N by (apply N.pow_nonzero; discriminate).
    lia.
  - assert (Z.pos p * 10 ^ Z.of_nat e = Z.pos p' * 10 ^ 0)%Z as Hz.
    { apply (f_equal Z.of_N) in Ep. rewrite N2Z.inj_mul, N2Z.inj_pow in Ep.
      rewrite nat_N_Z in Ep. simpl Z.of_N in Ep. rewrite Ep. simpl. lia. }
    destruct (Z.of_nat e) as [|k|k] eqn:Ek; [| |lia]; rewrite Hz; reflexivity.
Qed.

(* ---------------- Number::toString on integers ---------------- *)

Lemma floor_scaled (q : Q) (k : N) (e : nat) :
  Qeq q (inject_Z (Z.of_N k)) ->
  Z.to_N (Qfloor (q / pow10 (Z.of_nat e))) = (k / 10 ^ N.of_nat e)%N.
Proof.
  intros Hq. unfold pow10.
  assert (Qeq (q / Qpower 10 (Z.of_nat e))
              (inject_Z (Z.of_N k) / inject_Z (10 ^ Z.of_nat e))) as ->.
  { rewrite Hq, (Zpower_Qpower 10 (Z.of_nat e)) by lia. reflexivity. }
  rewrite <- Zdiv_Qdiv.
  rewrite <- nat_N_Z.
  change 10%Z with (Z.of_N 10). rewrite <- N2Z.inj_pow, <- N2Z.inj_div.
  apply N2Z.id.
Qed.

Lemma shortest_step (f : nat) (k : Z) (x : number) (q : Q) (n0 : Z) :
  shortest (S f) k x q n0 =
  let scale := pow10 (n0 - k) in
  let lo := Z.to_N (Qfloor (q / scale)) in
  let hi := (lo + 1)%N in
  let ok s := PrimFloat.eqb (of_scaled false s (n0 - k)) x in
  let pick s := if (s =? N.pow 10 (Z.to_N k))%N
                then (N.pow 10 (Z.to_N (k - 1)), (n0 + 1)%Z) else (s, n0) in
  match ok lo, ok hi with
  | true, true =>
      let dlo := Qabs_diff q (inject_Z (Z.of_N lo) * scale) in
      let dhi := Qabs_diff q (inject_Z (Z.of_N hi) * scale) in
      match Qcompare dlo dhi with
      | Lt => pick lo
      | Gt => pick hi
      | Eq => if N.even lo then pick lo else pick hi
      end
  | true, false => pick lo
  | false, true => pick hi
  | false, false => shortest f (k + 1) x q n0
  end.
Proof. reflexivity. Qed.

Lemma shortest_integer (k : N) (q : Q) :
  (0 < k < id_bound)%N ->
  Qeq q (inject_Z (Z.of_N k)) ->
  forall fuel j,
    (1 <= j <= List.length (decimal k))%nat ->
    (List.length (decimal k) - j < fuel)%nat ->
    exists s e,
      shortest fuel (Z.of_nat j) (Number_of k) q
               (Z.of_nat (List.length (decimal k))) =
      (s, Z.of_nat (List.length (decimal k))) /\
      (0 < s)%N /\ k = (s * 10 ^ N.of_nat e)%N.
Proof.
  unfold id_bound. intros Hk Hq.
  pose proof (decimal_upper k) as Hupper.
  pose proof (@decimal_lower k (proj1 Hk)) as Hlower.
  set (L := List.length (decimal k)) in *.
  assert (L <= 15)%nat as HL.
  { destruct (Nat.le_gt_cases L 15) as [H|H]; [exact H|].
    assert (10 ^ 15 <= 10 ^ (N.of_nat L - 1))%N
      by (apply N.pow_le_mono_r; lia).
    lia. }
  induction fuel as [|f IH]; intros j Hj Hfuel; [lia|].
  rewrite shortest_step. cbv beta zeta.
  replace (Z.of_nat L - Z.of_nat j)%Z with (Z.of_nat (L - j)) by lia.
  rewrite (@floor_scaled q k (L - j) Hq).
  set (e := (L - j)%nat) in *.
  set (D := (10 ^ N.of_nat e)%N).
  assert (0 < D)%N as HD
      by (apply N.neq_0_lt_0, N.pow_nonzero; discriminate).
  set (lo := (k / D)%N).
  assert (lo * D <= k < (lo + 1) * D)%N as Hlo.
  { pose proof (N.Div0.mul_div_le k D) as H1.
    pose proof (N.mul_succ_div_gt k D) as H2. unfold lo. lia. }
  assert (D <= 10 ^ 14)%N as HD14.
  { unfold D. apply N.pow_le_mono_r; lia. }
  assert (D <= k)%N as HDk.
  { eapply N.le_trans; [|exact Hlower].
    unfold D. apply N.pow_le_mono_r; lia. }
  assert (0 < lo)%N as Hlo0.
  { unfold lo. apply N.div_str_pos. lia. }
  assert (lo < 10 ^ N.of_nat j)%N as Hloj.
  { apply N.mul_lt_mono_pos_r with (p := D); [exact HD|].
    unfold D at 2. rewrite <- N.pow_add_r.
    replace (N.of_nat j + N.of_nat e)%N with (N.of_nat L) by lia. lia. }
  rewrite (@of_scaled_integer lo e Hlo0).
  rewrite (@of_scaled_integer (lo + 1)%N e) by lia.
  fold D.
  rewrite !Number_of_eqb by (simpl; lia).
  replace ((lo + 1) * D =? k)%N with false
    by (symmetry; apply N.eqb_neq; lia).
  replace (Z.to_N (Z.of_nat j)) with (N.of_nat j) by lia.
  replace (lo =? 10 ^ N.of_nat j)%N with false
    by (symmetry; apply N.eqb_neq; lia).
  destruct (N.eqb_spec (lo * D) k) as [E|E].
  - exists lo, e. repeat split; [exact Hlo0 | symmetry; exact E].
  - assert (j < L)%nat as HjL.
    { destruct (Nat.eq_dec j L) as [->|]; [|lia].
      exfalso. apply E. unfold lo, D, e.
      rewrite Nat.sub_diag. simpl. rewrite N.div_1_r. lia. }
    replace (Z.of_nat j + 1)%Z with (Z.of_nat (S j)) by lia.
    apply IH; lia.
Qed.

Lemma length_decimal_bound (k : N) :
  (k < id_bound)%N -> (List.length (decimal k) <= 15)%nat.
Proof.
  unfold id_bound. intros Hk. destruct (N.eq_0_gt_0_cases k) as [->|H0].
  - simpl. lia.
  - pose proof (decimal_lower H0) as Hl.
    destruct (Nat.le_gt_cases (List.length (decimal k)) 15) as [H|H];
      [exact H|].
    assert (10 ^ 15 <= 10 ^ (N.of_nat (List.length (decimal k)) - 1))%N
      by (apply N.pow_le_mono_r; lia).
    lia.
Qed.

(** A numeric id is written with its decimal digits. *)
Lemma toString_integer (k : N) :
  (k < id_bound)%N -> JS.toString (Number_of k) = unstr (decimal k).
Proof.
  intros Hk. destruct (N.eq_0_gt_0_cases k) as [->|H0]; [reflexivity|].
  assert (k < 2 ^ 53)%N as H53 by (unfold id_bound in Hk; simpl; lia).
  destruct (Number_of_sign H53) as (Hnan & Habs & Hneg).
  destruct (Number_of_exact H53) as (q & Hq & Heq).
  assert (Qeq (Qabs q) (inject_Z (Z.of_N k))) as Ha.
  { rewrite Qabs_pos; [exact Heq|]. rewrite Heq.
    change 0%Q with (inject_Z 0). rewrite <- Zle_Qle. lia. }
  pose proof (length_decimal_bound Hk) as HL.
  pose proof (length_decimal_pos k) as HL0.
  destruct (@shortest_integer k (Qabs q) (conj H0 Hk) Ha 17%nat 1%nat)
    as (s & e & Hs & Hs0 & Hke); [lia | lia |].
  unfold JS.toString. rewrite Hnan, Hq, Habs, Hneg.
  assert (Qeq_bool q 0 = false) as ->.
  { destruct (Qeq_bool q 0) eqn:E; [|reflexivity].
    apply Qeq_bool_eq in E. rewrite Heq in E.
    change 0%Q with (inject_Z 0) in E.
    apply (proj1 (inject_Z_injective _ _)) in E. lia. }
  assert (magnitude (Qabs q) = Z.of_nat (List.length (decimal k))) as ->.
  { unfold magnitude.
    assert (Qle_bool 1 (Qabs q) = true) as ->.
    { apply Qle_bool_iff. rewrite Ha. change 1%Q with (inject_Z 1).
      rewrite <- Zle_Qle. lia. }
    rewrite (Qfloor_comp _ _ Ha), Qfloor_Z, N2Z.id. reflexivity. }
  change (Z.of_nat 1) with 1%Z in Hs. rewrite Hs. cbv beta iota.
  f_equal. unfold format_digits. cbv zeta.
  assert (List.length (decimal k) = (List.length (decimal s) + e)%nat) as Hlen
      by (rewrite Hke at 1; apply length_decimal_scaled, Hs0).
  rewrite Hlen.
  replace ((Z.of_nat (List.length (decimal s))
            <=? Z.of_nat (List.length (decimal s) + e))%Z
           && (Z.of_nat (List.length (decimal s) + e) <=? 21)%Z)
    with true by (symmetry; apply andb_true_intro; split; apply Z.leb_le; lia).
  replace (Z.to_nat (Z.of_nat (List.length (decimal s) + e)
                     - Z.of_nat (List.length (decimal s)))) with e by lia.
  rewrite Hke. symmetry. apply decimal_scaled, Hs0.
Qed.

(* ---------------- identifiers from numeric ids ---------------- *)

Section Identifier_lemmas.

Local Open Scope list_scope.

Lemma unstr_app (l1 l2 : chars) :
  unstr (l1 ++ l2) = (unstr l1 ++ unstr l2)%string.
Proof.
  induction l1 as [|c r IH]; simpl; [reflexivity | rewrite IH; reflexivity].
Qed.

Lemma length_unstr (l : chars) : String.length (unstr l) = List.length l.
Proof. rewrite <- length_str, str_unstr. reflexivity. Qed.

Lemma id_string_integer (k : N) :
  (k < id_bound)%N ->
  id_string (Number_of k) =
  unstr (zeros (24 - List.length (decimal k)) ++ decimal k).
Proof.
  intros Hk. unfold id_string, padStart. rewrite (toString_integer Hk).
  rewrite length_unstr. pose proof (length_decimal_bound Hk) as HL.
  destruct (Nat.leb_spec 24 (List.length (decimal k))) as [H|_]; [lia|].
  rewrite unstr_app. reflexivity.
Qed.

Lemma from_string_digits (l : chars) :
  forallb is_digit l = true -> List.length l = 24%nat ->
  exists oid,
    ObjectId.from_string (unstr l) = Some oid /\
    ObjectId.toString oid = unstr l.
Proof.
  intros Hd Hlen. unfold ObjectId.from_string, ObjectId.toString.
  rewrite str_unstr.
  assert (map ObjectId.to_lower l = l) as ->.
  { clear Hlen. induction l as [|c r IH]; [reflexivity|].
    simpl in Hd. apply andb_prop in Hd. destruct Hd as [Hc Hr].
    destruct (is_digit_char c Hc) as (_ & _ & _ & _ & Hl & _).
    simpl. rewrite Hl, (IH Hr). reflexivity. }
  assert (ObjectId.well_formed (unstr l) = true) as Hwf.
  { unfold ObjectId.well_formed. rewrite length_unstr, Hlen, str_unstr.
    simpl. rewrite forallb_forall in *. intros c Hc.
    apply (is_digit_char c (Hd c Hc)). }
  assert (forall b (H : ObjectId.well_formed (unstr l) = b),
            b = true ->
            exists oid,
              (if b as b0 return ObjectId.well_formed (unstr l) = b0 ->
                                 option ObjectId.t
               then fun H0 => Some (ObjectId.make (unstr l) H0)
               else fun _ => None) H = Some oid /\
              ObjectId.hex oid = unstr l) as Hcase.
  { intros [|] H Hb; [|discriminate Hb].
    eexists. split; reflexivity. }
  apply (Hcase _ eq_refl Hwf).
Qed.

Lemma parseInt_digits (l : chars) :
  forallb is_digit l = true -> (2 <= List.length l)%nat ->
  parseInt (unstr l) 0 = Number_of (numeral_value l 0).
Proof.
  intros Hall Hlen. unfold parseInt, Number_of. rewrite str_unstr.
  destruct l as [|c [|c2 r]]; try (simpl in Hlen; lia).
  pose proof Hall as Hall'.
  simpl in Hall. apply andb_prop in Hall. destruct Hall as [Hc Hr].
  apply andb_prop in Hr. destruct Hr as [Hc2 Hr].
  destruct (is_digit_char c Hc) as (_ & _ & Hs & _ & _ & _ & _ & Hm & Hp).
  destruct (is_digit_char c2 Hc2) as (_ & _ & _ & _ & _ & Hx2 & HX2 & _).
  simpl skip_space. rewrite Hs.
  assert (read_sign (c :: c2 :: r) = (false, c :: c2 :: r)) as ->.
  { unfold read_sign. destruct c as [[] [] [] [] [] [] [] []];
      try discriminate Hm; try discriminate Hp; reflexivity. }
  change (str "0x") with ["0"; "x"]%char.
  change (str "0X") with ["0"; "X"]%char.
  change (starts_with ["0"; "x"]%char (c :: c2 :: r))
    with (Ascii.eqb "0" c && (Ascii.eqb "x" c2 && true)).
  change (starts_with ["0"; "X"]%char (c :: c2 :: r))
    with (Ascii.eqb "0" c && (Ascii.eqb "X" c2 && true)).
  rewrite Hx2, HX2, !andb_false_r.
  change (negb (0 =? 0)%N && ((0 <? 2)%N || (36 <? 0)%N)) with false.
  change (((0 =? 0)%N || (0 =? 16)%N) && (false || false)) with false.
  change (if (0 =? 0)%N then 10%N else 0%N) with 10%N.
  cbv beta iota zeta.
  rewrite <- (app_nil_r (c :: c2 :: r)) at 1.
  rewrite read_decimal_digits by exact Hall'.
  reflexivity.
Qed.

End Identifier_lemmas.

Lemma numeric_id_round_trip (k : N) :
  (k < id_bound)%N ->
  exists oid,
    ObjectId.from_string (id_string (Number_of k)) = Some oid /\
    ObjectId.toString oid =
      unstr (zeros (24 - List.length (decimal k)) ++ decimal k)%list /\
    owner_id oid = Number_of k.
Proof.
  intros Hk. rewrite (id_string_integer Hk).
  pose proof (length_decimal_bound Hk) as HL.
  assert (forallb is_digit
            (zeros (24 - List.length (decimal k)) ++ decimal k)%list = true)
    as Hd by (rewrite forallb_app, forallb_zeros, decimal_digits; reflexivity).
  assert (List.length (zeros (24 - List.length (decimal k)) ++ decimal k)%list
          = 24%nat) as Hlen by (rewrite length_app, length_zeros; lia).
  destruct (from_string_digits _ Hd Hlen) as (oid & Ho & Hs).
  exists oid. split; [exact Ho|]. split; [exact Hs|].
  unfold owner_id. rewrite Hs, parseInt_digits by (try exact Hd; lia).
  rewrite numeral_value_app, numeral_value_zeros. simpl N.mul.
  rewrite decimal_value. reflexivity.
Qed.

(** X25: numeric ids are addressed by their decimal digits. For an
    integer k from 0 to 999999999999999, the Number k is written by
    toString() as the decimal numeral of k; padded to twenty-four characters
    it is accepted as an identifier, the one whose string is the numeral
    after zeros; and parseInt reads k back from that identifier, so a
    reference written from a numeric id reads back as that id. *)
Theorem numeric_ids_are_addressed_in_decimal (k : N) :
  (k < id_bound)%N ->
  JS.toString (Number_of k) = unstr (decimal k) /\
  exists oid,
    ObjectId.from_string (id_string (Number_of k)) = Some oid /\
    ObjectId.toString oid =
      unstr (zeros (24 - List.length (decimal k)) ++ decimal k)%list /\
    owner_id oid = Number_of k /\
    decimal_reference oid.
Proof.
  intros Hk. split; [apply toString_integer, Hk|].
  destruct (numeric_id_round_trip Hk) as (oid & Ho & Hs & Hback).
  exists oid. repeat split; try assumption.
  unfold decimal_reference. rewrite Hback. exact Ho.
Qed.

Lemma numeric_ids_sample :
  JS.toString 1234567%float = "1234567" /\
  exists oid,
    ObjectId.from_string (id_string 1234567%float) = Some oid /\
    ObjectId.toString oid = "000000000000000001234567" /\
    owner_id oid = 1234567%float.
Proof.
  destruct (@numeric_ids_are_addressed_in_decimal 1234567%N eq_refl)
    as (Hs & oid & Ho & Hh & Hback & _).
  split; [exact Hs|]. exists oid. repeat split; assumption.
Defined.

Lemma numeric_id_below_bound (o : ObjectId.t) :
  (base16 (last_chars 6 (ObjectId.toString o)) < id_bound)%N.
Proof.
  unfold base16, id_bound.
  eapply N.lt_trans; [apply base16_bound|].
  unfold last_chars. rewrite str_unstr, length_skipn, length_str.
  destruct o as [h wf]. unfold ObjectId.toString. simpl ObjectId.hex.
  unfold ObjectId.well_formed in wf. apply andb_prop in wf.
  destruct wf as [Hlen _]. apply Nat.eqb_eq in Hlen. rewrite Hlen.
  simpl. lia.
Qed.

(** X26: the id a document is returned with addresses a document
    whose identifier is written with decimal digits only. The identifier
    that getUser and the other methods look up for a returned id is always
    accepted and is a string of decimal digits; so a document whose
    identifier has one of the letters a to f is never the one found under
    its own id: when getUser answers the id of such a user with a user, it
    is another one. *)
Theorem returned_ids_address_decimal_identifiers :
  (forall o,
     exists target,
       ObjectId.from_string (id_string (numeric_id o)) = Some target /\
       forallb is_digit (str (ObjectId.toString target)) = true /\
       (forallb is_digit (str (ObjectId.toString o)) = false ->
        target <> o)) /\
  (forall w user r w',
     forallb is_digit (str (ObjectId.toString (User._id user))) = false ->
     getUser (UserOut.id (convertMongoUser user)) w = (Returns (Some r), w') ->
     exists other,
       In other (users (db w)) /\ r = convertMongoUser other /\
       User._id other <> User._id user).
Proof.
  assert (forall o,
            exists target,
              ObjectId.from_string (id_string (numeric_id o)) = Some target /\
              forallb is_digit (str (ObjectId.toString target)) = true /\
              (forallb is_digit (str (ObjectId.toString o)) = false ->
               target <> o)) as Hfirst.
  { intros o. rewrite numeric_id_base16.
    pose proof (numeric_id_below_bound o) as Hk.
    destruct (numeric_id_round_trip Hk) as (target & Ho & Hs & _).
    exists target. split; [exact Ho|].
    assert (forallb is_digit (str (ObjectId.toString target)) = true) as Hd.
    { rewrite Hs, str_unstr, forallb_app, forallb_zeros, decimal_digits.
      reflexivity. }
    split; [exact Hd|]. intros Hl E. subst target. congruence. }
  split; [exact Hfirst|].
  intros w user r w' Hl Hrun.
  destruct (Hfirst (User._id user)) as (target & Ho & _ & Hne).
  specialize (Hne Hl).
  unfold getUser in Hrun. unfold_M. simpl in Ho, Hrun. rewrite Ho in Hrun.
  case_run Hrun. injection Hrun as Hr _.
  destruct (List.find (has_id Users target) (users (db w))) as [u|] eqn:Ef;
    [|discriminate Hr].
  injection Hr as <-. exists u.
  apply find_some in Ef. destruct Ef as [Hin Hid].
  split; [exact Hin|]. split; [reflexivity|].
  apply ObjectId_eqb_eq in Hid. simpl in Hid. congruence.
Qed.

Lemma returned_ids_sample :
  exists target,
    ObjectId.from_string
      (id_string (UserOut.id (convertMongoUser Sample.alice))) =
    Some target /\ target <> User._id Sample.alice.
Proof.
  destruct returned_ids_address_decimal_identifiers as [H _].
  destruct (H (User._id Sample.alice)) as (target & Ho & _ & Hne).
  exists target. split; [exact Ho | apply Hne; reflexivity].
Defined.

(* ---------------- from a deposit to the balance ---------------- *)

Lemma createDeposit_run w deposit owner :
  isConnected w = true -> fault w 0%nat = false ->
  ObjectId.from_string (id_string (InsertDeposit.userId deposit)) =
  Some owner ->
  existsb (has_id Deposits (fresh w 0%nat)) (deposits (db w)) = false ->
  let d := Deposit.make (fresh w 0%nat) owner (InsertDeposit.amount deposit)
             (or_null (InsertDeposit.receiptUrl deposit)) "pending"
             (clock w 0%nat) in
  exists w1,
    createDeposit deposit w = (Returns (convertMongoDeposit d), w1) /\
    isConnected w1 = true /\ fault w1 = behead (fault w) /\
    deposits (db w1) = (deposits (db w) ++ [d])%list /\
    users (db w1) = users (db w).
Proof.
  intros Hc Hf Ho Hfresh d.
  unfold createDeposit. unfold_M. rewrite Hc, Ho; simpl.
  rewrite Hf; simpl. rewrite Hfresh; simpl.
  eexists. split; [reflexivity|]. simpl. repeat split. exact Hc.
Qed.

Lemma find_not_exists {D : Type} (p : D -> bool) (l : list D) :
  existsb p l = false -> List.find p l = None.
Proof.
  induction l as [|d r IH]; simpl; [reflexivity|].
  destruct (p d); [discriminate | exact IH].
Qed.

(** X27: a deposit made for a user and approved is credited to that
    user. On a connected storage whose store answers, for a numeric user id
    k from 0 to 999999999999999 that addresses a user: createDeposit
    returns the deposit with userId k and status pending; and once the
    deposit is approved under an id that addresses it, getUser(k) returns
    the user with the balance (parseFloat(balance) +
    parseFloat(amount)).toFixed(2). *)
Theorem an_approved_deposit_is_credited_to_its_user w k deposit id owner user :
  isConnected w = true -> healthy w ->
  (k < id_bound)%N ->
  InsertDeposit.userId deposit = Number_of k ->
  ObjectId.from_string (id_string (Number_of k)) = Some owner ->
  List.find (has_id Users owner) (users (db w)) = Some user ->
  existsb (has_id Deposits (fresh w 0%nat)) (deposits (db w)) = false ->
  ObjectId.from_string (id_string id) = Some (fresh w 0%nat) ->
  exists r w1 w2 u w3,
    createDeposit deposit w = (Returns r, w1) /\
    DepositOut.userId r = Number_of k /\
    DepositOut.status r = "pending" /\
    DepositOut.amount r = InsertDeposit.amount deposit /\
    updateDepositStatus id "approved" w1 = (Returns tt, w2) /\
    getUser (Number_of k) w2 = (Returns (Some u), w3) /\
    UserOut.balance u =
      toFixed (parseFloat (User.balance user)
               + parseFloat (InsertDeposit.amount deposit))%float 2 /\
    UserOut.username u = User.username user.
Proof.
  intros Hc Hh Hk Hid Ho Hu Hfresh Haddr.
  destruct (numeric_id_round_trip Hk) as (owner' & Ho' & _ & Hback).
  rewrite Ho in Ho'. injection Ho' as <-.
  assert (decimal_reference owner) as Hdec
      by (unfold decimal_reference; rewrite Hback; exact Ho).
  rewrite <- Hid in Ho.
  destruct (@createDeposit_run w deposit owner Hc (Hh 0%nat) Ho Hfresh)
    as (w1 & Hrun & Hc1 & Hf1 & Hd1 & Hu1).
  set (d := Deposit.make (fresh w 0%nat) owner (InsertDeposit.amount deposit)
              (or_null (InsertDeposit.receiptUrl deposit)) "pending"
              (clock w 0%nat)) in *.
  assert (healthy w1) as Hh1
      by (intros n; rewrite Hf1; unfold behead; apply Hh).
  assert (List.find (has_id Deposits (fresh w 0%nat)) (deposits (db w1)) =
          Some d) as Hfind.
  { rewrite Hd1, (find_app_none _ _ _ (find_not_exists _ _ Hfresh)).
    unfold has_id; simpl. rewrite ObjectId_eqb_refl. reflexivity. }
  assert (List.find (has_id Users (Deposit.userId d)) (users (db w1)) =
          Some user) as Hfu by (rewrite Hu1; exact Hu).
  destruct (@updateDepositStatus_approved_world w1 id (fresh w 0%nat) d user
              Hc1 Hh1 Haddr Hfind Hfu Hdec) as (Hc2 & Hh2 & _ & Hu2).
  destruct (updateDepositStatus id "approved" w1) as [o2 w2] eqn:Erun2.
  assert (o2 = Returns tt) as ->.
  { revert Erun2. unfold updateDepositStatus, updateUserBalance. unfold_M.
    case_goal; intros E; injection E as <- _; reflexivity. }
  simpl snd in Hc2, Hh2, Hu2.
  change (Deposit.userId d) with owner in *.
  change (Deposit.amount d) with (InsertDeposit.amount deposit) in *.
  exists (convertMongoDeposit d), w1, w2.
  unfold getUser. unfold_M. rewrite Hid in Ho.
  rewrite Hc2, Ho; simpl. rewrite (Hh2 0%nat); simpl.
  rewrite Hu2, find_update_first_same by (intros x Hx; exact Hx).
  rewrite Hfu; simpl.
  do 2 eexists. split; [exact Hrun|]. split; [exact Hback|].
  repeat split. exact Erun2.
Qed.

Lemma an_approved_deposit_sample :
  exists r w1 w2 u w3,
    createDeposit (InsertDeposit.make 7%float "5.00" None) Counter.world =
    (Returns r, w1) /\
    updateDepositStatus 656565%float "approved" w1 = (Returns tt, w2) /\
    getUser 7%float w2 = (Returns (Some u), w3) /\
    UserOut.balance u = "8.10".
Proof.
  destruct (@an_approved_deposit_is_credited_to_its_user Counter.world 7%N
              (InsertDeposit.make 7%float "5.00" None) 656565%float
              Sample.oid_7 Sample.bob eq_refl (fun _ => eq_refl) eq_refl
              eq_refl eq_refl eq_refl eq_refl eq_refl)
    as (r & w1 & w2 & u & w3 & H1 & _ & _ & _ & H2 & H3 & H4 & _).
  exists r, w1, w2, u, w3. repeat split; assumption.
Defined.

(* ---------------- a withdrawal and its user ---------------- *)

(** X28: a withdrawal made for a user is listed for that user. On a
    connected storage whose store answers, for a numeric user id k from 0
    to 999999999999999: createWithdrawal returns the withdrawal with userId
    k and status pending, and changes no user; getUserWithdrawals(k) then
    returns it among withdrawals that all carry the userId k. *)
Theorem a_withdrawal_is_listed_for_its_user w k withdrawal :
  isConnected w = true -> healthy w ->
  (k < id_bound)%N ->
  InsertWithdrawal.userId withdrawal = Number_of k ->
  existsb (has_id Withdrawals (fresh w 0%nat)) (withdrawals (db w)) = false ->
  exists r w1 l w2,
    createWithdrawal withdrawal w = (Returns r, w1) /\
    WithdrawalOut.userId r = Number_of k /\
    WithdrawalOut.status r = "pending" /\
    WithdrawalOut.amount r = InsertWithdrawal.amount withdrawal /\
    users (db w1) = users (db w) /\
    getUserWithdrawals (Number_of k) w1 = (Returns l, w2) /\
    In r l /\
    Forall (fun x => WithdrawalOut.userId x = Number_of k) l.
Proof.
  intros Hc Hh Hk Hid Hfresh.
  destruct (numeric_id_round_trip Hk) as (owner & Ho & _ & Hback).
  unfold createWithdrawal, getUserWithdrawals. unfold_M.
  rewrite Hid, Hc, Ho; simpl. rewrite (Hh 0%nat); simpl.
  rewrite Hfresh; simpl.
  do 4 eexists. split; [reflexivity|]. simpl.
  split; [exact Hback|]. split; [reflexivity|]. split; [reflexivity|].
  split; [reflexivity|].
  rewrite Hc; simpl. unfold behead; rewrite (Hh 1%nat); simpl.
  split; [reflexivity|]. split.
  - apply in_map_iff. eexists. split; [reflexivity|].
    apply (Permutation_in _
             (Permutation_sym (sort_desc_perm Withdrawal.createdAt _))).
    apply filter_In. split.
    + apply in_or_app. right. left. reflexivity.
    + simpl. apply ObjectId_eqb_refl.
  - rewrite Forall_forall. intros x Hx. apply in_map_iff in Hx.
    destruct Hx as (d & <- & Hd).
    apply (Permutation_in _ (sort_desc_perm Withdrawal.createdAt _)) in Hd.
    apply filter_In in Hd. destruct Hd as [_ Hd].
    apply ObjectId_eqb_eq in Hd. simpl. rewrite Hd. exact Hback.
Qed.

Lemma a_withdrawal_is_listed_sample :
  exists r w1 l w2,
    createWithdrawal (InsertWithdrawal.make 7%float "1.50" "gcash" "0917")
                     Sample.world = (Returns r, w1) /\
    getUserWithdrawals 7%float w1 = (Returns l, w2) /\
    map WithdrawalOut.amount l = ["1.50"; "2.00"].
Proof.
  destruct (@a_withdrawal_is_listed_for_its_user Sample.world 7%N
              (InsertWithdrawal.make 7%float "1.50" "gcash" "0917")
              eq_refl (fun _ => eq_refl) eq_refl eq_refl eq_refl)
    as (r & w1 & l & w2 & H1 & _ & _ & _ & _ & H2 & _).
  exists r, w1, l, w2. split; [exact H1|]. split; [exact H2|].
  vm_compute in H1. injection H1 as _ <-.
  vm_compute in H2. injection H2 as <- _. reflexivity.
Defined.

(* ---------------- the winner of the jackpot ---------------- *)

Lemma truthy_Number_of (k : N) :
  (0 < k < 2 ^ 53)%N -> truthy (Number_of k) = true.
Proof.
  intros Hk. unfold truthy.
  destruct (@Number_of_sign k (proj2 Hk)) as (-> & _).
  unfold is_zero. change zero with (Number_of 0).
  rewrite Number_of_eqb by (simpl; lia).
  replace (k =? 0)%N with false by (symmetry; apply N.eqb_neq; lia).
  reflexivity.
Qed.

(** X29: the jackpot reports its winner. On a connected storage whose
    store answers, after updateJackpot(amount, k) with k an integer from 1
    to 999999999999999, getJackpot returns the amount, k as lastWinnerId and
    the time of the call as lastWonAt. *)
Theorem the_jackpot_reports_its_winner w amount k :
  isConnected w = true -> healthy w ->
  (0 < k < id_bound)%N ->
  exists w1 r w2,
    updateJackpot amount (Some (Number_of k)) w = (Returns tt, w1) /\
    getJackpot w1 = (Returns r, w2) /\
    JackpotOut.amount r = amount /\
    JackpotOut.lastWinnerId r = Some (Number_of k) /\
    JackpotOut.lastWonAt r = Some (clock w 1%nat).
Proof.
  intros Hc Hh Hk.
  destruct (@numeric_id_round_trip k (proj2 Hk)) as (owner & Ho & _ & Hback).
  assert (truthy (Number_of k) = true) as Ht
      by (apply truthy_Number_of; unfold id_bound in Hk; simpl; lia).
  unfold updateJackpot, upsertJackpot, getJackpot. unfold_M.
  rewrite Hc, Ht, Ho; simpl. rewrite (Hh 0%nat); simpl.
  destruct (jackpots (db w)) as [|j rest] eqn:Ej; simpl;
    do 3 eexists; (split; [reflexivity|]); simpl; rewrite Hc; simpl;
    unfold behead; rewrite (Hh 1%nat); simpl;
    (split; [reflexivity|]); simpl; rewrite Hback; repeat split.
Qed.

Lemma the_jackpot_reports_its_winner_sample :
  exists w1 r w2,
    updateJackpot "0.10000000" (Some 7%float) Sample.world =
    (Returns tt, w1) /\
    getJackpot w1 = (Returns r, w2) /\
    JackpotOut.lastWinnerId r = Some 7%float.
Proof.
  destruct (@the_jackpot_reports_its_winner Sample.world "0.10000000" 7%N
              eq_refl (fun _ => eq_refl) (conj eq_refl eq_refl))
    as (w1 & r & w2 & H1 & H2 & _ & H3 & _).
  exists w1, r, w2. repeat split; assumption.
Defined.
